(** * GLib event-loop backends: event contexts, the poll(2) backend and the
      epoll backend

    A shallow embedding of
    - [glib/gevent.c], in two revisions: the basic one ([GEventBasic]) and the
      one with a process-wide default context ([GEvent]);
    - [glib/gmain-poll.c], in two revisions: [g_baseline_poller_*]
      ([GBaselinePoller]) and the mutex-protected [g_poll_context_*]
      ([GPollContext]);
    - [glib/gmain-epoll.c], in three revisions: two that keep the compatibility
      descriptors in the head of the [fds_ready] array ([GEpollContext],
      [GEpoller]) and one that keeps them in a hash table ([GEpollContextMT]);
    - [glib/gevent-epoll.c], the epoll event context ([GEpollEvent]);
    followed by the properties of these functions.

    Conventions.  A [gint] is a [Z] in [-2^31, 2^31), a [guint] a [Z] in
    [0, 2^32), a [gushort] a [Z] in [0, 2^16); arithmetic on them wraps and the
    wrap is written out.  A nullable C pointer is an [option].  Calls into code
    outside these files (vtable hooks, mutexes, warnings, the scheduler) are
    recorded as events, in program order.  What the kernel answers
    ([epoll_create], [epoll_ctl], [epoll_wait], [poll]) is an input, and so
    is what the allocator answers to the [g_renew] of [epoll_output], whose
    size is the count of registrations. *)

From Stdlib Require Import ZArith NArith List Lia Bool String Sorted.
From stdpp Require Import base option list gmap.

Local Open Scope Z_scope.

(** * Part I: the programs *)

(** ** Machine integers *)

Module GTypes.

Definition G_MAXINT : Z := 2147483647.
Definition G_MININT : Z := -2147483648.
Definition G_MAXUINT : Z := 4294967295.
Definition G_MAXUSHORT : Z := 65535.

Definition wrap_gint (z : Z) : Z :=
  (z + 2147483648) mod 4294967296 - 2147483648.

Definition wrap_guint (z : Z) : Z := z mod 4294967296.

Definition wrap_gushort (z : Z) : Z := z mod 65536.

Definition wrap_gsize (z : Z) : Z := z mod 18446744073709551616.

Definition G_MAXSIZE : Z := 18446744073709551615.

End GTypes.

(** ** The event context handle: [gevent.c] with the default context *)

Module GEvent.
Import GTypes.

(** An address of a heap block; [None : option addr] is the NULL pointer. *)
Definition addr := nat.

(** The backend's function table.  Its three hooks are code outside
    [gevent.c]: a table is identified by a number, and a call of one of its
    hooks is recorded as an event. *)
Definition GEventContextFuncs := nat.

Record GEventContextPrivate := mkPrivate {
  struct_size : Z;
  ref_count : Z
}.

Record GEventContext := mkContext {
  funcs : GEventContextFuncs;
  priv : GEventContextPrivate
}.

Inductive event :=
| EvAddPoll (f : GEventContextFuncs) (context : addr) (fd : addr)
| EvRemovePoll (f : GEventContextFuncs) (context : addr) (fd : addr)
| EvFinalize (f : GEventContextFuncs) (context : addr)
| EvLock (context : addr)
| EvUnlock (context : addr)
| EvCritical (check : string).

(** The process: the heap of live contexts, the two statics of
    [g_event_context_default], what the kernel answers to [epoll_create],
    the trace, and the private blocks that are still allocated although
    their context has been freed: no pointer leads to them any more. *)
Record world := mkWorld {
  heap : gmap addr GEventContext;
  next_addr : addr;
  default_event_context : option addr;
  initialised : bool;
  sys_epoll_create : Z;
  trace : list event;
  leaked : list GEventContextPrivate
}.

(** A computation returns a value and a new world, or faults: it went through
    NULL or through a pointer to a freed block. *)
Inductive result (A : Type) :=
| Ret (a : A) (w : world)
| Fault.
Arguments Ret {A} a w.
Arguments Fault {A}.

Definition M (A : Type) := world -> result A.

Definition ret {A} (a : A) : M A := fun w => Ret a w.

Definition bind {A B} (m : M A) (k : A -> M B) : M B :=
  fun w => match m w with
           | Ret a w' => k a w'
           | Fault => Fault
           end.

Notation "x <- m ;; k" := (bind m (fun x => k))
  (at level 100, m at next level, right associativity, only parsing).
Notation "m ;;; k" := (bind m (fun _ => k))
  (at level 100, right associativity, only parsing).

Definition fault {A} : M A := fun _ => Fault.

Definition log (e : event) : M unit :=
  fun w => Ret tt (mkWorld (heap w) (next_addr w) (default_event_context w)
                           (initialised w) (sys_epoll_create w)
                           (trace w ++ [e]) (leaked w)).

(** [*context]. *)
Definition load (h : addr) : M GEventContext :=
  fun w => match heap w !! h with
           | Some c => Ret c w
           | None => Fault
           end.

Definition store (h : addr) (c : GEventContext) : M unit :=
  fun w => Ret tt (mkWorld (<[h := c]> (heap w)) (next_addr w)
                           (default_event_context w) (initialised w)
                           (sys_epoll_create w) (trace w) (leaked w)).

(** [g_slice_alloc0] of the context and [g_slice_new0] of its private
    block. *)
Definition alloc (c : GEventContext) : M addr :=
  fun w => Ret (next_addr w)
               (mkWorld (<[next_addr w := c]> (heap w)) (S (next_addr w))
                        (default_event_context w) (initialised w)
                        (sys_epoll_create w) (trace w) (leaked w)).

(** [g_slice_free1] of the context and [g_slice_free] of its private block. *)
Definition free (h : addr) : M unit :=
  fun w => Ret tt (mkWorld (delete h (heap w)) (next_addr w)
                           (default_event_context w) (initialised w)
                           (sys_epoll_create w) (trace w) (leaked w)).

(** [g_slice_free (GEpollContext, context)] and nothing more: the context
    goes, and its private block, with the mutex that [g_mutex_init] has set
    up, stays allocated with nothing pointing to it. *)
Definition free_context_alone (h : addr) : M unit :=
  fun w => match heap w !! h with
           | Some c =>
               Ret tt (mkWorld (delete h (heap w)) (next_addr w)
                               (default_event_context w) (initialised w)
                               (sys_epoll_create w) (trace w)
                               (leaked w ++ [priv c]))
           | None => Fault
           end.

Definition set_ref_count (c : GEventContext) (n : Z) : GEventContext :=
  mkContext (funcs c) (mkPrivate (struct_size (priv c)) n).

Definition g_event_context_new_custom (fs : GEventContextFuncs)
    (size : Z) : M (option addr) :=
  context <- alloc (mkContext fs (mkPrivate size 1)) ;;
  ret (Some context).

Definition g_event_context_ref (context : option addr) : M (option addr) :=
  match context with
  | None => log (EvCritical "context != NULL") ;;; ret None
  | Some h =>
      c <- load h ;;
      if 0 <? ref_count (priv c)
      then (* g_atomic_int_inc *)
           store h (set_ref_count c (wrap_gint (ref_count (priv c) + 1))) ;;;
           ret (Some h)
      else log (EvCritical "ref_count > 0") ;;; ret None
  end.

Definition g_event_context_unref (context : option addr) : M unit :=
  match context with
  | None => log (EvCritical "context != NULL")
  | Some h =>
      c <- load h ;;
      if 0 <? ref_count (priv c)
      then
        (* g_atomic_int_dec_and_test *)
        let n := wrap_gint (ref_count (priv c) - 1) in
        store h (set_ref_count c n) ;;;
        if n =? 0
        then log (EvFinalize (funcs c) h) ;;; free h
        else ret tt
      else log (EvCritical "ref_count > 0")
  end.

(** The function table of the epoll event context and the size of its
    struct ([GEventContext] base, [int], [GHashTable *]; 32 bytes on LP64). *)
Definition g_epoll_context_funcs : GEventContextFuncs := 0%nat.
Definition sizeof_GEpollContext : Z := 32.

Definition epoll_create : M Z := fun w => Ret (sys_epoll_create w) w.

(** The constructor that [gevent-epoll.h] declares as
    [_g_epoll_event_context_new].  When [epoll_create] fails it frees the
    context with [g_slice_free] and not with [g_event_context_unref]: the
    private block is left behind. *)
Definition _g_epoll_event_context_new : M (option addr) :=
  context <- g_event_context_new_custom g_epoll_context_funcs
                                        sizeof_GEpollContext ;;
  match context with
  | None => fault
  | Some h =>
      epoll_fd <- epoll_create ;;
      if epoll_fd <? 0
      then log (EvCritical "epoll_create failed") ;;;
           free_context_alone h ;;;
           ret None
      else ret (Some h)
  end.

(** [g_event_context_new], with [HAVE_SYS_EPOLL_H]. *)
Definition g_event_context_new : M (option addr) :=
  _g_epoll_event_context_new.

(** [g_once_init_enter (&initialised)] and [g_once_init_leave (&initialised,
    TRUE)], as one thread sees them. *)
Definition g_once_init_enter : M bool :=
  fun w => Ret (negb (initialised w)) w.

Definition g_once_init_leave : M unit :=
  fun w => Ret tt (mkWorld (heap w) (next_addr w) (default_event_context w)
                           true (sys_epoll_create w) (trace w) (leaked w)).

Definition set_default_event_context (context : option addr) : M unit :=
  fun w => Ret tt (mkWorld (heap w) (next_addr w) context
                           (initialised w) (sys_epoll_create w) (trace w)
                           (leaked w)).

Definition get_default_event_context : M (option addr) :=
  fun w => Ret (default_event_context w) w.

Definition g_event_context_default : M (option addr) :=
  enter <- g_once_init_enter ;;
  (if enter : bool
   then context <- g_event_context_new ;;
        set_default_event_context context ;;;
        g_once_init_leave
   else ret tt) ;;;
  get_default_event_context.

Definition g_event_context_add_poll_unlocked (h : addr) (fd : addr)
    : M unit :=
  c <- load h ;;
  log (EvAddPoll (funcs c) h fd).

Definition g_event_context_remove_poll_unlocked (h : addr) (fd : addr)
    : M unit :=
  c <- load h ;;
  log (EvRemovePoll (funcs c) h fd).

Definition _g_event_context_add_poll (context : option addr)
    (fd : option addr) : M unit :=
  context <- match context with
             | None => g_event_context_default
             | Some _ => ret context
             end ;;
  match context with
  | None => fault
  | Some h =>
      c <- load h ;;
      if 0 <? ref_count (priv c)
      then match fd with
           | None => log (EvCritical "fd != NULL")
           | Some p =>
               log (EvLock h) ;;;
               g_event_context_add_poll_unlocked h p ;;;
               log (EvUnlock h)
           end
      else log (EvCritical "ref_count > 0")
  end.

Definition _g_event_context_remove_poll (context : option addr)
    (fd : option addr) : M unit :=
  context <- match context with
             | None => g_event_context_default
             | Some _ => ret context
             end ;;
  match context with
  | None => fault
  | Some h =>
      c <- load h ;;
      if 0 <? ref_count (priv c)
      then match fd with
           | None => log (EvCritical "fd != NULL")
           | Some p =>
               log (EvLock h) ;;;
               g_event_context_remove_poll_unlocked h p ;;;
               log (EvUnlock h)
           end
      else log (EvCritical "ref_count > 0")
  end.

(** [n] calls of [m] in a row, starting in [w]. *)
Definition calls {A} (n : N) (m : M A) (w : world) : result unit :=
  N.iter n (fun r => match r with
                     | Ret _ w' => match m w' with
                                   | Ret _ w'' => Ret tt w''
                                   | Fault => Fault
                                   end
                     | Fault => Fault
                     end) (Ret tt w).

Definition is_finalize_of (h : addr) (e : event) : bool :=
  match e with
  | EvFinalize _ h' => Nat.eqb h' h
  | _ => false
  end.

(** How often the [finalize] hook has run on context [h]. *)
Definition finalize_calls (h : addr) (t : list event) : nat :=
  length (List.filter (is_finalize_of h) t).

Definition ref_count_of (w : world) (h : addr) : option Z :=
  match heap w !! h with
  | Some c => Some (ref_count (priv c))
  | None => None
  end.

(** A world in which nothing has happened yet. *)
Definition initial_world (epoll_fd : Z) : world :=
  mkWorld ∅ 1%nat None false epoll_fd [] [].

(** The reference-count law for [n] calls of [g_event_context_ref]: the
    count of a new context is 1, it is [1 + j] after [j <= n] of them, it is
    [1 + n - k] after [k <= n] calls of [g_event_context_unref] more, with no
    call of [finalize] so far, and the next [g_event_context_unref] calls
    [finalize] once and frees the context. *)
Definition counts_and_finalizes_once (n : N) (fs : GEventContextFuncs)
    (size : Z) (w : world) : Prop :=
  exists h w0 w1,
    g_event_context_new_custom fs size w = Ret (Some h) w0 /\
    ref_count_of w0 h = Some 1 /\
    (forall j, (j <= n)%N ->
       exists wj, calls j (g_event_context_ref (Some h)) w0 = Ret tt wj /\
                  ref_count_of wj h = Some (1 + Z.of_N j)) /\
    calls n (g_event_context_ref (Some h)) w0 = Ret tt w1 /\
    (forall k, (k <= n)%N ->
       exists wk, calls k (g_event_context_unref (Some h)) w1 = Ret tt wk /\
                  ref_count_of wk h = Some (1 + Z.of_N n - Z.of_N k) /\
                  trace wk = trace w) /\
    (exists w2, calls (n + 1) (g_event_context_unref (Some h)) w1 = Ret tt w2 /\
                trace w2 = trace w ++ [EvFinalize fs h] /\
                heap w2 !! h = None).

(** The law as it is claimed for every [n]: [n] references and [n + 1]
    releases of a new context run [finalize] exactly once. *)
Definition finalizes_once (n : N) (fs : GEventContextFuncs) (size : Z)
    (w : world) : Prop :=
  exists h w0 w1 w2,
    g_event_context_new_custom fs size w = Ret (Some h) w0 /\
    calls n (g_event_context_ref (Some h)) w0 = Ret tt w1 /\
    calls (n + 1) (g_event_context_unref (Some h)) w1 = Ret tt w2 /\
    finalize_calls h (trace w2) = S (finalize_calls h (trace w)).










End GEvent.

(** ** The event context handle: the basic [gevent.c]

    [g_event_context_new (funcs, struct_size)], [g_event_context_ref] and
    [g_event_context_unref] of this revision have the bodies of
    [GEvent.g_event_context_new_custom], [GEvent.g_event_context_ref] and
    [GEvent.g_event_context_unref]; [add_poll] and [remove_poll] do not
    look at the handle before they use it. *)

Module GEventBasic.
Import GTypes GEvent.

Definition g_event_context_new (fs : GEventContextFuncs) (size : Z)
    : M (option addr) :=
  context <- alloc (mkContext fs (mkPrivate size 1)) ;;
  ret (Some context).

Definition _g_event_context_add_poll (context : option addr)
    (fd : option addr) : M unit :=
  match context with
  | None => fault
  | Some h =>
      c <- load h ;;
      if 0 <? ref_count (priv c)
      then match fd with
           | None => log (EvCritical "fd != NULL")
           | Some p =>
               log (EvLock h) ;;;
               g_event_context_add_poll_unlocked h p ;;;
               log (EvUnlock h)
           end
      else log (EvCritical "ref_count > 0")
  end.

Definition _g_event_context_remove_poll (context : option addr)
    (fd : option addr) : M unit :=
  match context with
  | None => fault
  | Some h =>
      c <- load h ;;
      if 0 <? ref_count (priv c)
      then match fd with
           | None => log (EvCritical "fd != NULL")
           | Some p =>
               log (EvLock h) ;;;
               g_event_context_remove_poll_unlocked h p ;;;
               log (EvUnlock h)
           end
      else log (EvCritical "ref_count > 0")
  end.

End GEventBasic.

(** ** What the main-loop backends share *)

Module GMain.

(** Modelled from the spec: the type [GPollFD] of [glib/gpoll.h] is missing
    from the files.  The record has the spec's descriptor and observed-event
    mask ([revents]) and the interest mask [events], the three fields the
    code assigns. *)
Record GPollFD := mkPollFD {
  fd : Z;
  events : Z;
  revents : Z
}.

Inductive epoll_op := EPOLL_CTL_ADD | EPOLL_CTL_MOD | EPOLL_CTL_DEL.

(** Calls that leave the backend. *)
Inductive event :=
| EvLock
| EvUnlock
| EvWakeup
| EvWarning (message : string)
| EvCritical (check : string)
| EvEpollCtl (op : epoll_op) (fd : Z) (events : Z)
| EvEpollWait (maxevents : Z) (timeout : Z)
| EvPoll (n_fds : Z) (timeout : Z)
| EvPrepare
| EvCheck (max_priority : Z) (fds : list GPollFD) (n_fds : Z)
| EvDispatch.

(** The constants of [<poll.h>] (through [glibconfig.h]), [<sys/epoll.h>]
    and [<errno.h>] that the code names; the headers are not among the
    files. *)
Class Platform := mkPlatform {
  G_IO_IN : Z;
  G_IO_OUT : Z;
  G_IO_PRI : Z;
  G_IO_ERR : Z;
  G_IO_HUP : Z;
  EPOLLIN : Z;
  EPOLLOUT : Z;
  EPOLLPRI : Z;
  EPOLLERR : Z;
  EPOLLHUP : Z;
  EINTR : Z;
  EPERM : Z;
  EBADF : Z;
  ENOENT : Z
}.

(** The flags are single bits: bit [g !! i] of a [gushort] for the [i]-th
    of [G_IO_IN], [G_IO_OUT], [G_IO_PRI], [G_IO_ERR], [G_IO_HUP], and bit
    [e !! i] of a [uint32_t] for the [i]-th of [EPOLLIN], [EPOLLOUT],
    [EPOLLPRI], [EPOLLERR], [EPOLLHUP]; no two flags of a kind share a bit. *)
Definition flags_at `{Platform} (g e : list Z) : Prop :=
  [G_IO_IN; G_IO_OUT; G_IO_PRI; G_IO_ERR; G_IO_HUP] = map (Z.pow 2) g /\
  [EPOLLIN; EPOLLOUT; EPOLLPRI; EPOLLERR; EPOLLHUP] = map (Z.pow 2) e /\
  List.Forall (fun k => 0 <= k < 16) g /\
  List.Forall (fun k => 0 <= k < 32) e /\
  List.NoDup g /\ List.NoDup e.

Definition single_bit_flags `{Platform} : Prop :=
  exists g e, flags_at g e.

(** Their values on Linux. *)
Definition linux : Platform :=
  mkPlatform 1 4 2 8 16 1 4 2 8 16 4 1 9 2.

(** What a poll function leaves behind: its return value, [errno], and the
    array. *)
Record poll_answer := mkPollAnswer {
  poll_retval : Z;
  poll_errno : Z;
  poll_fds : list GPollFD
}.

(** [GPollFunc]: called with the array, its length and the timeout. *)
Definition GPollFunc := list GPollFD -> Z -> Z -> poll_answer.

(** The scheduler, as far as a backend calls it: [g_main_context_prepare]
    yields the maximum priority, [g_main_context_get_poll_timeout] the
    timeout, [g_main_context_check] whether sources are ready. *)
Record scheduler := mkScheduler {
  sched_max_priority : Z;
  sched_poll_timeout : Z;
  sched_check : Z -> list GPollFD -> Z -> bool
}.


Definition interrupted : GPollFunc :=
  fun fds _ _ => mkPollAnswer (-1) 4 fds.

(** The scheduler's wake-up is among the calls. *)
Definition wakes (calls : list event) : Prop := In EvWakeup calls.

Definition is_critical (e : event) : bool :=
  match e with
  | EvCritical _ => true
  | _ => false
  end.


End GMain.

(** ** The poll records of [gmain-poll.c]

    Both revisions keep the [GPollRec]s in a doubly-linked list between
    [poll_records] and [poll_records_tail].  The list of records from the head
    along [next] stands for it; the chain from the tail along [prev] is its
    reverse. *)

Module GPollRecords.
Import GTypes GMain.

Record GPollRec := mkPollRec {
  fd : Z;
  priority : Z;
  events : Z
}.

(** The loop of [add_fd]: [prevrec] is the chain from the current record
    towards the head, [nextrec] the chain from the record after it towards the
    tail. *)
Fixpoint scan_back (new_priority : Z) (prevrec nextrec : list GPollRec)
    : list GPollRec * list GPollRec :=
  match prevrec with
  | [] => ([], nextrec)
  | p :: prev =>
      if new_priority <? priority p
      then scan_back new_priority prev (p :: nextrec)
      else (prevrec, nextrec)
  end.

(** The records after [newrec] has been linked in between [prevrec] and
    [nextrec]. *)
Definition link (records : list GPollRec) (newrec : GPollRec)
    : list GPollRec :=
  let '(prevrec, nextrec) := scan_back (priority newrec) (rev records) [] in
  rev prevrec ++ newrec :: nextrec.

(** The loop of [remove_fd]: [None] when it ends with [pollrec == NULL]. *)
Fixpoint unlink (pollrec : list GPollRec) (the_fd : Z)
    : option (list GPollRec) :=
  match pollrec with
  | [] => None
  | r :: nextrec =>
      if fd r =? the_fd
      then Some nextrec
      else match unlink nextrec the_fd with
           | Some rest => Some (r :: rest)
           | None => None
           end
  end.

(** The loop of [modify_fd]. *)
Fixpoint update (pollrec : list GPollRec) (the_fd new_events new_priority : Z)
    : option (list GPollRec) :=
  match pollrec with
  | [] => None
  | r :: nextrec =>
      if fd r =? the_fd
      then Some (mkPollRec (fd r) new_priority new_events :: nextrec)
      else match update nextrec the_fd new_events new_priority with
           | Some rest => Some (r :: rest)
           | None => None
           end
  end.

(** The loop of [query].  [fds] is the caller's array; a store outside it has
    no defined outcome, which is [None]. *)
Fixpoint query_loop (pollrec : list GPollRec) (max_priority : Z)
    (fds : list GPollFD) (n_fds n_poll : Z) : option (list GPollFD * Z) :=
  match pollrec with
  | [] => Some (fds, n_poll)
  | r :: nextrec =>
      if max_priority >=? priority r
      then
        if (n_poll <? n_fds) && negb (events r =? 0)
        then
          if (0 <=? n_poll) && (n_poll <? Z.of_nat (length fds))
          then query_loop nextrec max_priority
                 (<[Z.to_nat n_poll := mkPollFD (fd r) (events r) 0]> fds)
                 n_fds (wrap_gint (n_poll + 1))
          else None
        else query_loop nextrec max_priority fds n_fds (wrap_gint (n_poll + 1))
      else Some (fds, n_poll)
  end.

(** The records that [query] walks over: the ones from the head up to
    the first whose priority is above [max_priority]. *)
Fixpoint leading (max_priority : Z) (records : list GPollRec)
    : list GPollRec :=
  match records with
  | [] => []
  | r :: rest =>
      if max_priority >=? priority r
      then r :: leading max_priority rest
      else []
  end.

(** Ascending priority from the head. *)
Definition ascending (records : list GPollRec) : Prop :=
  StronglySorted (fun a b => priority a <= priority b) records.

(** The records a query is about, and the slot of a record. *)
Definition within (max_priority : Z) (r : GPollRec) : bool :=
  priority r <=? max_priority.

Definition slot_of (r : GPollRec) : GPollFD :=
  mkPollFD (fd r) (events r) 0.

(** What a query of [records] up to [max_priority] into the [n_fds] slots of
    [fds] answers: the number of records whose priority is at most
    [max_priority]; and in the array, for each such record that has a slot
    below [n_fds], in the order of the records, its [slot_of] if its interest
    mask is not empty and the old contents of the slot if it is; all other
    slots are as before. *)
Definition fills (records : list GPollRec) (max_priority : Z)
    (fds : list GPollFD) (n_fds : Z) (answer : option (list GPollFD * Z))
    : Prop :=
  let asked := List.filter (within max_priority) records in
  exists fds',
    answer = Some (fds', Z.of_nat (length asked)) /\
    length fds' = length fds /\
    (forall (i : nat) r,
       asked !! i = Some r -> Z.of_nat i < n_fds ->
       fds' !! i = if events r =? 0 then fds !! i else Some (slot_of r)) /\
    (forall i : nat,
       n_fds <= Z.of_nat i \/ (length asked <= i)%nat ->
       fds' !! i = fds !! i).

(** The same with the slot of every such record stored, as claimed. *)
Definition emits_all (records : list GPollRec) (max_priority : Z)
    (fds : list GPollFD) (n_fds : Z) (answer : option (list GPollFD * Z))
    : Prop :=
  let asked := List.filter (within max_priority) records in
  exists fds',
    answer = Some (fds', Z.of_nat (length asked)) /\
    (forall (i : nat) r,
       asked !! i = Some r -> Z.of_nat i < n_fds ->
       fds' !! i = Some (slot_of r)).

End GPollRecords.

(** ** [gmain-poll.c], the baseline poller *)

Module GBaselinePoller.
Import GTypes GMain GPollRecords.

Record GBaselinePollerData := mkBackend {
  poll_records : list GPollRec;
  n_poll_records : Z;
  cached_poll_array : list GPollFD;
  cached_poll_array_size : Z;
  poll_func : GPollFunc
}.

Definition _g_baseline_poller_new (func : GPollFunc) : GBaselinePollerData :=
  mkBackend [] 0 [] 0 func.

(** A poll function that finds nothing ready. *)
Definition nothing_ready : GPollFunc :=
  fun fds _ _ => mkPollAnswer 0 0 fds.

Definition g_baseline_poller_add_fd (backend : GBaselinePollerData)
    (fd events priority : Z) : GBaselinePollerData * list event :=
  let newrec := mkPollRec fd priority events in
  (mkBackend (link (poll_records backend) newrec)
             (wrap_guint (n_poll_records backend + 1))
             (cached_poll_array backend) (cached_poll_array_size backend)
             (poll_func backend),
   []).

Definition g_baseline_poller_remove_fd (backend : GBaselinePollerData)
    (fd : Z) : GBaselinePollerData * list event :=
  match unlink (poll_records backend) fd with
  | Some records =>
      (mkBackend records (wrap_guint (n_poll_records backend - 1))
                 (cached_poll_array backend) (cached_poll_array_size backend)
                 (poll_func backend),
       [])
  | None => (backend, [EvCritical "pollrec != NULL"])
  end.

Definition g_baseline_poller_modify_fd (backend : GBaselinePollerData)
    (fd events priority : Z) : GBaselinePollerData * list event :=
  match update (poll_records backend) fd events priority with
  | Some records =>
      (mkBackend records (n_poll_records backend)
                 (cached_poll_array backend) (cached_poll_array_size backend)
                 (poll_func backend),
       [])
  | None => (backend, [EvCritical "pollrec != NULL"])
  end.

Definition g_baseline_poller_query (backend : GBaselinePollerData)
    (max_priority : Z) (fds : list GPollFD) (n_fds : Z)
    : option (list GPollFD * Z) :=
  query_loop (poll_records backend) max_priority fds n_fds 0.

(** [g_baseline_poller_poll], without [G_OS_WIN32] and
    [G_MAIN_POLL_DEBUG]; it returns nothing, the array is what the poll
    function left. *)
Definition g_baseline_poller_poll `{Platform} (backend : GBaselinePollerData)
    (timeout priority : Z) (fds : list GPollFD) (n_fds : Z)
    : list GPollFD * list event :=
  if negb (n_fds =? 0) || negb (timeout =? 0)
  then
    let answer := poll_func backend fds n_fds timeout in
    (poll_fds answer,
     EvPoll n_fds timeout ::
     (if (poll_retval answer <? 0) && negb (poll_errno answer =? EINTR)
      then [EvWarning "poll(2) failed"]
      else []))
  else (fds, []).

(** Four descriptors that want [G_IO_IN], added with the priorities 5, 1, 3
    and 1; and an array of four slots. *)
Definition four_adds : list (Z * Z * Z) :=
  [(10, 1, 5); (11, 1, 1); (12, 1, 3); (13, 1, 1)].

Definition four_slots : list GPollFD :=
  [mkPollFD 0 0 0; mkPollFD 0 0 0; mkPollFD 0 0 0; mkPollFD 0 0 0].

(** A run of [add_fd] calls, each given as [(fd, events, priority)]. *)
Definition add_fds (backend : GBaselinePollerData)
    (adds : list (Z * Z * Z)) : GBaselinePollerData :=
  fold_left (fun b a => fst (g_baseline_poller_add_fd b (fst (fst a))
                                                      (snd (fst a)) (snd a)))
            adds backend.

End GBaselinePoller.

(** ** [gmain-poll.c], the poll context with its mutex *)

Module GPollContext.
Import GTypes GMain GPollRecords.

Record GPollLoopBackend := mkBackend {
  poll_records : list GPollRec;
  n_poll_records : Z;
  cached_poll_array : list GPollFD;
  cached_poll_array_size : Z;
  poll_changed : bool;
  poll_func : GPollFunc
}.

(** A call that leaves the backend is recorded together with the poll records
    as they are when it is made: they are what the called side can see. *)
Definition trace := list (event * list GPollRec).

Definition P (A : Type) := GPollLoopBackend -> A * GPollLoopBackend * trace.

Definition ret {A} (a : A) : P A := fun b => (a, b, []).

Definition bind {A B} (m : P A) (k : A -> P B) : P B :=
  fun b => let '(a, b1, t1) := m b in
           let '(r, b2, t2) := k a b1 in
           (r, b2, t1 ++ t2).

Notation "x <- m ;; k" := (bind m (fun x => k))
  (at level 100, m at next level, right associativity, only parsing).
Notation "m ;;; k" := (bind m (fun _ => k))
  (at level 100, right associativity, only parsing).

Definition call (e : event) : P unit :=
  fun b => (tt, b, [(e, poll_records b)]).

Definition get : P GPollLoopBackend := fun b => (b, b, []).

Definition set_poll_records (records : list GPollRec) : P unit :=
  fun b => (tt, mkBackend records (n_poll_records b) (cached_poll_array b)
                          (cached_poll_array_size b) (poll_changed b)
                          (poll_func b), []).

Definition set_n_poll_records (n : Z) : P unit :=
  fun b => (tt, mkBackend (poll_records b) n (cached_poll_array b)
                          (cached_poll_array_size b) (poll_changed b)
                          (poll_func b), []).

Definition set_poll_changed (changed : bool) : P unit :=
  fun b => (tt, mkBackend (poll_records b) (n_poll_records b)
                          (cached_poll_array b) (cached_poll_array_size b)
                          changed (poll_func b), []).

(** [g_poll_context_create]; [g_poll] is the poll function of [gpoll.c]. *)
Definition g_poll_context_create (g_poll : GPollFunc) : GPollLoopBackend :=
  mkBackend [] 0 [] 0 false g_poll.

Definition g_poll_context_add_fd (fd events priority : Z) : P bool :=
  let newrec := mkPollRec fd priority events in
  call EvLock ;;;
  backend <- get ;;
  set_poll_records (link (poll_records backend) newrec) ;;;
  set_n_poll_records (wrap_guint (n_poll_records backend + 1)) ;;;
  set_poll_changed true ;;;
  call EvUnlock ;;;
  call EvWakeup ;;;
  ret true.

Definition g_poll_context_remove_fd (fd : Z) : P bool :=
  call EvLock ;;;
  backend <- get ;;
  match unlink (poll_records backend) fd with
  | Some records =>
      set_poll_records records ;;;
      set_n_poll_records (wrap_guint (n_poll_records backend - 1))
  | None => ret tt
  end ;;;
  set_poll_changed true ;;;
  call EvUnlock ;;;
  call EvWakeup ;;;
  ret true.

Definition g_poll_context_modify_fd (fd events priority : Z) : P bool :=
  call EvLock ;;;
  backend <- get ;;
  match update (poll_records backend) fd events priority with
  | Some records => set_poll_records records
  | None => ret tt
  end ;;;
  set_poll_changed true ;;;
  call EvUnlock ;;;
  call EvWakeup ;;;
  ret true.

Definition g_poll_context_query (max_priority : Z) (fds : list GPollFD)
    (n_fds : Z) : P (option (list GPollFD * Z)) :=
  backend <- get ;;
  match query_loop (poll_records backend) max_priority fds n_fds 0 with
  | Some filled => set_poll_changed false ;;; ret (Some filled)
  | None => ret None
  end.

(** [g_poll_context_poll], without [G_OS_WIN32] and [G_MAIN_POLL_DEBUG]; it
    returns nothing, the array is what the poll function left. *)
Definition g_poll_context_poll `{Platform} (timeout priority : Z)
    (fds : list GPollFD) (n_fds : Z) : P (list GPollFD) :=
  if negb (n_fds =? 0) || negb (timeout =? 0)
  then
    call EvLock ;;;
    backend <- get ;;
    call EvUnlock ;;;
    call (EvPoll n_fds timeout) ;;;
    let answer := poll_func backend fds n_fds timeout in
    (if (poll_retval answer <? 0) && negb (poll_errno answer =? EINTR)
     then call (EvWarning "poll(2) failed")
     else ret tt) ;;;
    ret (poll_fds answer)
  else ret fds.

(** A run of [add_fd] calls, each given as [(fd, events, priority)]. *)
Definition add_fds (backend : GPollLoopBackend)
    (adds : list (Z * Z * Z)) : GPollLoopBackend :=
  fold_left (fun b a => snd (fst (g_poll_context_add_fd (fst (fst a))
                                    (snd (fst a)) (snd a) b)))
            adds backend.

(** The calls in a trace, without the records. *)
Definition calls_of (t : trace) : list event := map fst t.

End GPollContext.

(** ** What the revisions of [gmain-epoll.c] share *)

Module GEpoll.
Import GTypes GMain.

Record epoll_event := mkEpollEvent {
  ev_events : Z;
  data_fd : Z
}.

(** What [epoll_ctl] answers: its return value and [errno]. *)
Record ctl_answer := mkCtlAnswer {
  ctl_retval : Z;
  ctl_errno : Z
}.

(** What [epoll_wait] answers: its return value, [errno], and the events it
    stored in [epoll_output]. *)
Record wait_answer := mkWaitAnswer {
  wait_retval : Z;
  wait_errno : Z;
  wait_output : list epoll_event
}.

(** [#if G == E |G #endif]: a flag is part of the mask when its two values
    agree. *)
Definition when_same (g e : Z) : Z := if g =? e then g else 0.

(** [#if G != E if ((from & E) != 0) to |= G; #endif]. *)
Definition or_unless_same (g e src dst : Z) : Z :=
  if negb (g =? e) && negb (Z.land src e =? 0) then Z.lor dst g else dst.

Definition g_io_condition_from_epoll_events `{Platform} (epoll_events : Z)
    : Z :=
  let io_cond :=
    wrap_gushort
      (Z.land epoll_events
         (Z.lor (Z.lor (Z.lor (Z.lor (Z.lor 0
            (when_same G_IO_IN EPOLLIN))
            (when_same G_IO_OUT EPOLLOUT))
            (when_same G_IO_PRI EPOLLPRI))
            (when_same G_IO_ERR EPOLLERR))
            (when_same G_IO_HUP EPOLLHUP))) in
  let io_cond :=
    wrap_gushort (or_unless_same G_IO_IN EPOLLIN epoll_events io_cond) in
  let io_cond :=
    wrap_gushort (or_unless_same G_IO_OUT EPOLLOUT epoll_events io_cond) in
  let io_cond :=
    wrap_gushort (or_unless_same G_IO_PRI EPOLLPRI epoll_events io_cond) in
  let io_cond :=
    wrap_gushort (or_unless_same G_IO_ERR EPOLLERR epoll_events io_cond) in
  let io_cond :=
    wrap_gushort (or_unless_same G_IO_HUP EPOLLHUP epoll_events io_cond) in
  io_cond.

Definition g_io_condition_to_epoll_events `{Platform} (io_cond : Z) : Z :=
  let epoll_mask :=
    wrap_guint
      (Z.land io_cond
         (Z.lor (Z.lor (Z.lor 0
            (when_same EPOLLIN G_IO_IN))
            (when_same EPOLLOUT G_IO_OUT))
            (when_same EPOLLPRI G_IO_PRI))) in
  let epoll_mask :=
    wrap_guint (or_unless_same EPOLLIN G_IO_IN io_cond epoll_mask) in
  let epoll_mask :=
    wrap_guint (or_unless_same EPOLLOUT G_IO_OUT io_cond epoll_mask) in
  let epoll_mask :=
    wrap_guint (or_unless_same EPOLLPRI G_IO_PRI io_cond epoll_mask) in
  epoll_mask.

(** What the two translations do to masks: a portable mask within
    [G_IO_IN | G_IO_OUT | G_IO_PRI] comes back from its epoll mask unchanged;
    an epoll mask made from a portable mask has neither [EPOLLERR] nor
    [EPOLLHUP]; a portable mask made from an epoll mask has [G_IO_ERR] exactly
    when that has [EPOLLERR], and [G_IO_HUP] exactly when that has
    [EPOLLHUP]. *)
Definition translates_masks `{Platform} : Prop :=
  (forall io_cond,
     Z.land io_cond (Z.lor (Z.lor G_IO_IN G_IO_OUT) G_IO_PRI) = io_cond ->
     g_io_condition_from_epoll_events
       (g_io_condition_to_epoll_events io_cond) = io_cond) /\
  (forall io_cond,
     Z.land (g_io_condition_to_epoll_events io_cond)
            (Z.lor EPOLLERR EPOLLHUP) = 0) /\
  (forall epoll_events,
     (Z.land epoll_events EPOLLERR <> 0 <->
      Z.land (g_io_condition_from_epoll_events epoll_events) G_IO_ERR <> 0) /\
     (Z.land epoll_events EPOLLHUP <> 0 <->
      Z.land (g_io_condition_from_epoll_events epoll_events) G_IO_HUP <> 0)).

(** [sizeof (struct epoll_event)]: a [uint32_t] and a 64-bit union, packed,
    as on x86-64. *)
Definition sizeof_epoll_event : Z := 12.

(** How a call ends that may end the process: it returns, or [g_error] has
    ended the process after the calls given. *)
Inductive outcome (A : Type) :=
| Returns (a : A)
| Aborts (calls : list event).
Arguments Returns {A} a.
Arguments Aborts {A} calls.

(** Modelled from the spec: [g_renew] of [glib/gmem.h] is missing from the
    files; the spec has allocation failure fatal.  Whether
    [g_renew (struct_type, mem, n_structs)] returns: the bytes asked for are
    [n_structs * sizeof (struct_type)], a number that has to fit a [gsize],
    and the allocator has to give them, which it does when [granted];
    otherwise the process is ended. *)
Definition g_renew_returns (granted : bool) (n_structs struct_size : Z)
    : bool :=
  (n_structs * struct_size <=? G_MAXSIZE) && granted.

(** The contents of a slot that [g_renew] added and nothing has written yet.
    The code stores into such a slot before it reads it. *)
Definition unwritten : GPollFD := mkPollFD 0 0 0.

(** [g_renew (GPollFD, fds_ready, needed)] when [needed] is more than the
    array has. *)
Definition grow (fds_ready : list GPollFD) (needed : Z) : list GPollFD :=
  fds_ready ++ repeat unwritten (Z.to_nat needed - length fds_ready).

(** The compatibility descriptors lie inside the array, and their number can
    grow by one. *)
Definition compat_in_range (n_compat_fds : Z) (fds_ready : list GPollFD)
    : Prop :=
  0 <= n_compat_fds <= Z.of_nat (length fds_ready) /\
  n_compat_fds < G_MAXUINT.

(** The first [i] below [n_compat_fds] with [fds_ready[i].fd == fd]. *)
Fixpoint compat_index (compat : list GPollFD) (the_fd : Z) : option nat :=
  match compat with
  | [] => None
  | p :: rest =>
      if fd p =? the_fd then Some O
      else match compat_index rest the_fd with
           | Some i => Some (S i)
           | None => None
           end
  end.

(** *** Arrays of [GPollFD] as bytes

    A [GPollFD] is 8 bytes: the [gint] [fd], the [gushort] [events], the
    [gushort] [revents]; little-endian, as on the x86 and ARM Linux ports. *)
Definition sizeof_GPollFD : nat := 8.

Fixpoint le_bytes (n : nat) (z : Z) : list Z :=
  match n with
  | O => []
  | S n' => z mod 256 :: le_bytes n' (z / 256)
  end.

Fixpoint le_value (bytes : list Z) : Z :=
  match bytes with
  | [] => 0
  | b :: rest => b + 256 * le_value rest
  end.

Definition bytes_of_GPollFD (p : GPollFD) : list Z :=
  le_bytes 4 (fd p) ++ le_bytes 2 (events p) ++ le_bytes 2 (revents p).

Definition GPollFD_of_bytes (bytes : list Z) : GPollFD :=
  mkPollFD (wrap_gint (le_value (take 4 bytes)))
           (le_value (take 2 (drop 4 bytes)))
           (le_value (take 2 (drop 6 bytes))).

Definition array_bytes (a : list GPollFD) : list Z :=
  flat_map bytes_of_GPollFD a.

Fixpoint array_of_bytes (n : nat) (bytes : list Z) : list GPollFD :=
  match n with
  | O => []
  | S n' =>
      GPollFD_of_bytes (take sizeof_GPollFD bytes)
      :: array_of_bytes n' (drop sizeof_GPollFD bytes)
  end.

(** [memmove (mem + dest, mem + src, n)] inside one block. *)
Definition memmove (mem : list Z) (dest src n : nat) : list Z :=
  take dest mem ++ take n (drop src mem) ++ drop (dest + n) mem.

(** [memmove (a + dest, a + src, n)] on an array of [GPollFD]; [n] counts
    bytes. *)
Definition memmove_GPollFD (a : list GPollFD) (dest src : nat) (n : nat)
    : list GPollFD :=
  array_of_bytes (length a)
    (memmove (array_bytes a) (sizeof_GPollFD * dest) (sizeof_GPollFD * src) n).

(** The descriptors and interest masks of a set of [GPollFD]s. *)
Definition interests (compat : list GPollFD) : list (Z * Z) :=
  map (fun p => (fd p, events p)) compat.

End GEpoll.

(** ** [gmain-epoll.c], the revision behind [GMainContextFuncs] with the
       compatibility descriptors in [fds_ready]

    [fds_ready] and its [fds_ready_size] are one list.  The first
    [n_compat_fds] slots are the compatibility set. *)

Module GEpollContext.
Import GTypes GMain GEpoll.

Record GEpollLoopBackend := mkBackend {
  epoll_fd : Z;
  n_poll_records : Z;
  epoll_output_size : Z;
  fds_ready : list GPollFD;
  n_compat_fds : Z
}.

Definition fds_ready_size (backend : GEpollLoopBackend) : Z :=
  Z.of_nat (length (fds_ready backend)).

Definition compat_set (backend : GEpollLoopBackend) : list GPollFD :=
  take (Z.to_nat (n_compat_fds backend)) (fds_ready backend).

Definition g_epoll_context_ensure_ready_size (backend : GEpollLoopBackend)
    (needed : Z) : GEpollLoopBackend :=
  if needed >? fds_ready_size backend
  then mkBackend (epoll_fd backend) (n_poll_records backend)
                 (epoll_output_size backend)
                 (grow (fds_ready backend) needed)
                 (n_compat_fds backend)
  else backend.

Definition g_epoll_context_add_fd `{Platform} (backend : GEpollLoopBackend)
    (fd events priority : Z) (answer : ctl_answer)
    : bool * GEpollLoopBackend * list event :=
  let ev_events := g_io_condition_to_epoll_events events in
  let ctl := EvEpollCtl EPOLL_CTL_ADD fd ev_events in
  if negb (ctl_retval answer =? 0)
  then
    if ctl_errno answer =? EPERM
    then
      let i_next := n_compat_fds backend in
      let backend :=
        g_epoll_context_ensure_ready_size backend (wrap_guint (i_next + 1)) in
      (true,
       mkBackend (epoll_fd backend) (n_poll_records backend)
                 (epoll_output_size backend)
                 (<[Z.to_nat i_next := mkPollFD fd events 0]>
                    (fds_ready backend))
                 (wrap_guint (i_next + 1)),
       [ctl])
    else (false, backend, [ctl; EvWarning "EPOLL_CTL_ADD failed"])
  else
    (true,
     mkBackend (epoll_fd backend) (wrap_guint (n_poll_records backend + 1))
               (epoll_output_size backend) (fds_ready backend)
               (n_compat_fds backend),
     [ctl]).

Definition g_epoll_context_modify_fd `{Platform}
    (backend : GEpollLoopBackend) (the_fd new_events priority : Z)
    (answer : ctl_answer) : bool * GEpollLoopBackend * list event :=
  match compat_index (compat_set backend) the_fd with
  | Some i =>
      (true,
       mkBackend (epoll_fd backend) (n_poll_records backend)
                 (epoll_output_size backend)
                 (alter (fun p => mkPollFD (fd p) new_events (revents p)) i
                        (fds_ready backend))
                 (n_compat_fds backend),
       [])
  | None =>
      let ev_events := g_io_condition_to_epoll_events new_events in
      let ctl := EvEpollCtl EPOLL_CTL_MOD the_fd ev_events in
      if negb (ctl_retval answer =? 0)
      then (false, backend, [ctl; EvWarning "EPOLL_CTL_MOD failed"])
      else (true, backend, [ctl])
  end.

Definition g_epoll_context_remove_fd `{Platform}
    (backend : GEpollLoopBackend) (the_fd : Z) (answer : ctl_answer)
    : bool * GEpollLoopBackend * list event :=
  match compat_index (compat_set backend) the_fd with
  | Some i =>
      (true,
       mkBackend (epoll_fd backend) (n_poll_records backend)
                 (epoll_output_size backend)
                 (memmove_GPollFD (fds_ready backend) i (i + 1)
                    (Z.to_nat
                       (wrap_guint (n_compat_fds backend - 1 - Z.of_nat i))))
                 (wrap_guint (n_compat_fds backend - 1)),
       [])
  | None =>
      let backend :=
        mkBackend (epoll_fd backend)
                  (wrap_guint (n_poll_records backend - 1))
                  (epoll_output_size backend) (fds_ready backend)
                  (n_compat_fds backend) in
      let ctl := EvEpollCtl EPOLL_CTL_DEL the_fd 0 in
      if negb (ctl_retval answer =? 0)
      then
        (false, backend,
         ctl ::
         (if negb (ctl_errno answer =? EBADF)
             && negb (ctl_errno answer =? ENOENT)
             && negb (ctl_errno answer =? EPERM)
          then [EvWarning "EPOLL_CTL_DEL failed"]
          else []))
      else (true, backend, [ctl])
  end.

(** A backend whose compatibility set holds the descriptors 3, 4 and 5, with
    the interest masks [G_IO_IN], [G_IO_OUT] and [G_IO_IN] of Linux. *)
Definition three_compat_fds : GEpollLoopBackend :=
  mkBackend 7 0 0 [mkPollFD 3 1 0; mkPollFD 4 4 0; mkPollFD 5 1 0] 3.

End GEpollContext.

(** ** [gmain-epoll.c], the revision behind [GPollerFuncs]

    The same data as [GEpollContext]; the operations return nothing. *)

Module GEpoller.
Import GTypes GMain GEpoll.

Record GEpollerData := mkBackend {
  epoll_fd : Z;
  n_poll_records : Z;
  epoll_output_size : Z;
  fds_ready : list GPollFD;
  n_compat_fds : Z
}.

Definition fds_ready_size (backend : GEpollerData) : Z :=
  Z.of_nat (length (fds_ready backend)).

Definition compat_set (backend : GEpollerData) : list GPollFD :=
  take (Z.to_nat (n_compat_fds backend)) (fds_ready backend).

Definition g_epoller_ensure_ready_size (backend : GEpollerData)
    (needed : Z) : GEpollerData :=
  if needed >? fds_ready_size backend
  then mkBackend (epoll_fd backend) (n_poll_records backend)
                 (epoll_output_size backend)
                 (grow (fds_ready backend) needed)
                 (n_compat_fds backend)
  else backend.

Definition g_epoller_add_fd `{Platform} (backend : GEpollerData)
    (fd events priority : Z) (answer : ctl_answer)
    : GEpollerData * list event :=
  let ev_events := g_io_condition_to_epoll_events events in
  let ctl := EvEpollCtl EPOLL_CTL_ADD fd ev_events in
  if negb (ctl_retval answer =? 0)
  then
    if ctl_errno answer =? EPERM
    then
      let i_next := n_compat_fds backend in
      let backend :=
        mkBackend (epoll_fd backend) (n_poll_records backend)
                  (epoll_output_size backend) (fds_ready backend)
                  (wrap_guint (i_next + 1)) in
      let backend :=
        g_epoller_ensure_ready_size backend (wrap_guint (i_next + 1)) in
      (mkBackend (epoll_fd backend) (n_poll_records backend)
                 (epoll_output_size backend)
                 (<[Z.to_nat i_next := mkPollFD fd events 0]>
                    (fds_ready backend))
                 (n_compat_fds backend),
       [ctl])
    else (backend, [ctl; EvWarning "EPOLL_CTL_ADD failed"])
  else
    (mkBackend (epoll_fd backend) (wrap_guint (n_poll_records backend + 1))
               (epoll_output_size backend) (fds_ready backend)
               (n_compat_fds backend),
     [ctl]).

Definition g_epoller_modify_fd `{Platform} (backend : GEpollerData)
    (the_fd new_events priority : Z) (answer : ctl_answer)
    : GEpollerData * list event :=
  match compat_index (compat_set backend) the_fd with
  | Some i =>
      (mkBackend (epoll_fd backend) (n_poll_records backend)
                 (epoll_output_size backend)
                 (alter (fun p => mkPollFD (fd p) new_events (revents p)) i
                        (fds_ready backend))
                 (n_compat_fds backend),
       [])
  | None =>
      let ev_events := g_io_condition_to_epoll_events new_events in
      let ctl := EvEpollCtl EPOLL_CTL_MOD the_fd ev_events in
      if negb (ctl_retval answer =? 0)
      then (backend, [ctl; EvWarning "EPOLL_CTL_MOD failed"])
      else (backend, [ctl])
  end.

Definition g_epoller_remove_fd `{Platform} (backend : GEpollerData)
    (the_fd : Z) (answer : ctl_answer) : GEpollerData * list event :=
  match compat_index (compat_set backend) the_fd with
  | Some i =>
      (mkBackend (epoll_fd backend) (n_poll_records backend)
                 (epoll_output_size backend)
                 (memmove_GPollFD (fds_ready backend) i (i + 1)
                    (Z.to_nat
                       (wrap_guint (n_compat_fds backend - 1 - Z.of_nat i))))
                 (wrap_guint (n_compat_fds backend - 1)),
       [])
  | None =>
      let backend :=
        mkBackend (epoll_fd backend)
                  (wrap_guint (n_poll_records backend - 1))
                  (epoll_output_size backend) (fds_ready backend)
                  (n_compat_fds backend) in
      let ctl := EvEpollCtl EPOLL_CTL_DEL the_fd 0 in
      if negb (ctl_retval answer =? 0)
      then
        (backend,
         ctl ::
         (if negb (ctl_errno answer =? EBADF)
             && negb (ctl_errno answer =? ENOENT)
             && negb (ctl_errno answer =? EPERM)
          then [EvWarning "EPOLL_CTL_DEL failed"]
          else []))
      else (backend, [ctl])
  end.

(** A backend whose compatibility set holds the descriptors 3, 4 and 5, with
    the interest masks [G_IO_IN], [G_IO_OUT] and [G_IO_IN] of Linux. *)
Definition three_compat_fds : GEpollerData :=
  mkBackend 7 0 0 [mkPollFD 3 1 0; mkPollFD 4 4 0; mkPollFD 5 1 0] 3.

End GEpoller.

(** ** [gmain-epoll.c], the revision with the mutex and the hash table

    [compat_fds] maps [GINT_TO_POINTER (fd)] to [GUINT_TO_POINTER (events)]
    under [g_direct_hash] and [g_direct_equal]: a finite map from descriptors
    to interest masks. *)

Module GEpollContextMT.
Import GTypes GMain GEpoll.

Record GEpollLoopBackend := mkBackend {
  epoll_fd : Z;
  n_poll_records : Z;
  epoll_output_size : Z;
  fds_ready : list GPollFD;
  compat_fds : gmap Z Z
}.

Definition fds_ready_size (backend : GEpollLoopBackend) : Z :=
  Z.of_nat (length (fds_ready backend)).

Definition g_epoll_context_ensure_ready_size (backend : GEpollLoopBackend)
    (needed : Z) : GEpollLoopBackend :=
  if needed >? fds_ready_size backend
  then mkBackend (epoll_fd backend) (n_poll_records backend)
                 (epoll_output_size backend)
                 (grow (fds_ready backend) needed)
                 (compat_fds backend)
  else backend.

(** The walk of [g_hash_table_iter_next] over the table, in the table's
    order, storing from the start of [fds_ready]. *)
Definition store_compat_fds (entries : list (Z * Z))
    (fds_ready : list GPollFD) : list GPollFD :=
  map (fun kv => mkPollFD (fst kv) (snd kv) 0) entries
  ++ drop (length entries) fds_ready.

Definition g_epoll_context_query_compat_fds (backend : GEpollLoopBackend)
    : Z * GEpollLoopBackend * list event :=
  let n_compat_fds := wrap_guint (Z.of_nat (size (compat_fds backend))) in
  let backend :=
    if negb (n_compat_fds =? 0)
    then
      let backend := g_epoll_context_ensure_ready_size backend n_compat_fds in
      mkBackend (epoll_fd backend) (n_poll_records backend)
                (epoll_output_size backend)
                (store_compat_fds (map_to_list (compat_fds backend))
                                  (fds_ready backend))
                (compat_fds backend)
    else backend in
  (n_compat_fds, backend, [EvLock; EvUnlock]).

(** [nfds] of [g_epoll_context_poll]:
    [gsize nfds = g_atomic_int_get (&backend->n_poll_records)], and one in
    the place of zero. *)
Definition poll_nfds (backend : GEpollLoopBackend) : Z :=
  let nfds := wrap_gsize (wrap_gint (n_poll_records backend)) in
  if nfds =? 0 then nfds + 1 else nfds.


(** [g_epoll_context_poll]: the [g_renew] of [epoll_output], which the
    allocator answers with [granted], the size passed to [epoll_wait] and
    what is left of the backend; the answer of [epoll_wait] is [answer]. *)
Definition g_epoll_context_poll (backend : GEpollLoopBackend) (timeout : Z)
    (granted : bool) (answer : wait_answer)
    : outcome (Z * GEpollLoopBackend * list event) :=
  let nfds := poll_nfds backend in
  if epoll_output_size backend <? nfds
  then
    if g_renew_returns granted nfds sizeof_epoll_event
    then
      Returns (wait_retval answer,
               mkBackend (epoll_fd backend) (n_poll_records backend) nfds
                         (fds_ready backend) (compat_fds backend),
               [EvEpollWait (wrap_gint nfds) timeout])
    else Aborts []
  else
    Returns (wait_retval answer, backend,
             [EvEpollWait (wrap_gint nfds) timeout]).



Definition g_epoll_context_add_fd `{Platform} (backend : GEpollLoopBackend)
    (fd events priority : Z) (answer : ctl_answer)
    : bool * GEpollLoopBackend * list event :=
  let ev_events := g_io_condition_to_epoll_events events in
  let ctl := EvEpollCtl EPOLL_CTL_ADD fd ev_events in
  if negb (ctl_retval answer =? 0)
  then
    if ctl_errno answer =? EPERM
    then
      (true,
       mkBackend (epoll_fd backend) (n_poll_records backend)
                 (epoll_output_size backend) (fds_ready backend)
                 (<[fd := events]> (compat_fds backend)),
       [ctl; EvLock; EvUnlock])
    else (false, backend, [ctl; EvWarning "EPOLL_CTL_ADD failed"])
  else
    (true,
     mkBackend (epoll_fd backend) (wrap_guint (n_poll_records backend + 1))
               (epoll_output_size backend) (fds_ready backend)
               (compat_fds backend),
     [ctl]).

Definition g_epoll_context_modify_fd `{Platform}
    (backend : GEpollLoopBackend) (fd events priority : Z)
    (answer : ctl_answer) : bool * GEpollLoopBackend * list event :=
  let is_compat := bool_decide (is_Some (compat_fds backend !! fd)) in
  if is_compat
  then
    (true,
     mkBackend (epoll_fd backend) (n_poll_records backend)
               (epoll_output_size backend) (fds_ready backend)
               (<[fd := events]> (compat_fds backend)),
     [EvLock; EvUnlock])
  else
    let ev_events := g_io_condition_to_epoll_events events in
    let ctl := EvEpollCtl EPOLL_CTL_MOD fd ev_events in
    if negb (ctl_retval answer =? 0)
    then (false, backend, [EvLock; EvUnlock; ctl;
                           EvWarning "EPOLL_CTL_MOD failed"])
    else (true, backend, [EvLock; EvUnlock; ctl]).

Definition g_epoll_context_remove_fd `{Platform}
    (backend : GEpollLoopBackend) (fd : Z) (answer : ctl_answer)
    : bool * GEpollLoopBackend * list event :=
  let was_compat_fd := bool_decide (is_Some (compat_fds backend !! fd)) in
  let backend :=
    mkBackend (epoll_fd backend) (n_poll_records backend)
              (epoll_output_size backend) (fds_ready backend)
              (delete fd (compat_fds backend)) in
  if was_compat_fd
  then (true, backend, [EvLock; EvUnlock])
  else
    let backend :=
      mkBackend (epoll_fd backend)
                (wrap_guint (n_poll_records backend - 1))
                (epoll_output_size backend) (fds_ready backend)
                (compat_fds backend) in
    let ctl := EvEpollCtl EPOLL_CTL_DEL fd 0 in
    if negb (ctl_retval answer =? 0)
    then
      (false, backend,
       [EvLock; EvUnlock; ctl] ++
       (if negb (ctl_errno answer =? EBADF)
           && negb (ctl_errno answer =? ENOENT)
           && negb (ctl_errno answer =? EPERM)
        then [EvWarning "EPOLL_CTL_DEL failed"]
        else []))
    else (true, backend, [EvLock; EvUnlock; ctl]).

(** The kernel-facility calls in a trace. *)
Definition is_kernel_call (e : event) : bool :=
  match e with
  | EvEpollCtl _ _ _ => true
  | EvEpollWait _ _ => true
  | _ => false
  end.

End GEpollContextMT.

(** ** Worlds of [gevent.c] that differ in one place *)

Module GEventWorlds.
Import GTypes GEvent.

(** The world [w] with the count of the context [c] at [h] set to [n]. *)
Definition with_count (w : world) (h : addr) (c : GEventContext) (n : Z)
    : world :=
  mkWorld (<[h := set_ref_count c n]> (heap w)) (next_addr w)
          (default_event_context w) (initialised w) (sys_epoll_create w)
          (trace w) (leaked w).

(** The world [w] in which the kernel answers [epoll_fd] to the next
    [epoll_create]. *)
Definition with_epoll_create (w : world) (epoll_fd : Z) : world :=
  mkWorld (heap w) (next_addr w) (default_event_context w) (initialised w)
          epoll_fd (trace w) (leaked w).

End GEventWorlds.

(** ** [gevent-epoll.c]: the epoll event context

    [poll_records] maps [GINT_TO_POINTER (fd->fd)] to the [GSList] of the
    [GPollFD *] registered for that descriptor, newest first.  A [GPollFD *]
    is an address in the callers' memory, which the functions read; reading
    through an address that holds no [GPollFD] has no defined outcome, which
    is [None]. *)

Module GEpollEvent.
Import GTypes GMain GEpoll.

Definition addr := nat.

Definition memory := gmap addr GPollFD.

Record GEpollContext := mkContext {
  epoll_fd : Z;
  poll_records : gmap Z (list addr)
}.

(** Calls that leave the context.  [ev] is what [epoll_ctl] is handed in
    [ev.events] and [ev.data.ptr]; it is [None] when the code has assigned
    neither. *)
Inductive call :=
| EpollCtl (op : epoll_op) (fd : Z) (ev : option (Z * list addr))
| Critical (check : string)
| Close (fd : Z).

(** [g_hash_table_lookup]: NULL for a key that is not in the table. *)
Definition g_hash_table_lookup (table : gmap Z (list addr)) (key : Z)
    : list addr :=
  default [] (table !! key).

(** [g_slist_remove]: without the first element that is [data]. *)
Fixpoint g_slist_remove (slist : list addr) (data : addr) : list addr :=
  match slist with
  | [] => []
  | p :: next =>
      if Nat.eqb p data then next else p :: g_slist_remove next data
  end.

(** The loop of [get_epoll_event_mask], from [elem] on with [events] so
    far. *)
Fixpoint get_epoll_event_mask_from `{Platform} (mem : memory)
    (elem : list addr) (events : Z) : option Z :=
  match elem with
  | [] => Some events
  | data :: next =>
      match mem !! data with
      | None => None
      | Some pollfd =>
          let g_events := wrap_gushort (GMain.events pollfd) in
          let events :=
            if (G_IO_IN =? EPOLLIN) && (G_IO_OUT =? EPOLLOUT)
               && (G_IO_PRI =? EPOLLPRI)
            then
              wrap_guint
                (Z.lor events
                   (Z.land g_events
                      (Z.lor (Z.lor G_IO_IN G_IO_OUT) G_IO_PRI)))
            else
              let events :=
                if negb (Z.land g_events G_IO_IN =? 0)
                then wrap_guint (Z.lor events EPOLLIN) else events in
              let events :=
                if negb (Z.land g_events G_IO_OUT =? 0)
                then wrap_guint (Z.lor events EPOLLOUT) else events in
              let events :=
                if negb (Z.land g_events G_IO_PRI =? 0)
                then wrap_guint (Z.lor events EPOLLPRI) else events in
              events in
          get_epoll_event_mask_from mem next events
      end
  end.

Definition get_epoll_event_mask `{Platform} (mem : memory)
    (fds : list addr) : option Z :=
  get_epoll_event_mask_from mem fds 0.

(** The [g_critical] under [G_ENABLE_DEBUG]. *)
Definition epoll_ctl_checked (debug : bool) (answer : ctl_answer)
    : list call :=
  if debug && negb (ctl_retval answer =? 0)
  then [Critical "epoll_ctl failed"]
  else [].

Definition g_epoll_context_add_poll `{Platform} (debug : bool)
    (mem : memory) (context : GEpollContext) (fd : addr)
    (answer : ctl_answer) : option (GEpollContext * list call) :=
  match mem !! fd with
  | None => None
  | Some pollfd =>
      if GMain.fd pollfd >=? 0
      then
        let poll_key := GMain.fd pollfd in
        let poll_list := g_hash_table_lookup (poll_records context) poll_key in
        let epoll_op :=
          match poll_list with
          | [] => EPOLL_CTL_ADD
          | _ :: _ => EPOLL_CTL_MOD
          end in
        let poll_list := fd :: poll_list in
        let context :=
          mkContext (epoll_fd context)
                    (<[poll_key := poll_list]> (poll_records context)) in
        match get_epoll_event_mask mem poll_list with
        | None => None
        | Some events =>
            Some (context,
                  EpollCtl epoll_op poll_key (Some (events, poll_list))
                  :: epoll_ctl_checked debug answer)
        end
      else Some (context, [Critical "fd->fd >= 0"])
  end.

Definition g_epoll_context_remove_poll `{Platform} (debug : bool)
    (mem : memory) (context : GEpollContext) (fd : addr)
    (answer : ctl_answer) : option (GEpollContext * list call) :=
  match mem !! fd with
  | None => None
  | Some pollfd =>
      let poll_key := GMain.fd pollfd in
      let poll_list := g_hash_table_lookup (poll_records context) poll_key in
      let modified_poll_list := g_slist_remove poll_list fd in
      match modified_poll_list with
      | [] =>
          Some (mkContext (epoll_fd context)
                          (delete poll_key (poll_records context)),
                EpollCtl EPOLL_CTL_DEL poll_key None
                :: epoll_ctl_checked debug answer)
      | _ :: _ =>
          match get_epoll_event_mask mem modified_poll_list with
          | None => None
          | Some events =>
              Some (mkContext (epoll_fd context)
                              (<[poll_key := modified_poll_list]>
                                 (poll_records context)),
                    EpollCtl EPOLL_CTL_MOD poll_key
                             (Some (events, modified_poll_list))
                    :: epoll_ctl_checked debug answer)
          end
      end
  end.

(** The interest masks of the [GPollFD]s at [fds], each as the epoll mask
    that [g_io_condition_to_epoll_events] of [gmain-epoll.c] makes of it, all
    or-ed together. *)
Fixpoint union_of_interests `{Platform} (mem : memory) (fds : list addr)
    : Z :=
  match fds with
  | [] => 0
  | data :: next =>
      Z.lor (match mem !! data with
             | Some pollfd =>
                 g_io_condition_to_epoll_events
                   (wrap_gushort (GMain.events pollfd))
             | None => 0
             end)
            (union_of_interests mem next)
  end.

(** Every address in [fds] holds a [GPollFD]. *)
Definition readable (mem : memory) (fds : list addr) : Prop :=
  List.Forall (fun data => is_Some (mem !! data)) fds.

(** No descriptor of the table has an empty list of records. *)
Definition no_empty_list (context : GEpollContext) : Prop :=
  forall key, poll_records context !! key <> Some [].

End GEpollEvent.

(** ** Runs of changes to the descriptors of [gmain-poll.c] *)

Module GPollChanges.
Import GTypes GMain GPollRecords.

Inductive change :=
| AddFd (fd events priority : Z)
| ModifyFd (fd events priority : Z)
| RemoveFd (fd : Z).

Definition is_modify (c : change) : bool :=
  match c with
  | ModifyFd _ _ _ => true
  | _ => false
  end.

Definition baseline_change (backend : GBaselinePoller.GBaselinePollerData)
    (c : change) : GBaselinePoller.GBaselinePollerData * list event :=
  match c with
  | AddFd fd events priority =>
      GBaselinePoller.g_baseline_poller_add_fd backend fd events priority
  | ModifyFd fd events priority =>
      GBaselinePoller.g_baseline_poller_modify_fd backend fd events priority
  | RemoveFd fd => GBaselinePoller.g_baseline_poller_remove_fd backend fd
  end.

Definition baseline_changes (backend : GBaselinePoller.GBaselinePollerData)
    (changes : list change) : GBaselinePoller.GBaselinePollerData :=
  fold_left (fun b c => fst (baseline_change b c)) changes backend.

Definition context_change (c : change) : GPollContext.P bool :=
  match c with
  | AddFd fd events priority =>
      GPollContext.g_poll_context_add_fd fd events priority
  | ModifyFd fd events priority =>
      GPollContext.g_poll_context_modify_fd fd events priority
  | RemoveFd fd => GPollContext.g_poll_context_remove_fd fd
  end.

Fixpoint context_changes (changes : list change) : GPollContext.P unit :=
  match changes with
  | [] => GPollContext.ret tt
  | c :: rest =>
      GPollContext.bind (context_change c) (fun _ => context_changes rest)
  end.

(** The two revisions agree on the records and on their count, and the
    count is the number of the records. *)
Definition in_step (baseline : GBaselinePoller.GBaselinePollerData)
    (context : GPollContext.GPollLoopBackend) : Prop :=
  GPollContext.poll_records context = GBaselinePoller.poll_records baseline /\
  GBaselinePoller.n_poll_records baseline
  = wrap_guint (Z.of_nat (length (GBaselinePoller.poll_records baseline))) /\
  GPollContext.n_poll_records context
  = wrap_guint (Z.of_nat (length (GBaselinePoller.poll_records baseline))).

End GPollChanges.

(** ** The iterations of [gmain-poll.c] *)

Module GPollIterate.
Import GTypes GMain GPollRecords.

(** What is in the slots that [g_new] and [g_renew] add is not determined
    by the program: [junk k i] is what slot [i] of the [k]-th block holds
    when it is handed out. *)
Definition allocator := nat -> nat -> GPollFD.

Definition g_new (junk : allocator) (k : nat) (n_structs : Z)
    : list GPollFD :=
  map (junk k) (seq 0 (Z.to_nat n_structs)).

Definition g_renew (junk : allocator) (k : nat) (mem : list GPollFD)
    (n_structs : Z) : list GPollFD :=
  take (Z.to_nat n_structs) mem
  ++ map (junk k) (seq (length mem) (Z.to_nat n_structs - length mem)).

(** The calls of [g_baseline_poller_iterate] that leave the backend. *)
Inductive loop_call :=
| PreparePoll
| Backend (e : event)
| ProcessPoll (max_priority : Z) (fds : list GPollFD) (n_fds : Z).

(** The [while] loop of [g_baseline_poller_iterate]; [fds] is
    [cached_poll_array] throughout.  [k] numbers the blocks. *)
Fixpoint g_baseline_poller_iterate_query (fuel : nat) (junk : allocator)
    (k : nat) (backend : GBaselinePoller.GBaselinePollerData)
    (max_priority allocated_nfds : Z)
    : option (GBaselinePoller.GBaselinePollerData * Z) :=
  match fuel with
  | O => None
  | S fuel' =>
      match GBaselinePoller.g_baseline_poller_query backend max_priority
              (GBaselinePoller.cached_poll_array backend) allocated_nfds with
      | None => None
      | Some (fds, nfds) =>
          if nfds >? allocated_nfds
          then
            g_baseline_poller_iterate_query fuel' junk (S k)
              (GBaselinePoller.mkBackend
                 (GBaselinePoller.poll_records backend)
                 (GBaselinePoller.n_poll_records backend)
                 (g_renew junk k fds nfds) (wrap_guint nfds)
                 (GBaselinePoller.poll_func backend))
              max_priority nfds
          else
            Some (GBaselinePoller.mkBackend
                    (GBaselinePoller.poll_records backend)
                    (GBaselinePoller.n_poll_records backend)
                    fds (GBaselinePoller.cached_poll_array_size backend)
                    (GBaselinePoller.poll_func backend),
                  nfds)
      end
  end.

(** [g_baseline_poller_iterate]; [g_main_loop_prepare_poll] answers the
    scheduler's timeout and maximum priority.  [None] when the loop has not
    come to its end within [fuel] turns, or has stored outside the
    array. *)
Definition g_baseline_poller_iterate `{Platform} (fuel : nat)
    (sched : scheduler) (junk : allocator)
    (backend : GBaselinePoller.GBaselinePollerData)
    : option (GBaselinePoller.GBaselinePollerData * list loop_call) :=
  let timeout := sched_poll_timeout sched in
  let max_priority := sched_max_priority sched in
  let backend :=
    match GBaselinePoller.cached_poll_array backend with
    | [] =>
        GBaselinePoller.mkBackend
          (GBaselinePoller.poll_records backend)
          (GBaselinePoller.n_poll_records backend)
          (g_new junk 0 (GBaselinePoller.n_poll_records backend))
          (GBaselinePoller.n_poll_records backend)
          (GBaselinePoller.poll_func backend)
    | _ :: _ => backend
    end in
  let allocated_nfds :=
    wrap_gint (GBaselinePoller.cached_poll_array_size backend) in
  match g_baseline_poller_iterate_query fuel junk 1 backend max_priority
          allocated_nfds with
  | None => None
  | Some (backend, nfds) =>
      let polled :=
        GBaselinePoller.g_baseline_poller_poll backend timeout max_priority
          (GBaselinePoller.cached_poll_array backend) nfds in
      Some (GBaselinePoller.mkBackend
              (GBaselinePoller.poll_records backend)
              (GBaselinePoller.n_poll_records backend)
              (fst polled)
              (GBaselinePoller.cached_poll_array_size backend)
              (GBaselinePoller.poll_func backend),
            [PreparePoll] ++ map Backend (snd polled)
            ++ [ProcessPoll max_priority (fst polled) nfds])
  end.

(** The records that a query up to [max_priority] is about. *)
Definition asked (max_priority : Z) (records : list GPollRec)
    : list GPollRec :=
  List.filter (within max_priority) records.

(** The array [fds] has a slot for each of the records [asked] for, and
    the slot of each that has an interest holds its descriptor and interest
    and no event. *)
Definition holds_asked (max_priority : Z) (records : list GPollRec)
    (fds : list GPollFD) : Prop :=
  (length (asked max_priority records) <= length fds)%nat /\
  forall (i : nat) (r : GPollRec),
    asked max_priority records !! i = Some r -> events r <> 0 ->
    fds !! i = Some (slot_of r).

(** What a backend is between two iterations: the records are sorted and
    counted, their number fits a [gint], and so does the size of the cached
    array. *)
Definition baseline_at_rest (backend : GBaselinePoller.GBaselinePollerData)
    : Prop :=
  ascending (GBaselinePoller.poll_records backend) /\
  Z.of_nat (length (GBaselinePoller.poll_records backend)) <= G_MAXINT /\
  GBaselinePoller.n_poll_records backend
  = Z.of_nat (length (GBaselinePoller.poll_records backend)) /\
  GBaselinePoller.cached_poll_array_size backend
  = Z.of_nat (length (GBaselinePoller.cached_poll_array backend)) /\
  Z.of_nat (length (GBaselinePoller.cached_poll_array backend)) <= G_MAXINT.

End GPollIterate.

Module GPollContextIterate.
Import GTypes GMain GPollRecords GPollChanges GPollIterate GPollContext.

Definition set_cached_poll_array (fds : list GPollFD) (size : Z) : P unit :=
  fun b => (tt, mkBackend (poll_records b) (n_poll_records b) fds size
                          (poll_changed b) (poll_func b), []).

(** The [while] loop of [g_poll_context_iterate]; [fds] is
    [cached_poll_array] throughout.  [k] numbers the blocks. *)
Fixpoint g_poll_context_iterate_query (fuel : nat) (junk : allocator)
    (k : nat) (max_priority allocated_nfds : Z) : P (option Z) :=
  match fuel with
  | O => ret None
  | S fuel' =>
      backend <- get ;;
      answer <- g_poll_context_query max_priority
                  (cached_poll_array backend) allocated_nfds ;;
      match answer with
      | None => ret None
      | Some (fds, nfds) =>
          if nfds >? allocated_nfds
          then
            (* g_free (fds) *)
            set_cached_poll_array (g_new junk k nfds) (wrap_guint nfds) ;;;
            g_poll_context_iterate_query fuel' junk (S k) max_priority nfds
          else
            set_cached_poll_array fds (cached_poll_array_size backend) ;;;
            ret (Some nfds)
      end
  end.

(** [g_poll_context_iterate].  [meanwhile] is what other threads change
    while this one waits in the poll function.  [None] when the loop has
    not come to its end within [fuel] turns, or has stored outside the
    array. *)
Definition g_poll_context_iterate `{Platform} (fuel : nat)
    (sched : scheduler) (junk : allocator) (meanwhile : list change)
    (block : bool) : P (option bool) :=
  call EvLock ;;;
  backend <- get ;;
  match cached_poll_array backend with
  | [] =>
      set_cached_poll_array (g_new junk 0 (n_poll_records backend))
                            (n_poll_records backend)
  | _ :: _ => ret tt
  end ;;;
  call EvUnlock ;;;
  backend <- get ;;
  let allocated_nfds := wrap_gint (cached_poll_array_size backend) in
  call EvPrepare ;;;
  let max_priority := sched_max_priority sched in
  nfds <- g_poll_context_iterate_query fuel junk 1 max_priority
            allocated_nfds ;;
  match nfds with
  | None => ret None
  | Some nfds =>
      let timeout := if block then sched_poll_timeout sched else 0 in
      backend <- get ;;
      fds <- g_poll_context_poll timeout max_priority
               (cached_poll_array backend) nfds ;;
      set_cached_poll_array fds (cached_poll_array_size backend) ;;;
      context_changes meanwhile ;;;
      call EvLock ;;;
      backend <- get ;;
      call EvUnlock ;;;
      if poll_changed backend
      then ret (Some false)
      else
        call (EvCheck max_priority fds nfds) ;;;
        ret (Some (sched_check sched max_priority fds nfds))
  end.

Definition is_check (e : event) : bool :=
  match e with
  | EvCheck _ _ _ => true
  | _ => false
  end.

(** What a backend is between two iterations: the records are sorted and
    counted, their number fits a [gint], and so does the size of the cached
    array. *)
Definition context_at_rest (backend : GPollLoopBackend) : Prop :=
  ascending (poll_records backend) /\
  Z.of_nat (length (poll_records backend)) <= G_MAXINT /\
  n_poll_records backend = Z.of_nat (length (poll_records backend)) /\
  cached_poll_array_size backend
  = Z.of_nat (length (cached_poll_array backend)) /\
  Z.of_nat (length (cached_poll_array backend)) <= G_MAXINT.

End GPollContextIterate.

(** ** More of the revisions of [gmain-epoll.c] with the array *)

Module GEpollArrays.
Import GTypes GMain GEpoll.

(** The data of [GEpollerData] are the data of the [GEpollLoopBackend] with
    the array. *)
Definition as_poller (backend : GEpollContext.GEpollLoopBackend)
    : GEpoller.GEpollerData :=
  GEpoller.mkBackend (GEpollContext.epoll_fd backend)
                     (GEpollContext.n_poll_records backend)
                     (GEpollContext.epoll_output_size backend)
                     (GEpollContext.fds_ready backend)
                     (GEpollContext.n_compat_fds backend).

(** [g_epoll_context_poll]: the [g_renew] of [epoll_output], which the
    allocator answers with [granted], what is left of the backend, and the
    call of [epoll_wait], which answers [answer]. *)
Definition g_epoll_context_poll (backend : GEpollContext.GEpollLoopBackend)
    (timeout : Z) (granted : bool) (answer : wait_answer)
    : outcome (Z * GEpollContext.GEpollLoopBackend * list event) :=
  let nfds := GEpollContext.n_poll_records backend in
  let nfds := if nfds =? 0 then wrap_guint (nfds + 1) else nfds in
  if GEpollContext.epoll_output_size backend <? nfds
  then
    if g_renew_returns granted nfds sizeof_epoll_event
    then
      Returns (wait_retval answer,
               GEpollContext.mkBackend
                 (GEpollContext.epoll_fd backend)
                 (GEpollContext.n_poll_records backend) nfds
                 (GEpollContext.fds_ready backend)
                 (GEpollContext.n_compat_fds backend),
               [EvEpollWait (wrap_gint nfds) timeout])
    else Aborts []
  else
    Returns (wait_retval answer, backend,
             [EvEpollWait (wrap_gint nfds) timeout]).

Definition g_epoller_poll (backend : GEpoller.GEpollerData) (timeout : Z)
    (granted : bool) (answer : wait_answer)
    : outcome (Z * GEpoller.GEpollerData * list event) :=
  let nfds := GEpoller.n_poll_records backend in
  let nfds := if nfds =? 0 then wrap_guint (nfds + 1) else nfds in
  if GEpoller.epoll_output_size backend <? nfds
  then
    if g_renew_returns granted nfds sizeof_epoll_event
    then
      Returns (wait_retval answer,
               GEpoller.mkBackend
                 (GEpoller.epoll_fd backend) (GEpoller.n_poll_records backend)
                 nfds (GEpoller.fds_ready backend)
                 (GEpoller.n_compat_fds backend),
               [EvEpollWait (wrap_gint nfds) timeout])
    else Aborts []
  else
    Returns (wait_retval answer, backend,
             [EvEpollWait (wrap_gint nfds) timeout]).

(** A [GPollFD] whose fields are a [gint] and two [gushort]s. *)
Definition representable (p : GPollFD) : Prop :=
  G_MININT <= fd p <= G_MAXINT /\
  0 <= events p <= G_MAXUSHORT /\
  0 <= revents p <= G_MAXUSHORT.

(** The kernel lets the registration, or the removal, succeed. *)
Definition succeeded : ctl_answer := mkCtlAnswer 0 0.

(** The warning of [remove_fd] for an [errno] other than [EBADF], [ENOENT]
    and [EPERM]. *)
Definition del_warning `{Platform} (answer : ctl_answer) : list event :=
  if negb (ctl_errno answer =? EBADF) && negb (ctl_errno answer =? ENOENT)
     && negb (ctl_errno answer =? EPERM)
  then [EvWarning "EPOLL_CTL_DEL failed"]
  else [].

End GEpollArrays.

(** ** More of the revision of [gmain-epoll.c] with the hash table *)

Module GEpollReady.
Import GTypes GMain GEpoll.



End GEpollReady.

(** ** The poll function of [gmain-poll.c] *)

Module GPollFuncs.
Import GTypes GMain GPollRecords.

Definition _g_baseline_poller_set_poll_func
    (backend : GBaselinePoller.GBaselinePollerData) (func : GPollFunc)
    : GBaselinePoller.GBaselinePollerData :=
  GBaselinePoller.mkBackend
    (GBaselinePoller.poll_records backend)
    (GBaselinePoller.n_poll_records backend)
    (GBaselinePoller.cached_poll_array backend)
    (GBaselinePoller.cached_poll_array_size backend) func.

Definition _g_baseline_poller_get_poll_func
    (backend : GBaselinePoller.GBaselinePollerData) : GPollFunc :=
  GBaselinePoller.poll_func backend.

Definition set_poll_func (func : GPollFunc) : GPollContext.P unit :=
  fun b => (tt, GPollContext.mkBackend
                  (GPollContext.poll_records b)
                  (GPollContext.n_poll_records b)
                  (GPollContext.cached_poll_array b)
                  (GPollContext.cached_poll_array_size b)
                  (GPollContext.poll_changed b) func, []).

(** [_g_main_compat_set_poll_func]; [g_poll] is the poll function of
    [gpoll.c], and [None] is a NULL [func]. *)
Definition _g_main_compat_set_poll_func (g_poll : GPollFunc)
    (func : option GPollFunc) : GPollContext.P unit :=
  GPollContext.bind (GPollContext.call EvLock) (fun _ =>
  GPollContext.bind
    (set_poll_func (match func with
                    | Some f => f
                    | None => g_poll
                    end)) (fun _ =>
  GPollContext.call EvUnlock)).

End GPollFuncs.

(** ** The life of a [GEpollerData] *)

Module GEpollerLife.
Import GTypes GMain GEpoll.

Inductive call :=
| Close (fd : Z)
| Warning (message : string).

(** [g_epoll_create], with [HAVE_EPOLL_CREATE1]; the kernel answers
    [epoll_fd]. *)
Definition g_epoll_create (epoll_fd : Z) : Z * list call :=
  if epoll_fd <? 0
  then (-1, [Warning "epoll_create failed"])
  else (epoll_fd, []).

Definition _g_epoller_new (epoll_fd : Z)
    : option GEpoller.GEpollerData * list call :=
  let '(epoll_fd, t) := g_epoll_create epoll_fd in
  if epoll_fd <? 0
  then (None, t)
  else (Some (GEpoller.mkBackend epoll_fd 0 0 [] 0), t).

Definition g_epoller_reset (backend : GEpoller.GEpollerData) (epoll_fd : Z)
    : GEpoller.GEpollerData * list call :=
  let '(backend, t) :=
    if negb (GEpoller.n_poll_records backend =? 0)
    then
      let '(new_fd, t) := g_epoll_create epoll_fd in
      (GEpoller.mkBackend new_fd 0 (GEpoller.epoll_output_size backend)
                          (GEpoller.fds_ready backend)
                          (GEpoller.n_compat_fds backend),
       Close (GEpoller.epoll_fd backend) :: t)
    else (backend, []) in
  (GEpoller.mkBackend (GEpoller.epoll_fd backend)
                      (GEpoller.n_poll_records backend)
                      (GEpoller.epoll_output_size backend)
                      (GEpoller.fds_ready backend) 0,
   t).

(** A run of [g_epoller_add_fd] calls, each given as the descriptor, the
    interest, the priority and what the kernel answers. *)
Definition add_fds `{Platform} (backend : GEpoller.GEpollerData)
    (adds : list (Z * Z * Z * ctl_answer)) : GEpoller.GEpollerData :=
  fold_left (fun b a =>
               fst (GEpoller.g_epoller_add_fd b (fst (fst (fst a)))
                      (snd (fst (fst a))) (snd (fst a)) (snd a)))
            adds backend.

(** Two backends that hold the same compatibility descriptors and count
    the same registrations. *)
Definition alike (a b : GEpoller.GEpollerData) : Prop :=
  GEpoller.compat_set a = GEpoller.compat_set b /\
  GEpoller.n_compat_fds a = GEpoller.n_compat_fds b /\
  GEpoller.n_poll_records a = GEpoller.n_poll_records b.

End GEpollerLife.

(** ** A wait that fails *)

Module GFailedWait.
Import GTypes GMain.





End GFailedWait.

(** * Part II: the properties *)

(** ** Machine integers *)

Module GTypesFacts.
Import GTypes.

Lemma wrap_gint_small z : G_MININT <= z <= G_MAXINT -> wrap_gint z = z.
Proof.
  unfold wrap_gint, G_MININT, G_MAXINT. intros Hz.
  rewrite Z.mod_small by lia. lia.
Qed.

Lemma wrap_guint_small z : 0 <= z <= G_MAXUINT -> wrap_guint z = z.
Proof.
  unfold wrap_guint, G_MAXUINT. intros Hz. apply Z.mod_small. lia.
Qed.

Lemma wrap_gushort_small z : 0 <= z <= G_MAXUSHORT -> wrap_gushort z = z.
Proof.
  unfold wrap_gushort, G_MAXUSHORT. intros Hz. apply Z.mod_small. lia.
Qed.

End GTypesFacts.

(** ** Reference counting of event contexts *)

Module GEventFacts.
Import GTypes GTypesFacts GEvent.

Lemma set_ref_count_twice c a b :
  set_ref_count (set_ref_count c a) b = set_ref_count c b.
Proof. reflexivity. Qed.

Lemma set_ref_count_same c : set_ref_count c (ref_count (priv c)) = c.
Proof. now destruct c as [f [sz rc]]. Qed.

Lemma calls_succ {A} (n : N) (m : M A) (w : world) :
  calls (N.succ n) m w =
  match calls n m w with
  | Ret _ w' => match m w' with
                | Ret _ w'' => Ret tt w''
                | Fault => Fault
                end
  | Fault => Fault
  end.
Proof. unfold calls. now rewrite N.iter_succ. Qed.

Lemma ref_live h c w :
  heap w !! h = Some c -> 0 < ref_count (priv c) ->
  exists w', g_event_context_ref (Some h) w = Ret (Some h) w' /\
    heap w' !! h =
      Some (set_ref_count c (wrap_gint (ref_count (priv c) + 1))) /\
    trace w' = trace w.
Proof.
  intros Hh Hpos. unfold g_event_context_ref, bind, load. rewrite Hh.
  apply Z.ltb_lt in Hpos. rewrite Hpos. cbn.
  eexists. split; [reflexivity|]. cbn. split; [|reflexivity].
  apply lookup_insert_eq.
Qed.

Lemma unref_shared h c w :
  heap w !! h = Some c -> 1 < ref_count (priv c) <= G_MAXINT ->
  exists w', g_event_context_unref (Some h) w = Ret tt w' /\
    heap w' !! h = Some (set_ref_count c (ref_count (priv c) - 1)) /\
    trace w' = trace w.
Proof.
  intros Hh Hrc. unfold g_event_context_unref, bind, load. rewrite Hh.
  assert (H0 : (0 <? ref_count (priv c)) = true) by (apply Z.ltb_lt; lia).
  rewrite H0. cbn.
  rewrite wrap_gint_small by (unfold G_MININT, G_MAXINT in *; lia).
  assert (H1 : (ref_count (priv c) - 1 =? 0) = false)
    by (apply Z.eqb_neq; lia).
  rewrite H1. cbn.
  eexists. split; [reflexivity|]. cbn. split; [|reflexivity].
  apply lookup_insert_eq.
Qed.

Lemma unref_last h c w :
  heap w !! h = Some c -> ref_count (priv c) = 1 ->
  exists w', g_event_context_unref (Some h) w = Ret tt w' /\
    heap w' !! h = None /\
    trace w' = trace w ++ [EvFinalize (funcs c) h].
Proof.
  intros Hh Hrc. unfold g_event_context_unref, bind, load. rewrite Hh, Hrc.
  cbn. eexists. split; [reflexivity|]. cbn. split; [|reflexivity].
  apply lookup_delete_eq.
Qed.

Lemma unref_rejected h c w :
  heap w !! h = Some c -> ref_count (priv c) <= 0 ->
  exists w', g_event_context_unref (Some h) w = Ret tt w' /\
    heap w' = heap w /\
    trace w' = trace w ++ [EvCritical "ref_count > 0"].
Proof.
  intros Hh Hneg. unfold g_event_context_unref, bind, load. rewrite Hh.
  apply Z.ltb_ge in Hneg. rewrite Hneg. cbn.
  eexists. split; [reflexivity|]. now cbn.
Qed.

Lemma calls_ref h c : forall (n : N) (w : world),
  heap w !! h = Some c -> 0 < ref_count (priv c) ->
  ref_count (priv c) + Z.of_N n <= G_MAXINT ->
  exists w', calls n (g_event_context_ref (Some h)) w = Ret tt w' /\
    heap w' !! h = Some (set_ref_count c (ref_count (priv c) + Z.of_N n)) /\
    trace w' = trace w.
Proof.
  induction n as [|n IH] using N.peano_ind; intros w Hh Hpos Hmax.
  - exists w. split; [reflexivity|]. split; [|reflexivity].
    rewrite Hh, Z.add_0_r. now rewrite set_ref_count_same.
  - destruct (IH w Hh Hpos) as (w1 & Hrun & Hh1 & Ht1); [lia|].
    rewrite calls_succ, Hrun.
    destruct (ref_live h _ w1 Hh1) as (w2 & Hstep & Hh2 & Ht2);
      [cbn; lia|].
    rewrite Hstep. exists w2. split; [reflexivity|]. split; [|congruence].
    rewrite Hh2. cbn. rewrite set_ref_count_twice.
    rewrite wrap_gint_small by (unfold G_MININT; lia).
    do 2 f_equal. lia.
Qed.

Lemma calls_unref h c : forall (n : N) (w : world),
  heap w !! h = Some c -> Z.of_N n < ref_count (priv c) <= G_MAXINT ->
  exists w', calls n (g_event_context_unref (Some h)) w = Ret tt w' /\
    heap w' !! h = Some (set_ref_count c (ref_count (priv c) - Z.of_N n)) /\
    trace w' = trace w.
Proof.
  induction n as [|n IH] using N.peano_ind; intros w Hh Hrc.
  - exists w. split; [reflexivity|]. split; [|reflexivity].
    rewrite Hh, Z.sub_0_r. now rewrite set_ref_count_same.
  - destruct (IH w Hh) as (w1 & Hrun & Hh1 & Ht1); [lia|].
    rewrite calls_succ, Hrun.
    destruct (unref_shared h _ w1 Hh1) as (w2 & Hstep & Hh2 & Ht2);
      [cbn; lia|].
    rewrite Hstep. exists w2. split; [reflexivity|]. split; [|congruence].
    rewrite Hh2. cbn. rewrite set_ref_count_twice.
    do 2 f_equal. lia.
Qed.

Lemma finalize_calls_app h t1 t2 :
  finalize_calls h (t1 ++ t2)
  = (finalize_calls h t1 + finalize_calls h t2)%nat.
Proof.
  unfold finalize_calls. now rewrite List.filter_app, List.length_app.
Qed.

Lemma calls_unref_rejected h c : forall (n : N) (w : world),
  heap w !! h = Some c -> ref_count (priv c) <= 0 ->
  exists w', calls n (g_event_context_unref (Some h)) w = Ret tt w' /\
    heap w' !! h = Some c /\
    finalize_calls h (trace w') = finalize_calls h (trace w).
Proof.
  induction n as [|n IH] using N.peano_ind; intros w Hh Hneg.
  - exists w. now repeat split.
  - destruct (IH w Hh Hneg) as (w1 & Hrun & Hh1 & Ht1).
    rewrite calls_succ, Hrun.
    destruct (unref_rejected h c w1 Hh1 Hneg) as (w2 & Hstep & Hh2 & Ht2).
    rewrite Hstep. exists w2. split; [reflexivity|]. split; [congruence|].
    rewrite Ht2, finalize_calls_app, Ht1. cbn. lia.
Qed.

Lemma new_custom_fresh fs size w :
  exists w0,
    g_event_context_new_custom fs size w = Ret (Some (next_addr w)) w0 /\
    heap w0 !! next_addr w = Some (mkContext fs (mkPrivate size 1)) /\
    trace w0 = trace w.
Proof.
  eexists. split; [reflexivity|]. cbn. split; [|reflexivity].
  apply lookup_insert_eq.
Qed.

(** C1, as amended: for a new context and every [n] below [G_MAXINT], the
    count starts at 1, each of the [n] calls of [g_event_context_ref] adds one
    and each call of [g_event_context_unref] takes one off; the first [n]
    releases call no [finalize], and release [n + 1], the one that takes the
    count from 1 to 0, calls [finalize] once and frees the context. *)
Theorem refcount_law_in_range (n : N) (fs : GEventContextFuncs) (size : Z)
    (w : world) :
  Z.of_N n < G_MAXINT -> counts_and_finalizes_once n fs size w.
Proof.
  intros Hn.
  destruct (new_custom_fresh fs size w) as (w0 & Hnew & Hh0 & Ht0).
  set (h := next_addr w) in *.
  set (c0 := mkContext fs (mkPrivate size 1)) in *.
  assert (Hrefs : forall j, (j <= n)%N ->
            exists wj, calls j (g_event_context_ref (Some h)) w0 = Ret tt wj /\
              heap wj !! h = Some (set_ref_count c0 (1 + Z.of_N j)) /\
              trace wj = trace w).
  { intros j Hj.
    destruct (calls_ref h c0 j w0 Hh0) as (wj & Hrun & Hhj & Htj);
      [cbn; lia | cbn; lia |].
    exists wj. split; [exact Hrun|]. split; [exact Hhj | congruence]. }
  destruct (Hrefs n) as (w1 & Hrun1 & Hh1 & Ht1); [lia|].
  assert (Hunrefs : forall k, (k <= n)%N ->
            exists wk,
              calls k (g_event_context_unref (Some h)) w1 = Ret tt wk /\
              heap wk !! h
              = Some (set_ref_count c0 (1 + Z.of_N n - Z.of_N k)) /\
              trace wk = trace w).
  { intros k Hk.
    destruct (calls_unref h _ k w1 Hh1) as (wk & Hrun & Hhk & Htk);
      [cbn; lia|].
    exists wk. split; [exact Hrun|]. split; [exact Hhk | congruence]. }
  exists h, w0, w1. split; [exact Hnew|].
  split; [unfold ref_count_of; now rewrite Hh0|].
  split.
  { intros j Hj. destruct (Hrefs j Hj) as (wj & Hrun & Hhj & _).
    exists wj. split; [exact Hrun|]. unfold ref_count_of. now rewrite Hhj. }
  split; [exact Hrun1|].
  split.
  { intros k Hk. destruct (Hunrefs k Hk) as (wk & Hrun & Hhk & Htk).
    exists wk. split; [exact Hrun|]. split; [|exact Htk].
    unfold ref_count_of. now rewrite Hhk. }
  destruct (Hunrefs n) as (wn & Hrunn & Hhn & Htn); [lia|].
  destruct (unref_last h _ wn Hhn) as (w2 & Hlast & Hgone & Ht2);
    [cbn; lia|].
  exists w2. rewrite N.add_1_r, calls_succ, Hrunn, Hlast.
  split; [reflexivity|]. split; [|exact Hgone].
  rewrite Ht2, Htn. reflexivity.
Qed.

Lemma refcount_law_in_range_witness :
  Z.of_N 2 < G_MAXINT /\
  counts_and_finalizes_once 2 7%nat 32 (initial_world 3).
Proof.
  split; [reflexivity|].
  apply (refcount_law_in_range 2 7%nat 32 (initial_world 3)).
  reflexivity.
Defined.

(** At [n = G_MAXINT] the last reference wraps the count to [G_MININT];
    every later call is turned away by the check of [ref_count > 0]. *)
Lemma refcount_wraps_at_max (n : N) (fs : GEventContextFuncs) (size : Z)
    (w : world) :
  Z.of_N n = G_MAXINT -> ~ finalizes_once n fs size w.
Proof.
  intros Hn (h & w0 & w1 & w2 & Hnew & Href & Hunref & Hfin).
  destruct (new_custom_fresh fs size w) as (w0' & Hnew' & Hh0 & Ht0).
  rewrite Hnew' in Hnew. injection Hnew as <- <-.
  assert (Hs : n = N.succ (N.pred n)).
  { rewrite N.succ_pred; [reflexivity|]. unfold G_MAXINT in Hn. lia. }
  assert (Hp : Z.of_N (N.pred n) = G_MAXINT - 1).
  { rewrite N2Z.inj_pred; unfold G_MAXINT in *; lia. }
  rewrite Hs, calls_succ in Href.
  destruct (calls_ref (next_addr w) _ (N.pred n) w0' Hh0)
    as (wa & Hruna & Hha & Hta); [cbn; lia | cbn; lia |].
  rewrite Hruna in Href.
  destruct (ref_live (next_addr w) _ wa Hha) as (wb & Hstep & Hhb & Htb);
    [cbn; unfold G_MAXINT in *; lia|].
  rewrite Hstep in Href. injection Href as <-.
  destruct (calls_unref_rejected (next_addr w) _ (n + 1) wb Hhb)
    as (wc & Hrunc & _ & Hfc).
  { cbn. rewrite Hp. replace (1 + (G_MAXINT - 1) + 1) with (G_MAXINT + 1)
      by lia. now cbv. }
  rewrite Hrunc in Hunref. injection Hunref as <-.
  rewrite Hfc, Htb, Hta, Ht0 in Hfin. lia.
Qed.

(** C1 as it is stated fails for [n = G_MAXINT]: [finalize] is never
    called. *)
Lemma refcount_law_overflow :
  ~ finalizes_once 2147483647 7%nat 32 (initial_world 3).
Proof. apply refcount_wraps_at_max. reflexivity. Qed.

(** *** The default context, [add_poll] and [remove_poll] *)

Lemma default_first w :
  initialised w = false -> 0 <= sys_epoll_create w ->
  g_event_context_default w
  = Ret (Some (next_addr w))
        (mkWorld (<[next_addr w :=
                      mkContext g_epoll_context_funcs
                                (mkPrivate sizeof_GEpollContext 1)]> (heap w))
                 (S (next_addr w)) (Some (next_addr w)) true
                 (sys_epoll_create w) (trace w) (leaked w)).
Proof.
  intros Hi Hfd.
  unfold g_event_context_default, g_once_init_enter, bind. rewrite Hi. cbn.
  apply Z.ltb_ge in Hfd. now rewrite Hfd.
Qed.

Lemma default_again w :
  initialised w = true ->
  g_event_context_default w = Ret (default_event_context w) w.
Proof.
  intros Hi.
  unfold g_event_context_default, g_once_init_enter, bind. now rewrite Hi.
Qed.

Lemma add_poll_null fd w :
  _g_event_context_add_poll None fd w
  = match g_event_context_default w with
    | Ret (Some h) w' => _g_event_context_add_poll (Some h) fd w'
    | Ret None _ => Fault
    | Fault => Fault
    end.
Proof.
  unfold _g_event_context_add_poll at 1. unfold bind at 1.
  destruct (g_event_context_default w) as [[h|] w'|]; reflexivity.
Qed.

Lemma remove_poll_null fd w :
  _g_event_context_remove_poll None fd w
  = match g_event_context_default w with
    | Ret (Some h) w' => _g_event_context_remove_poll (Some h) fd w'
    | Ret None _ => Fault
    | Fault => Fault
    end.
Proof.
  unfold _g_event_context_remove_poll at 1. unfold bind at 1.
  destruct (g_event_context_default w) as [[h|] w'|]; reflexivity.
Qed.

Lemma add_poll_live h c p w :
  heap w !! h = Some c -> 0 < ref_count (priv c) ->
  _g_event_context_add_poll (Some h) (Some p) w
  = Ret tt (mkWorld (heap w) (next_addr w) (default_event_context w)
                    (initialised w) (sys_epoll_create w)
                    (trace w ++ [EvLock h; EvAddPoll (funcs c) h p;
                                 EvUnlock h])
                    (leaked w)).
Proof.
  intros Hh Hpos. apply Z.ltb_lt in Hpos.
  unfold _g_event_context_add_poll, g_event_context_add_poll_unlocked,
    bind, ret, load, log.
  rewrite Hh, Hpos. cbn. rewrite Hh. cbn.
  now rewrite <- !app_assoc.
Qed.












(** The basic revision has no default context: with no handle it goes
    through NULL. *)
Lemma basic_add_poll_null_faults fd w :
  GEventBasic._g_event_context_add_poll None fd w = Fault /\
  GEventBasic._g_event_context_remove_poll None fd w = Fault.
Proof. split; reflexivity. Qed.

(** With a live handle and a descriptor it locks, calls the hook and
    unlocks, as the other revision does. *)
Lemma basic_add_poll_live h c p w :
  heap w !! h = Some c -> 0 < ref_count (priv c) ->
  exists w',
    GEventBasic._g_event_context_add_poll (Some h) (Some p) w = Ret tt w' /\
    trace w' = trace w ++ [EvLock h; EvAddPoll (funcs c) h p; EvUnlock h].
Proof.
  intros Hh Hpos. eexists. split.
  - change (GEventBasic._g_event_context_add_poll (Some h) (Some p) w)
      with (_g_event_context_add_poll (Some h) (Some p) w).
    apply (add_poll_live h c p w Hh Hpos).
  - reflexivity.
Qed.

End GEventFacts.

(** ** The poll records *)

Module GPollRecordsFacts.
Import GTypes GTypesFacts GMain GPollRecords.

Lemma ascending_app (l1 l2 : list GPollRec) :
  ascending (l1 ++ l2) <->
  ascending l1 /\ ascending l2 /\
  Forall (fun a => Forall (fun b => priority a <= priority b) l2) l1.
Proof.
  unfold ascending. induction l1 as [|a l1 IH]; cbn.
  - split; [intros H; repeat split; auto; constructor | tauto].
  - split.
    + intros H. inversion H as [|? ? Hs Hall]; subst.
      apply IH in Hs as (H1 & H2 & H12).
      apply Forall_app in Hall as [Ha1 Ha2].
      repeat split; auto; constructor; auto.
    + intros (H1 & H2 & H12).
      inversion H1 as [|? ? Hs Hall]; subst.
      inversion H12 as [|? ? Ha2 H12']; subst.
      constructor; [apply IH; auto|]. apply Forall_app; auto.
Qed.

(** What the backwards scan does: it moves the records above the new
    priority from [prevrec] to [nextrec], and stops at the first record that
    is not above it. *)
Lemma scan_back_spec (pr : Z) : forall prevrec nextrec,
  exists moved,
    snd (scan_back pr prevrec nextrec) = rev moved ++ nextrec /\
    prevrec = moved ++ fst (scan_back pr prevrec nextrec) /\
    Forall (fun r => pr < priority r) moved /\
    match fst (scan_back pr prevrec nextrec) with
    | [] => True
    | r :: _ => priority r <= pr
    end.
Proof.
  induction prevrec as [|p prev IH]; intros nextrec; cbn.
  - exists []. repeat split; auto.
  - destruct (pr <? priority p) eqn:Hlt.
    + destruct (IH (p :: nextrec)) as (moved & Hn & Hp & Hall & Hhd).
      exists (p :: moved). cbn. rewrite Hn, <- app_assoc. cbn.
      split; [reflexivity|]. split; [now f_equal|].
      split; [constructor; [lia | exact Hall] | exact Hhd].
    + exists []. cbn. repeat split; auto. lia.
Qed.

(** Where [link] puts the new record. *)
Lemma link_spec (records : list GPollRec) (newrec : GPollRec) :
  exists before after,
    records = before ++ after /\
    link records newrec = before ++ newrec :: after /\
    Forall (fun r => priority newrec < priority r) after /\
    match last before with
    | Some r => priority r <= priority newrec
    | None => True
    end.
Proof.
  unfold link.
  destruct (scan_back_spec (priority newrec) (rev records) [])
    as (moved & Hn & Hp & Hall & Hhd).
  destruct (scan_back (priority newrec) (rev records) [])
    as [prevrec nextrec] eqn:Hscan. cbn in *.
  rewrite app_nil_r in Hn. subst nextrec.
  exists (rev prevrec), (rev moved).
  split.
  { rewrite <- rev_app_distr, <- Hp. now rewrite rev_involutive. }
  split; [reflexivity|].
  split; [now apply Forall_rev|].
  destruct prevrec as [|r prevrec]; cbn; [exact I|].
  now rewrite last_snoc.
Qed.

Lemma ascending_last_bounds (l : list GPollRec) (r : GPollRec) :
  ascending l -> last l = Some r ->
  Forall (fun a => priority a <= priority r) l.
Proof.
  unfold ascending. induction l as [|a l IH]; intros Hs Hl; [constructor|].
  inversion Hs as [|? ? Hs' Hall]; subst.
  destruct l as [|b l].
  - cbn in Hl. injection Hl as ->. constructor; [lia | constructor].
  - change (last (a :: b :: l)) with (last (b :: l)) in Hl.
    constructor; [|now apply IH].
    assert (Hin : r ∈ b :: l) by now apply last_Some_elem_of.
    rewrite Forall_forall in Hall. now apply Hall.
Qed.

(** On ascending records the new record goes after every record that is not
    above it and before every record that is above it, and the records stay
    ascending. *)
Lemma link_ascending (records : list GPollRec) (newrec : GPollRec) :
  ascending records ->
  ascending (link records newrec) /\
  exists before after,
    records = before ++ after /\
    link records newrec = before ++ newrec :: after /\
    Forall (fun r => priority r <= priority newrec) before /\
    Forall (fun r => priority newrec < priority r) after.
Proof.
  intros Hasc.
  destruct (link_spec records newrec)
    as (before & after & Hrec & Hlink & Hafter & Hlast).
  assert (Hbefore : Forall (fun r => priority r <= priority newrec) before).
  { subst records. apply ascending_app in Hasc as (Hb & _ & _).
    destruct (last before) as [r|] eqn:Hl.
    - eapply Forall_impl; [apply (ascending_last_bounds _ r Hb Hl)|].
      cbn. intros a Ha. lia.
    - apply last_None in Hl. subst before. constructor. }
  split; [|exists before, after; auto].
  rewrite Hlink. subst records.
  apply ascending_app in Hasc as (Hb & Ha & Hba).
  apply ascending_app. split; [exact Hb|]. split.
  - constructor; [exact Ha|].
    eapply Forall_impl; [exact Hafter|]. cbn. intros a Hlt. lia.
  - rewrite Forall_forall in Hba, Hbefore |- *. intros a Hin.
    constructor; [now apply Hbefore | now apply Hba].
Qed.

Lemma filter_none {A} (f : A -> bool) (l : list A) :
  List.Forall (fun a => f a = false) l -> List.filter f l = [].
Proof.
  induction 1 as [|a l Ha _ IH]; cbn; [reflexivity|]. now rewrite Ha.
Qed.

Lemma leading_ascending (max_priority : Z) (records : list GPollRec) :
  ascending records ->
  leading max_priority records = List.filter (within max_priority) records.
Proof.
  unfold ascending, within. induction records as [|r rest IH]; intros Hs;
    [reflexivity|].
  inversion Hs as [|? ? Hs' Hall]; subst. cbn.
  destruct (max_priority >=? priority r) eqn:Hge.
  - assert (Hle : (priority r <=? max_priority) = true).
    { apply Z.leb_le. rewrite Z.geb_leb in Hge. now apply Z.leb_le in Hge. }
    rewrite Hle. f_equal. now apply IH.
  - assert (Hgt : max_priority < priority r).
    { rewrite Z.geb_leb in Hge. now apply Z.leb_gt in Hge. }
    assert (Hle : (priority r <=? max_priority) = false)
      by (apply Z.leb_gt; lia).
    rewrite Hle. symmetry. apply filter_none.
    eapply List.Forall_impl; [|exact Hall].
    cbn. intros b Hb. apply Z.leb_gt. lia.
Qed.

(** The loop of [query], from slot [k] on. *)
Lemma query_loop_spec (max_priority n_fds : Z) :
  forall (records : list GPollRec) (fds : list GPollFD) (k : nat),
  Z.of_nat (k + length (leading max_priority records)) <= G_MAXINT ->
  n_fds <= Z.of_nat (length fds) ->
  exists fds',
    query_loop records max_priority fds n_fds (Z.of_nat k)
    = Some (fds', Z.of_nat (k + length (leading max_priority records))) /\
    length fds' = length fds /\
    (forall (i : nat) r,
       leading max_priority records !! i = Some r ->
       Z.of_nat (k + i) < n_fds ->
       fds' !! (k + i)%nat
       = if events r =? 0 then fds !! (k + i)%nat else Some (slot_of r)) /\
    (forall j : nat,
       (j < k)%nat \/ n_fds <= Z.of_nat j \/
       (k + length (leading max_priority records) <= j)%nat ->
       fds' !! j = fds !! j).
Proof.
  induction records as [|r rest IH]; intros fds k Hmax Hfds; cbn in *.
  { exists fds. rewrite Nat.add_0_r. repeat split; auto.
    intros i r0 Hi. now rewrite lookup_nil in Hi. }
  destruct (max_priority >=? priority r) eqn:Hge; cbn in *.
  2:{ exists fds. rewrite Nat.add_0_r. repeat split; auto.
      intros i r0 Hi. now rewrite lookup_nil in Hi. }
  assert (Hwrap : wrap_gint (Z.of_nat k + 1) = Z.of_nat (S k)).
  { rewrite wrap_gint_small by (unfold G_MININT; lia). lia. }
  rewrite Hwrap.
  set (n := length (leading max_priority rest)) in *.
  destruct ((Z.of_nat k <? n_fds) && negb (events r =? 0)) eqn:Hstore.
  - apply andb_true_iff in Hstore as [Hk Hev].
    apply Z.ltb_lt in Hk. apply negb_true_iff in Hev.
    assert (Hin : (0 <=? Z.of_nat k) && (Z.of_nat k <? Z.of_nat (length fds))
                  = true).
    { apply andb_true_iff. split; [apply Z.leb_le | apply Z.ltb_lt]; lia. }
    rewrite Hin, Nat2Z.id.
    destruct (IH (<[k := mkPollFD (fd r) (events r) 0]> fds) (S k))
      as (fds' & Hrun & Hlen & Hslots & Hrest).
    { lia. } { rewrite length_insert. lia. }
    exists fds'. rewrite Hrun, Hlen, length_insert.
    split; [do 2 f_equal; lia|]. split; [reflexivity|]. split.
    + intros [|i] r0 Hi Hlt; cbn in Hi.
      * injection Hi as <-. rewrite Nat.add_0_r, Hev.
        rewrite Hrest by lia. apply list_lookup_insert_eq. lia.
      * specialize (Hslots i r0 Hi).
        replace (S k + i)%nat with (k + S i)%nat in Hslots by lia.
        rewrite Hslots by lia.
        destruct (events r0 =? 0); [|reflexivity].
        apply list_lookup_insert_ne. lia.
    + intros j Hj. rewrite Hrest by lia.
      apply list_lookup_insert_ne. lia.
  - destruct (IH fds (S k)) as (fds' & Hrun & Hlen & Hslots & Hrest);
      [lia | lia |].
    exists fds'. rewrite Hrun.
    split; [do 2 f_equal; lia|]. split; [exact Hlen|]. split.
    + intros [|i] r0 Hi Hlt; cbn in Hi.
      * injection Hi as <-. rewrite Nat.add_0_r in Hlt |- *.
        rewrite Hrest by lia.
        apply andb_false_iff in Hstore as [Hk | Hev].
        { apply Z.ltb_ge in Hk. lia. }
        apply negb_false_iff in Hev. now rewrite Hev.
      * specialize (Hslots i r0 Hi).
        replace (S k + i)%nat with (k + S i)%nat in Hslots by lia.
        apply Hslots. lia.
    + intros j Hj. apply Hrest. lia.
Qed.

Lemma query_loop_fills (records : list GPollRec) (max_priority : Z)
    (fds : list GPollFD) (n_fds : Z) :
  ascending records ->
  Z.of_nat (length records) <= G_MAXINT ->
  n_fds <= Z.of_nat (length fds) ->
  fills records max_priority fds n_fds
        (query_loop records max_priority fds n_fds 0).
Proof.
  intros Hasc Hlen Hfds. unfold fills.
  rewrite <- (leading_ascending max_priority records Hasc).
  assert (Hle : (length (leading max_priority records) <= length records)%nat).
  { rewrite (leading_ascending max_priority records Hasc).
    apply List.filter_length_le. }
  destruct (query_loop_spec max_priority n_fds records fds 0)
    as (fds' & Hrun & Hl & Hslots & Hrest); [cbn; lia | exact Hfds |].
  change (Z.of_nat 0) with 0 in Hrun.
  cbn [Nat.add] in Hrun, Hslots, Hrest.
  exists fds'. rewrite Hrun.
  split; [reflexivity|]. split; [exact Hl|]. split.
  - intros i r Hi Hlt. now apply (Hslots i r Hi).
  - intros i Hi. apply Hrest. lia.
Qed.

End GPollRecordsFacts.

(** ** The two revisions of the poll backend *)

Module GPollFacts.
Import GTypes GTypesFacts GMain GPollRecords GPollRecordsFacts.

Lemma baseline_add_fd_records backend fd events priority :
  GBaselinePoller.poll_records
    (fst (GBaselinePoller.g_baseline_poller_add_fd backend fd events priority))
  = link (GBaselinePoller.poll_records backend)
         (mkPollRec fd priority events).
Proof. reflexivity. Qed.

Lemma context_add_fd_records backend fd events priority :
  GPollContext.poll_records
    (snd (fst (GPollContext.g_poll_context_add_fd fd events priority backend)))
  = link (GPollContext.poll_records backend) (mkPollRec fd priority events).
Proof. reflexivity. Qed.

Lemma baseline_add_fds_ascending adds : forall backend,
  ascending (GBaselinePoller.poll_records backend) ->
  ascending (GBaselinePoller.poll_records
               (GBaselinePoller.add_fds backend adds)).
Proof.
  induction adds as [|[[fd events] priority] adds IH]; intros backend Hasc;
    [exact Hasc|].
  cbn [GBaselinePoller.add_fds fold_left].
  apply IH. rewrite baseline_add_fd_records.
  now apply link_ascending.
Qed.

Lemma context_add_fds_ascending adds : forall backend,
  ascending (GPollContext.poll_records backend) ->
  ascending (GPollContext.poll_records (GPollContext.add_fds backend adds)).
Proof.
  induction adds as [|[[fd events] priority] adds IH]; intros backend Hasc;
    [exact Hasc|].
  cbn [GPollContext.add_fds fold_left].
  apply IH. rewrite context_add_fd_records.
  now apply link_ascending.
Qed.

(** C2: after any run of [add_fd] calls on a new backend, of either revision,
    the poll records ascend in priority from the head; one more [add_fd] puts
    its record after all the records whose priority is at most its own, so
    after the earlier records of its own priority, and before all the records
    of greater priority. *)
Theorem add_fd_sorted_and_stable (func : GPollFunc) (adds : list (Z * Z * Z))
    (fd events priority : Z) :
  (let backend :=
     GBaselinePoller.add_fds (GBaselinePoller._g_baseline_poller_new func)
                             adds in
   ascending (GBaselinePoller.poll_records backend) /\
   ascending (GBaselinePoller.poll_records
                (fst (GBaselinePoller.g_baseline_poller_add_fd
                        backend fd events priority))) /\
   exists before after,
     GBaselinePoller.poll_records backend = before ++ after /\
     GBaselinePoller.poll_records
       (fst (GBaselinePoller.g_baseline_poller_add_fd
               backend fd events priority))
     = before ++ mkPollRec fd priority events :: after /\
     Forall (fun r => GPollRecords.priority r <= priority) before /\
     Forall (fun r => priority < GPollRecords.priority r) after) /\
  (let backend :=
     GPollContext.add_fds (GPollContext.g_poll_context_create func) adds in
   ascending (GPollContext.poll_records backend) /\
   ascending (GPollContext.poll_records
                (snd (fst (GPollContext.g_poll_context_add_fd
                             fd events priority backend)))) /\
   exists before after,
     GPollContext.poll_records backend = before ++ after /\
     GPollContext.poll_records
       (snd (fst (GPollContext.g_poll_context_add_fd
                    fd events priority backend)))
     = before ++ mkPollRec fd priority events :: after /\
     Forall (fun r => GPollRecords.priority r <= priority) before /\
     Forall (fun r => priority < GPollRecords.priority r) after).
Proof.
  split.
  - intros backend.
    assert (Hasc : ascending (GBaselinePoller.poll_records backend)).
    { apply baseline_add_fds_ascending. constructor. }
    split; [exact Hasc|]. rewrite baseline_add_fd_records.
    apply (link_ascending _ (mkPollRec fd priority events)) in Hasc
      as [Hasc' Hplace].
    split; [exact Hasc' | exact Hplace].
  - intros backend.
    assert (Hasc : ascending (GPollContext.poll_records backend)).
    { apply context_add_fds_ascending. constructor. }
    split; [exact Hasc|]. rewrite context_add_fd_records.
    apply (link_ascending _ (mkPollRec fd priority events)) in Hasc
      as [Hasc' Hplace].
    split; [exact Hasc' | exact Hplace].
Qed.

Lemma filter_ascending (f : GPollRec -> bool) (records : list GPollRec) :
  ascending records -> ascending (List.filter f records).
Proof.
  unfold ascending. induction records as [|r rest IH]; intros Hs;
    [constructor|].
  inversion Hs as [|? ? Hs' Hall]; subst. cbn.
  destruct (f r); [|now apply IH].
  constructor; [now apply IH|].
  rewrite List.Forall_forall in Hall |- *. intros b Hb.
  apply List.filter_In in Hb as [Hb _]. now apply Hall.
Qed.

(** C3, as amended: on ascending records, fewer than [2^31] of them, and an
    array that has the [n_fds] slots, [query] of either revision answers the
    number of records whose priority is at most [max_priority], whatever
    [n_fds] is; these records ascend in priority; each of them that has a
    slot below [n_fds] and a non-empty interest mask is stored in its slot,
    in the order of the records, while the slot of one with an empty mask
    keeps its old contents.  Records added with the priorities 5, 1, 3, 1 and
    queried up to 3 give the two records of priority 1 and then the one of
    priority 3. *)
Theorem query_counts_and_fills (records : list GPollRec)
    (max_priority : Z) (fds : list GPollFD) (n_fds : Z) :
  ascending records ->
  Z.of_nat (length records) <= G_MAXINT ->
  n_fds <= Z.of_nat (length fds) ->
  (ascending (List.filter (within max_priority) records) /\
   Forall (fun r => priority r <= max_priority)
          (List.filter (within max_priority) records)) /\
  (forall backend,
     GBaselinePoller.poll_records backend = records ->
     fills records max_priority fds n_fds
       (GBaselinePoller.g_baseline_poller_query backend max_priority
                                                fds n_fds)) /\
  (forall backend,
     GPollContext.poll_records backend = records ->
     fills records max_priority fds n_fds
       (fst (fst (GPollContext.g_poll_context_query max_priority fds n_fds
                                                    backend)))) /\
  GBaselinePoller.g_baseline_poller_query
    (GBaselinePoller.add_fds
       (GBaselinePoller._g_baseline_poller_new GBaselinePoller.nothing_ready)
       GBaselinePoller.four_adds)
    3 GBaselinePoller.four_slots 4
  = Some ([mkPollFD 11 1 0; mkPollFD 13 1 0; mkPollFD 12 1 0;
           mkPollFD 0 0 0], 3).
Proof.
  intros Hasc Hlen Hfds.
  pose proof (query_loop_fills records max_priority fds n_fds Hasc Hlen Hfds)
    as Hfills.
  split; [split|].
  - now apply filter_ascending.
  - apply List.Forall_forall. intros r Hr.
    apply List.filter_In in Hr as [_ Hr]. now apply Z.leb_le in Hr.
  - split; [|split].
    + intros backend <-. exact Hfills.
    + intros backend <-.
      unfold GPollContext.g_poll_context_query, GPollContext.bind,
        GPollContext.get.
      destruct Hfills as (fds' & Hrun & Hrest).
      rewrite Hrun. cbn. exists fds'. rewrite <- Hrun. tauto.
    + reflexivity.
Qed.

Lemma query_counts_and_fills_witness :
  fills [mkPollRec 11 1 1; mkPollRec 12 3 0; mkPollRec 10 5 1] 3
        [mkPollFD 7 4 4; mkPollFD 8 4 4] 2
        (GBaselinePoller.g_baseline_poller_query
           (GBaselinePoller.mkBackend
              [mkPollRec 11 1 1; mkPollRec 12 3 0; mkPollRec 10 5 1] 3 [] 0
              GBaselinePoller.nothing_ready)
           3 [mkPollFD 7 4 4; mkPollFD 8 4 4] 2).
Proof.
  apply (query_counts_and_fills
           [mkPollRec 11 1 1; mkPollRec 12 3 0; mkPollRec 10 5 1] 3
           [mkPollFD 7 4 4; mkPollFD 8 4 4] 2).
  - repeat constructor; cbn; lia.
  - cbn. unfold G_MAXINT. lia.
  - cbn. lia.
  - reflexivity.
Defined.

(** C3 as it is stated fails for a record with an empty interest mask: it is
    counted, and its slot keeps what was there. *)
Lemma query_skips_empty_interest :
  ~ emits_all [mkPollRec 4 1 0] 3 [mkPollFD 9 1 1] 1
      (GBaselinePoller.g_baseline_poller_query
         (GBaselinePoller.add_fds
            (GBaselinePoller._g_baseline_poller_new
               GBaselinePoller.nothing_ready)
            [(4, 0, 1)])
         3 [mkPollFD 9 1 1] 1).
Proof.
  intros (fds' & Hrun & Hslot).
  vm_compute in Hrun. injection Hrun as <-.
  specialize (Hslot 0%nat (mkPollRec 4 1 0) eq_refl).
  cbn in Hslot. specialize (Hslot ltac:(lia)). discriminate.
Qed.

(** *** Removal *)

(** What the loop of [remove_fd] does: it takes out the first record with the
    descriptor, or finds none. *)
Lemma unlink_spec (the_fd : Z) (records : list GPollRec) :
  match unlink records the_fd with
  | Some records' =>
      exists before r after,
        records = before ++ r :: after /\
        fd r = the_fd /\
        Forall (fun x => fd x <> the_fd) before /\
        records' = before ++ after
  | None => Forall (fun x => fd x <> the_fd) records
  end.
Proof.
  induction records as [|r rest IH]; cbn; [constructor|].
  destruct (fd r =? the_fd) eqn:Heq.
  - apply Z.eqb_eq in Heq. exists [], r, rest. repeat split; auto.
  - apply Z.eqb_neq in Heq. destruct (unlink rest the_fd) as [rest'|].
    + destruct IH as (before & x & after & -> & Hx & Hb & ->).
      exists (r :: before), x, after. repeat split; auto.
    + constructor; auto.
Qed.

(** The baseline poller removes the first record with the descriptor and
    nothing else, and flags a descriptor that has no record. *)
Lemma baseline_remove_fd_spec (backend : GBaselinePoller.GBaselinePollerData)
    (the_fd : Z) :
  (exists before r after,
     GBaselinePoller.poll_records backend = before ++ r :: after /\
     fd r = the_fd /\
     Forall (fun x => fd x <> the_fd) before /\
     GBaselinePoller.poll_records
       (fst (GBaselinePoller.g_baseline_poller_remove_fd backend the_fd))
     = before ++ after /\
     snd (GBaselinePoller.g_baseline_poller_remove_fd backend the_fd) = [])
  \/
  (Forall (fun x => fd x <> the_fd) (GBaselinePoller.poll_records backend) /\
   GBaselinePoller.g_baseline_poller_remove_fd backend the_fd
   = (backend, [EvCritical "pollrec != NULL"])).
Proof.
  unfold GBaselinePoller.g_baseline_poller_remove_fd.
  pose proof (unlink_spec the_fd (GBaselinePoller.poll_records backend)) as H.
  destruct (unlink (GBaselinePoller.poll_records backend) the_fd)
    as [records'|].
  - left. destruct H as (before & r & after & Hrec & Hr & Hb & ->).
    exists before, r, after. cbn. auto.
  - right. auto.
Qed.

(** The baseline poller flags the second removal of a descriptor that was
    added once. *)
Lemma baseline_second_removal_flagged
    (backend : GBaselinePoller.GBaselinePollerData) (the_fd : Z) :
  Forall (fun x => fd x <> the_fd) (GBaselinePoller.poll_records backend) ->
  forall events priority,
    let added := fst (GBaselinePoller.g_baseline_poller_add_fd
                        backend the_fd events priority) in
    let removed := fst (GBaselinePoller.g_baseline_poller_remove_fd
                          added the_fd) in
    snd (GBaselinePoller.g_baseline_poller_remove_fd added the_fd) = [] /\
    GBaselinePoller.poll_records removed
    = GBaselinePoller.poll_records backend /\
    snd (GBaselinePoller.g_baseline_poller_remove_fd removed the_fd)
    = [EvCritical "pollrec != NULL"].
Proof.
  intros Habs events priority added removed.
  assert (Hnone : forall l, Forall (fun x => fd x <> the_fd) l ->
                            unlink l the_fd = None).
  { induction l as [|r l IH]; intros Hl; [reflexivity|].
    inversion Hl as [|? ? Hr Hl']; subst. cbn.
    apply Z.eqb_neq in Hr. rewrite Hr. now rewrite IH. }
  assert (Hone : forall before after,
            Forall (fun x => fd x <> the_fd) before ->
            unlink (before ++ mkPollRec the_fd priority events :: after)
                   the_fd
            = Some (before ++ after)).
  { induction before as [|r l IH]; intros after Hl; cbn.
    - now rewrite Z.eqb_refl.
    - inversion Hl as [|? ? Hr Hl']; subst.
      apply Z.eqb_neq in Hr. rewrite Hr. now rewrite IH. }
  destruct (link_spec (GBaselinePoller.poll_records backend)
                      (mkPollRec the_fd priority events))
    as (before & after & Hrec & Hlink & _ & _).
  assert (Hb : Forall (fun x => fd x <> the_fd) before).
  { rewrite Hrec in Habs. now apply Forall_app in Habs as [Hb _]. }
  assert (Hrem : unlink (GBaselinePoller.poll_records added) the_fd
                 = Some (GBaselinePoller.poll_records backend)).
  { subst added. rewrite baseline_add_fd_records, Hlink, Hrec.
    now apply Hone. }
  assert (Hfirst :
            GBaselinePoller.g_baseline_poller_remove_fd added the_fd
            = (GBaselinePoller.mkBackend
                 (GBaselinePoller.poll_records backend)
                 (wrap_guint (GBaselinePoller.n_poll_records added - 1))
                 (GBaselinePoller.cached_poll_array added)
                 (GBaselinePoller.cached_poll_array_size added)
                 (GBaselinePoller.poll_func added), [])).
  { unfold GBaselinePoller.g_baseline_poller_remove_fd. now rewrite Hrem. }
  subst removed. rewrite Hfirst.
  cbn [fst snd GBaselinePoller.poll_records].
  split; [reflexivity|]. split; [reflexivity|].
  unfold GBaselinePoller.g_baseline_poller_remove_fd.
  cbn [GBaselinePoller.poll_records]. now rewrite (Hnone _ Habs).
Qed.

(** The poll context removes the first record with the descriptor, as the
    baseline poller does. *)
Lemma context_remove_fd_records (backend : GPollContext.GPollLoopBackend)
    (the_fd : Z) :
  GPollContext.poll_records
    (snd (fst (GPollContext.g_poll_context_remove_fd the_fd backend)))
  = match unlink (GPollContext.poll_records backend) the_fd with
    | Some records => records
    | None => GPollContext.poll_records backend
    end.
Proof.
  unfold GPollContext.g_poll_context_remove_fd, GPollContext.bind,
    GPollContext.get, GPollContext.call.
  cbn. destruct (unlink (GPollContext.poll_records backend) the_fd);
    reflexivity.
Qed.

(** C6 on the poll context: a descriptor is added, removed, and removed
    again.  The second removal finds no record; it answers [TRUE], locks,
    unlocks and wakes the scheduler as the first did, and flags nothing. *)
Theorem context_second_removal_not_flagged :
  let added :=
    snd (fst (GPollContext.g_poll_context_add_fd 5 1 0
                (GPollContext.g_poll_context_create
                   GBaselinePoller.nothing_ready))) in
  let removed :=
    snd (fst (GPollContext.g_poll_context_remove_fd 5 added)) in
  GPollContext.poll_records removed = [] /\
  fst (fst (GPollContext.g_poll_context_remove_fd 5 removed)) = true /\
  GPollContext.calls_of
    (snd (GPollContext.g_poll_context_remove_fd 5 removed))
  = [EvLock; EvUnlock; EvWakeup] /\
  List.filter is_critical
    (GPollContext.calls_of
       (snd (GPollContext.g_poll_context_remove_fd 5 removed))) = [].
Proof. cbv zeta. repeat split. Qed.

(** *** Waking the scheduler *)

(** C8, as amended: each of [add_fd], [remove_fd] and [modify_fd] of the poll
    context answers [TRUE] and makes three calls: it locks, unlocks, and wakes
    the scheduler; at the unlock and at the wake-up the poll records are
    already the changed ones, and [poll_changed] is set. *)
Theorem context_changes_wake (backend : GPollContext.GPollLoopBackend)
    (fd events priority : Z) :
  (let '(answer, after, t) :=
     GPollContext.g_poll_context_add_fd fd events priority backend in
   answer = true /\
   GPollContext.poll_records after
   = link (GPollContext.poll_records backend)
          (mkPollRec fd priority events) /\
   GPollContext.poll_changed after = true /\
   t = [(EvLock, GPollContext.poll_records backend);
        (EvUnlock, GPollContext.poll_records after);
        (EvWakeup, GPollContext.poll_records after)]) /\
  (let '(answer, after, t) :=
     GPollContext.g_poll_context_remove_fd fd backend in
   answer = true /\
   GPollContext.poll_records after
   = match unlink (GPollContext.poll_records backend) fd with
     | Some records => records
     | None => GPollContext.poll_records backend
     end /\
   GPollContext.poll_changed after = true /\
   t = [(EvLock, GPollContext.poll_records backend);
        (EvUnlock, GPollContext.poll_records after);
        (EvWakeup, GPollContext.poll_records after)]) /\
  (let '(answer, after, t) :=
     GPollContext.g_poll_context_modify_fd fd events priority backend in
   answer = true /\
   GPollContext.poll_records after
   = match update (GPollContext.poll_records backend) fd events priority with
     | Some records => records
     | None => GPollContext.poll_records backend
     end /\
   GPollContext.poll_changed after = true /\
   t = [(EvLock, GPollContext.poll_records backend);
        (EvUnlock, GPollContext.poll_records after);
        (EvWakeup, GPollContext.poll_records after)]).
Proof.
  split; [|split].
  - cbn. repeat split.
  - unfold GPollContext.g_poll_context_remove_fd, GPollContext.bind,
      GPollContext.get, GPollContext.call. cbn.
    destruct (unlink (GPollContext.poll_records backend) fd);
      cbn; repeat split.
  - unfold GPollContext.g_poll_context_modify_fd, GPollContext.bind,
      GPollContext.get, GPollContext.call. cbn.
    destruct (update (GPollContext.poll_records backend) fd events priority);
      cbn; repeat split.
Qed.

(** C8 as it is stated fails on the baseline poller, which has no scheduler
    to wake: its [add_fd] calls nothing. *)
Lemma baseline_add_fd_wakes_nobody :
  ~ wakes (snd (GBaselinePoller.g_baseline_poller_add_fd
                  (GBaselinePoller._g_baseline_poller_new
                     GBaselinePoller.nothing_ready)
                  5 1 0)).
Proof. intros []. Qed.

(** Neither do its [remove_fd] and [modify_fd]. *)
Lemma baseline_changes_wake_nobody
    (backend : GBaselinePoller.GBaselinePollerData) (fd events priority : Z) :
  ~ wakes (snd (GBaselinePoller.g_baseline_poller_add_fd
                  backend fd events priority)) /\
  ~ wakes (snd (GBaselinePoller.g_baseline_poller_remove_fd backend fd)) /\
  ~ wakes (snd (GBaselinePoller.g_baseline_poller_modify_fd
                  backend fd events priority)).
Proof.
  unfold wakes, GBaselinePoller.g_baseline_poller_remove_fd,
    GBaselinePoller.g_baseline_poller_modify_fd.
  split; [intros []|]. split.
  - destruct (unlink _ _); cbn; [tauto|]. intros [H|[]]. discriminate.
  - destruct (update _ _ _ _); cbn; [tauto|]. intros [H|[]]. discriminate.
Qed.

End GPollFacts.

(** ** The translation of event masks in [gmain-epoll.c] *)

Module GEpollMaskFacts.
Import GTypes GTypesFacts GMain GEpoll.

Lemma testbit_pow2 (k n : Z) :
  0 <= k -> Z.testbit (2 ^ k) n = (k =? n).
Proof. intros Hk. now apply Z.pow2_bits_eqb. Qed.

Lemma land_pow2_eqb_0 (x k : Z) :
  0 <= k -> (Z.land x (2 ^ k) =? 0) = negb (Z.testbit x k).
Proof.
  intros Hk. destruct (Z.testbit x k) eqn:Hb; cbn.
  - apply Z.eqb_neq. intros H0.
    assert (Ht : Z.testbit (Z.land x (2 ^ k)) k = true).
    { rewrite Z.land_spec, Hb, testbit_pow2, Z.eqb_refl by lia.
      reflexivity. }
    rewrite H0, Z.bits_0 in Ht. discriminate.
  - apply Z.eqb_eq. apply Z.bits_inj'. intros n Hn.
    rewrite Z.land_spec, Z.bits_0, testbit_pow2 by lia.
    destruct (Z.eqb_spec k n); [subst; now rewrite Hb|].
    apply andb_false_r.
Qed.

Lemma pow2_eqb (a b : Z) :
  0 <= a -> 0 <= b -> (2 ^ a =? 2 ^ b) = (a =? b).
Proof.
  intros Ha Hb. destruct (Z.eqb_spec a b) as [->|Hne].
  - apply Z.eqb_refl.
  - apply Z.eqb_neq. intros Heq. apply Hne.
    apply (Z.pow_inj_r 2); lia.
Qed.

Lemma testbit_wrap_guint (x n : Z) :
  Z.testbit (wrap_guint x) n = (n <? 32) && Z.testbit x n.
Proof.
  unfold wrap_guint. change 4294967296 with (2 ^ 32).
  apply Z.testbit_mod_pow2. lia.
Qed.

Lemma testbit_wrap_gushort (x n : Z) :
  Z.testbit (wrap_gushort x) n = (n <? 16) && Z.testbit x n.
Proof.
  unfold wrap_gushort. change 65536 with (2 ^ 16).
  apply Z.testbit_mod_pow2. lia.
Qed.

Lemma or_unless_same_bits (g e src dst n : Z) :
  0 <= g -> 0 <= e ->
  Z.testbit (or_unless_same (2 ^ g) (2 ^ e) src dst) n
  = Z.testbit dst n || (negb (g =? e) && Z.testbit src e && (g =? n)).
Proof.
  intros Hg He. unfold or_unless_same.
  rewrite pow2_eqb, land_pow2_eqb_0 by lia.
  destruct (g =? e), (Z.testbit src e); cbn [negb andb];
    rewrite ?Z.lor_spec, ?testbit_pow2 by lia;
    rewrite ?orb_false_r; reflexivity.
Qed.

Lemma when_same_bits (g e n : Z) :
  0 <= g -> 0 <= e ->
  Z.testbit (when_same (2 ^ g) (2 ^ e)) n = (g =? e) && (g =? n).
Proof.
  intros Hg He. unfold when_same. rewrite pow2_eqb by lia.
  destruct (g =? e); cbn [andb]; [now apply testbit_pow2 | apply Z.bits_0].
Qed.

(** Comparisons of bit positions that the context decides are replaced by
    their values; what is left is split on. *)
Ltac resolve_positions :=
  repeat match goal with
         | |- context [?a =? ?a] => rewrite (Z.eqb_refl a)
         | |- context [?a =? ?b] =>
             replace (a =? b) with false
               by (symmetry; apply Z.eqb_neq;
                   first [assumption | apply not_eq_sym; assumption])
         | H : _ <= ?a < ?b |- context [?a <? ?b] =>
             replace (a <? b) with true by (symmetry; apply Z.ltb_lt; lia)
         end.

Ltac simplify_bool :=
  repeat first [ progress cbn [negb andb orb]
               | rewrite andb_false_r | rewrite andb_true_r
               | rewrite orb_false_r | rewrite orb_true_r ].

Ltac decide_bits :=
  resolve_positions; simplify_bool;
  repeat match goal with
         | |- context [?a =? ?b] =>
             destruct (Z.eqb_spec a b); subst; simplify_bool
         | |- context [?a <? ?b] =>
             destruct (a <? b); simplify_bool
         end;
  repeat match goal with
         | |- context [Z.testbit ?x ?k] =>
             destruct (Z.testbit x k); simplify_bool
         end;
  reflexivity.

Section Bits.
Context `{K : Platform}.
Variables gi go gp ge gh ei eo ep ee eh : Z.
Hypothesis Hflags : flags_at [gi; go; gp; ge; gh] [ei; eo; ep; ee; eh].

Lemma flags_values :
  (G_IO_IN = 2 ^ gi /\ G_IO_OUT = 2 ^ go /\ G_IO_PRI = 2 ^ gp /\
   G_IO_ERR = 2 ^ ge /\ G_IO_HUP = 2 ^ gh) /\
  (EPOLLIN = 2 ^ ei /\ EPOLLOUT = 2 ^ eo /\ EPOLLPRI = 2 ^ ep /\
   EPOLLERR = 2 ^ ee /\ EPOLLHUP = 2 ^ eh).
Proof.
  destruct Hflags as (Hg & He & _). cbn in Hg, He.
  injection Hg as -> -> -> -> ->. injection He as -> -> -> -> ->.
  repeat split.
Qed.

Lemma flags_ranges :
  (0 <= gi < 16 /\ 0 <= go < 16 /\ 0 <= gp < 16 /\ 0 <= ge < 16 /\
   0 <= gh < 16) /\
  (0 <= ei < 32 /\ 0 <= eo < 32 /\ 0 <= ep < 32 /\ 0 <= ee < 32 /\
   0 <= eh < 32).
Proof.
  destruct Hflags as (_ & _ & Hg & He & _).
  repeat match goal with
         | H : List.Forall _ (_ :: _) |- _ =>
             apply List.Forall_cons_iff in H as [? H]
         end.
  repeat split; lia.
Qed.

Lemma flags_distinct :
  (gi <> go /\ gi <> gp /\ gi <> ge /\ gi <> gh /\ go <> gp /\ go <> ge /\
   go <> gh /\ gp <> ge /\ gp <> gh /\ ge <> gh) /\
  (ei <> eo /\ ei <> ep /\ ei <> ee /\ ei <> eh /\ eo <> ep /\ eo <> ee /\
   eo <> eh /\ ep <> ee /\ ep <> eh /\ ee <> eh).
Proof.
  destruct Hflags as (_ & _ & _ & _ & Hg & He).
  repeat match goal with
         | H : List.NoDup (_ :: _) |- _ =>
             apply List.NoDup_cons_iff in H as [? H]
         end.
  cbn in *. repeat split; intros ->; tauto.
Qed.

(** Bit [n] of the epoll mask of [io_cond]. *)
Lemma to_epoll_bits (io_cond n : Z) :
  0 <= n ->
  Z.testbit (g_io_condition_to_epoll_events io_cond) n
  = ((n =? ei) && Z.testbit io_cond gi)
    || ((n =? eo) && Z.testbit io_cond go)
    || ((n =? ep) && Z.testbit io_cond gp).
Proof.
  intros Hn.
  destruct flags_values as
    ((HGI & HGO & HGP & HGE & HGH) & (HEI & HEO & HEP & HEE & HEH)).
  destruct flags_ranges as
    ((Rgi & Rgo & Rgp & Rge & Rgh) & (Rei & Reo & Rep & Ree & Reh)).
  destruct flags_distinct as (_ & (D1 & D2 & _ & _ & D3 & _)).
  unfold g_io_condition_to_epoll_events.
  rewrite HGI, HGO, HGP, HEI, HEO, HEP. cbv zeta.
  repeat first [ rewrite testbit_wrap_guint
               | rewrite or_unless_same_bits by lia
               | rewrite when_same_bits by lia
               | rewrite Z.lor_spec
               | rewrite Z.land_spec
               | rewrite Z.bits_0 ].
  destruct (Z.eq_dec n ei) as [->|N1];
    [|destruct (Z.eq_dec n eo) as [->|N2];
      [|destruct (Z.eq_dec n ep) as [->|N3]]];
    decide_bits.
Qed.

(** Bit [n] of the portable mask of [epoll_events]. *)
Lemma from_epoll_bits (epoll_events n : Z) :
  0 <= n ->
  Z.testbit (g_io_condition_from_epoll_events epoll_events) n
  = ((n =? gi) && Z.testbit epoll_events ei)
    || ((n =? go) && Z.testbit epoll_events eo)
    || ((n =? gp) && Z.testbit epoll_events ep)
    || ((n =? ge) && Z.testbit epoll_events ee)
    || ((n =? gh) && Z.testbit epoll_events eh).
Proof.
  intros Hn.
  destruct flags_values as
    ((HGI & HGO & HGP & HGE & HGH) & (HEI & HEO & HEP & HEE & HEH)).
  destruct flags_ranges as
    ((Rgi & Rgo & Rgp & Rge & Rgh) & (Rei & Reo & Rep & Ree & Reh)).
  destruct flags_distinct as
    ((D1 & D2 & D3 & D4 & D5 & D6 & D7 & D8 & D9 & D10) & _).
  unfold g_io_condition_from_epoll_events.
  rewrite HGI, HGO, HGP, HGE, HGH, HEI, HEO, HEP, HEE, HEH. cbv zeta.
  repeat first [ rewrite testbit_wrap_gushort
               | rewrite or_unless_same_bits by lia
               | rewrite when_same_bits by lia
               | rewrite Z.lor_spec
               | rewrite Z.land_spec
               | rewrite Z.bits_0 ].
  destruct (Z.eq_dec n gi) as [->|N1];
    [|destruct (Z.eq_dec n go) as [->|N2];
      [|destruct (Z.eq_dec n gp) as [->|N3];
        [|destruct (Z.eq_dec n ge) as [->|N4];
          [|destruct (Z.eq_dec n gh) as [->|N5]]]]];
    decide_bits.
Qed.

Lemma land_pow2_neq_0 (x k : Z) :
  0 <= k -> Z.land x (2 ^ k) <> 0 <-> Z.testbit x k = true.
Proof.
  intros Hk. pose proof (land_pow2_eqb_0 x k Hk) as H.
  destruct (Z.testbit x k); cbn in H.
  - apply Z.eqb_neq in H. tauto.
  - apply Z.eqb_eq in H. split; [tauto | discriminate].
Qed.

Lemma round_trip (io_cond : Z) :
  Z.land io_cond (Z.lor (Z.lor G_IO_IN G_IO_OUT) G_IO_PRI) = io_cond ->
  g_io_condition_from_epoll_events (g_io_condition_to_epoll_events io_cond)
  = io_cond.
Proof.
  intros Hsub.
  destruct flags_values as
    ((HGI & HGO & HGP & HGE & HGH) & (HEI & HEO & HEP & HEE & HEH)).
  destruct flags_ranges as
    ((Rgi & Rgo & Rgp & Rge & Rgh) & (Rei & Reo & Rep & Ree & Reh)).
  destruct flags_distinct as
    ((D1 & D2 & D3 & D4 & D5 & D6 & D7 & D8 & D9 & D10) &
     (F1 & F2 & F3 & F4 & F5 & F6 & F7 & F8 & F9 & F10)).
  apply Z.bits_inj'. intros n Hn.
  rewrite from_epoll_bits by exact Hn. rewrite !to_epoll_bits by lia.
  apply (f_equal (fun z => Z.testbit z n)) in Hsub.
  rewrite HGI, HGO, HGP, Z.land_spec, !Z.lor_spec, !testbit_pow2 in Hsub
    by lia.
  rewrite <- Hsub.
  destruct (Z.eq_dec n gi) as [->|N1];
    [|destruct (Z.eq_dec n go) as [->|N2];
      [|destruct (Z.eq_dec n gp) as [->|N3];
        [|destruct (Z.eq_dec n ge) as [->|N4];
          [|destruct (Z.eq_dec n gh) as [->|N5]]]]];
    decide_bits.
Qed.

Lemma to_epoll_no_err_hup (io_cond : Z) :
  Z.land (g_io_condition_to_epoll_events io_cond) (Z.lor EPOLLERR EPOLLHUP)
  = 0.
Proof.
  destruct flags_values as
    ((HGI & HGO & HGP & HGE & HGH) & (HEI & HEO & HEP & HEE & HEH)).
  destruct flags_ranges as
    ((Rgi & Rgo & Rgp & Rge & Rgh) & (Rei & Reo & Rep & Ree & Reh)).
  destruct flags_distinct as
    (_ & (F1 & F2 & F3 & F4 & F5 & F6 & F7 & F8 & F9 & F10)).
  apply Z.bits_inj'. intros n Hn.
  rewrite Z.land_spec, to_epoll_bits, Z.bits_0 by lia.
  rewrite HEE, HEH, Z.lor_spec, !testbit_pow2 by lia.
  destruct (Z.eq_dec n ee) as [->|N1];
    [|destruct (Z.eq_dec n eh) as [->|N2]];
    decide_bits.
Qed.

Lemma from_epoll_err_hup (epoll_events : Z) :
  (Z.land epoll_events EPOLLERR <> 0 <->
   Z.land (g_io_condition_from_epoll_events epoll_events) G_IO_ERR <> 0) /\
  (Z.land epoll_events EPOLLHUP <> 0 <->
   Z.land (g_io_condition_from_epoll_events epoll_events) G_IO_HUP <> 0).
Proof.
  destruct flags_values as
    ((HGI & HGO & HGP & HGE & HGH) & (HEI & HEO & HEP & HEE & HEH)).
  destruct flags_ranges as
    ((Rgi & Rgo & Rgp & Rge & Rgh) & (Rei & Reo & Rep & Ree & Reh)).
  destruct flags_distinct as
    ((D1 & D2 & D3 & D4 & D5 & D6 & D7 & D8 & D9 & D10) & _).
  rewrite HEE, HEH, HGE, HGH, !land_pow2_neq_0 by lia.
  rewrite !from_epoll_bits by lia.
  split.
  - assert (Hb : ((ge =? gi) && Z.testbit epoll_events ei
                  || (ge =? go) && Z.testbit epoll_events eo
                  || (ge =? gp) && Z.testbit epoll_events ep
                  || (ge =? ge) && Z.testbit epoll_events ee
                  || (ge =? gh) && Z.testbit epoll_events eh)
                 = Z.testbit epoll_events ee) by decide_bits.
    now rewrite Hb.
  - assert (Hb : ((gh =? gi) && Z.testbit epoll_events ei
                  || (gh =? go) && Z.testbit epoll_events eo
                  || (gh =? gp) && Z.testbit epoll_events ep
                  || (gh =? ge) && Z.testbit epoll_events ee
                  || (gh =? gh) && Z.testbit epoll_events eh)
                 = Z.testbit epoll_events eh) by decide_bits.
    now rewrite Hb.
Qed.

End Bits.

(** C10: when the flags are single bits, no two of a kind the same, a
    portable mask within [G_IO_IN | G_IO_OUT | G_IO_PRI] translated to an
    epoll mask and back is the mask it was; the epoll mask has neither
    [EPOLLERR] nor [EPOLLHUP]; and the translation from an epoll mask sets
    [G_IO_ERR] exactly for [EPOLLERR] and [G_IO_HUP] exactly for
    [EPOLLHUP]. *)
Theorem masks_translate (K : Platform) :
  single_bit_flags -> translates_masks.
Proof.
  intros (g & e & Hflags).
  assert (Hlen : length g = 5%nat /\ length e = 5%nat).
  { destruct Hflags as (Hg & He & _).
    apply (f_equal (@length Z)) in Hg, He.
    rewrite length_map in Hg, He. cbn in Hg, He. lia. }
  destruct Hlen as [Hlg Hle].
  destruct g as [|gi [|go [|gp [|ge [|gh [|]]]]]]; try discriminate.
  destruct e as [|ei [|eo [|ep [|ee [|eh [|]]]]]]; try discriminate.
  split; [|split].
  - intros io_cond. now apply (round_trip gi go gp ge gh ei eo ep ee eh).
  - intros io_cond.
    now apply (to_epoll_no_err_hup gi go gp ge gh ei eo ep ee eh).
  - intros epoll_events.
    now apply (from_epoll_err_hup gi go gp ge gh ei eo ep ee eh).
Qed.

Lemma masks_translate_witness :
  @single_bit_flags linux /\ @translates_masks linux.
Proof.
  assert (Hflags : @single_bit_flags linux).
  { exists [0; 2; 1; 3; 4], [0; 2; 1; 3; 4].
    split; [reflexivity|]. split; [reflexivity|].
    split; [repeat constructor; lia|]. split; [repeat constructor; lia|].
    split; repeat constructor; cbn; lia. }
  split; [exact Hflags|]. apply (masks_translate linux). exact Hflags.
Defined.

End GEpollMaskFacts.

(** ** Registration with the epoll backends *)

Module GEpollFacts.
Import GTypes GTypesFacts GMain GEpoll.

(** The slot after the compatibility descriptors, once the array has been
    made large enough for it and it has been stored. *)
Lemma store_next_compat (fds_ready : list GPollFD) (n : Z) (x : GPollFD) :
  compat_in_range n fds_ready ->
  take (Z.to_nat (wrap_guint (n + 1)))
       (<[Z.to_nat n := x]>
          (if wrap_guint (n + 1) >? Z.of_nat (length fds_ready)
           then grow fds_ready (wrap_guint (n + 1))
           else fds_ready))
  = take (Z.to_nat n) fds_ready ++ [x].
Proof.
  intros [Hn Hmax]. unfold G_MAXUINT in Hmax.
  rewrite wrap_guint_small by (unfold G_MAXUINT; lia).
  replace (Z.to_nat (n + 1)) with (S (Z.to_nat n)) by lia.
  destruct (Z.gtb_spec (n + 1) (Z.of_nat (length fds_ready))) as [Hgt|Hle].
  - assert (Hk : Z.to_nat n = length fds_ready) by lia.
    unfold grow. rewrite Hk.
    replace (Z.to_nat (n + 1) - length fds_ready)%nat with 1%nat by lia.
    cbn [repeat].
    replace (length fds_ready) with (length fds_ready + 0)%nat at 2 by lia.
    rewrite insert_app_r. cbn.
    rewrite take_ge by (rewrite length_app; cbn; lia).
    now rewrite take_ge by lia.
  - rewrite (take_S_r _ _ x) by (apply list_lookup_insert_eq; lia).
    now rewrite take_insert_ge by lia.
Qed.

(** C4: what [add_fd] does with the answer of [epoll_ctl], in the revision
    that keeps the compatibility descriptors in [fds_ready] and in the one
    that keeps them in the hash table.  Rejected with [EPERM]: the descriptor
    and its interest mask join the compatibility set, the counter of
    kernel-managed descriptors stays, the answer is [TRUE].  Rejected with
    another error: a warning, nothing changes, the answer is [FALSE].
    Accepted: the counter goes up by one, the answer is [TRUE]. *)
Theorem add_fd_by_answer (K : Platform)
    (array_backend : GEpollContext.GEpollLoopBackend)
    (table_backend : GEpollContextMT.GEpollLoopBackend)
    (fd events priority : Z) (answer : ctl_answer) :
  compat_in_range (GEpollContext.n_compat_fds array_backend)
                  (GEpollContext.fds_ready array_backend) ->
  let ctl :=
    EvEpollCtl EPOLL_CTL_ADD fd (g_io_condition_to_epoll_events events) in
  let '(array_answer, array_after, array_calls) :=
    GEpollContext.g_epoll_context_add_fd array_backend fd events priority
                                         answer in
  let '(table_answer, table_after, table_calls) :=
    GEpollContextMT.g_epoll_context_add_fd table_backend fd events priority
                                           answer in
  (ctl_retval answer <> 0 -> ctl_errno answer = EPERM ->
   (array_answer = true /\
    GEpollContext.compat_set array_after
    = GEpollContext.compat_set array_backend ++ [mkPollFD fd events 0] /\
    GEpollContext.n_poll_records array_after
    = GEpollContext.n_poll_records array_backend /\
    array_calls = [ctl]) /\
   (table_answer = true /\
    GEpollContextMT.compat_fds table_after
    = <[fd := events]> (GEpollContextMT.compat_fds table_backend) /\
    GEpollContextMT.n_poll_records table_after
    = GEpollContextMT.n_poll_records table_backend /\
    table_calls = [ctl; EvLock; EvUnlock])) /\
  (ctl_retval answer <> 0 -> ctl_errno answer <> EPERM ->
   (array_answer = false /\ array_after = array_backend /\
    array_calls = [ctl; EvWarning "EPOLL_CTL_ADD failed"]) /\
   (table_answer = false /\ table_after = table_backend /\
    table_calls = [ctl; EvWarning "EPOLL_CTL_ADD failed"])) /\
  (ctl_retval answer = 0 ->
   (array_answer = true /\
    GEpollContext.n_poll_records array_after
    = wrap_guint (GEpollContext.n_poll_records array_backend + 1) /\
    GEpollContext.compat_set array_after
    = GEpollContext.compat_set array_backend /\
    array_calls = [ctl]) /\
   (table_answer = true /\
    GEpollContextMT.n_poll_records table_after
    = wrap_guint (GEpollContextMT.n_poll_records table_backend + 1) /\
    GEpollContextMT.compat_fds table_after
    = GEpollContextMT.compat_fds table_backend /\
    table_calls = [ctl])).
Proof.
  intros Hrange ctl.
  unfold GEpollContext.g_epoll_context_add_fd,
    GEpollContextMT.g_epoll_context_add_fd.
  fold ctl.
  destruct (Z.eqb_spec (ctl_retval answer) 0) as [Hok|Hfail];
    cbn [negb].
  - repeat split; try reflexivity; intros; contradiction.
  - destruct (Z.eqb_spec (ctl_errno answer) EPERM) as [Hperm|Hother].
    + split; [|split]; [|intros; contradiction..].
      intros _ _. split; [|repeat split].
      pose proof (store_next_compat _ _ (mkPollFD fd events 0) Hrange)
        as Hstore.
      unfold GEpollContext.compat_set,
        GEpollContext.g_epoll_context_ensure_ready_size,
        GEpollContext.fds_ready_size.
      destruct (wrap_guint (GEpollContext.n_compat_fds array_backend + 1)
                >? Z.of_nat (length (GEpollContext.fds_ready array_backend)));
        cbn [GEpollContext.n_compat_fds GEpollContext.fds_ready
             GEpollContext.n_poll_records];
        repeat split; exact Hstore.
    + split; [|split]; [intros; contradiction| |intros; contradiction].
      intros _ _. repeat split.
Qed.

Lemma add_fd_by_answer_witness :
  compat_in_range 0 [] /\
  GEpollContext.compat_set
    (snd (fst (@GEpollContext.g_epoll_context_add_fd linux
                 (GEpollContext.mkBackend 7 0 0 [] 0) 3 1 0
                 (mkCtlAnswer (-1) 1))))
  = [mkPollFD 3 1 0].
Proof.
  assert (Hrange : compat_in_range 0 []).
  { unfold compat_in_range, G_MAXUINT. cbn. lia. }
  split; [exact Hrange|].
  pose proof (add_fd_by_answer linux (GEpollContext.mkBackend 7 0 0 [] 0)
                (GEpollContextMT.mkBackend 7 0 0 [] ∅) 3 1 0
                (mkCtlAnswer (-1) 1) Hrange) as H.
  cbv zeta in H.
  destruct (@GEpollContext.g_epoll_context_add_fd linux
              (GEpollContext.mkBackend 7 0 0 [] 0) 3 1 0
              (mkCtlAnswer (-1) 1)) as [[array_answer array_after] calls].
  destruct (@GEpollContextMT.g_epoll_context_add_fd linux
              (GEpollContextMT.mkBackend 7 0 0 [] ∅) 3 1 0
              (mkCtlAnswer (-1) 1)) as [[table_answer table_after] calls'].
  destruct H as [H _].
  destruct H as [(_ & H & _) _]; [discriminate | reflexivity |].
  exact H.
Defined.

(** *** Descriptors in the compatibility set *)

(** C5 on the revisions that keep the compatibility descriptors in
    [fds_ready]: [remove_fd] of descriptor 3 from the set of 3, 4 and 5.  The
    [memmove] is given the number of slots to move, 2, where it takes a
    number of bytes: it copies the two low bytes of the descriptor 4 over
    those of the descriptor 3.  The set is then the descriptor 4 with the
    interest mask that 3 had, and the descriptor 4 with its own; the
    descriptor 5 is gone. *)
Theorem array_remove_fd_moves_bytes :
  interests
    (GEpollContext.compat_set
       (snd (fst (@GEpollContext.g_epoll_context_remove_fd linux
                    GEpollContext.three_compat_fds 3 (mkCtlAnswer 0 0)))))
  = [(4, 1); (4, 4)] /\
  interests
    (GEpoller.compat_set
       (fst (@GEpoller.g_epoller_remove_fd linux
               GEpoller.three_compat_fds 3 (mkCtlAnswer 0 0))))
  = [(4, 1); (4, 4)].
Proof. split; vm_compute; reflexivity. Qed.

(** The revision with the hash table does what C5 says: [modify_fd] and
    [remove_fd] of a descriptor of the compatibility set answer [TRUE], lock
    and unlock and call nothing else, and change the entry of that
    descriptor only. *)
Lemma table_compat_fd_stays_local (K : Platform)
    (backend : GEpollContextMT.GEpollLoopBackend)
    (fd events priority : Z) (answer : ctl_answer) :
  is_Some (GEpollContextMT.compat_fds backend !! fd) ->
  (let '(modified, after, calls) :=
     GEpollContextMT.g_epoll_context_modify_fd backend fd events priority
                                               answer in
   modified = true /\ calls = [EvLock; EvUnlock] /\
   GEpollContextMT.compat_fds after !! fd = Some events /\
   (forall other, other <> fd ->
      GEpollContextMT.compat_fds after !! other
      = GEpollContextMT.compat_fds backend !! other) /\
   GEpollContextMT.n_poll_records after
   = GEpollContextMT.n_poll_records backend) /\
  (let '(removed, after, calls) :=
     GEpollContextMT.g_epoll_context_remove_fd backend fd answer in
   removed = true /\ calls = [EvLock; EvUnlock] /\
   GEpollContextMT.compat_fds after !! fd = None /\
   (forall other, other <> fd ->
      GEpollContextMT.compat_fds after !! other
      = GEpollContextMT.compat_fds backend !! other) /\
   GEpollContextMT.n_poll_records after
   = GEpollContextMT.n_poll_records backend).
Proof.
  intros Hin.
  unfold GEpollContextMT.g_epoll_context_modify_fd,
    GEpollContextMT.g_epoll_context_remove_fd.
  rewrite (bool_decide_eq_true_2 _ Hin).
  cbn [GEpollContextMT.compat_fds GEpollContextMT.n_poll_records].
  split.
  - split; [reflexivity|]. split; [reflexivity|].
    split; [apply lookup_insert_eq|]. split; [|reflexivity].
    intros other Hne. now apply lookup_insert_ne.
  - split; [reflexivity|]. split; [reflexivity|].
    split; [apply lookup_delete_eq|]. split; [|reflexivity].
    intros other Hne. now apply lookup_delete_ne.
Qed.

(** *** A wait that fails *)




End GEpollFacts.

(** ** More on the event context handle *)

Module GEventMoreFacts.
Import GTypes GTypesFacts GEvent GEventWorlds GEventFacts.

Lemma with_count_same h c w :
  heap w !! h = Some c -> with_count w h c (ref_count (priv c)) = w.
Proof.
  intros Hh. destruct w as [hp na de i se t]. unfold with_count. cbn in *.
  f_equal. rewrite set_ref_count_same. now apply insert_id.
Qed.

Lemma ref_step h c w :
  heap w !! h = Some c -> 0 < ref_count (priv c) ->
  g_event_context_ref (Some h) w
  = Ret (Some h) (with_count w h c (wrap_gint (ref_count (priv c) + 1))).
Proof.
  intros Hh Hpos. unfold g_event_context_ref, bind, load. rewrite Hh.
  apply Z.ltb_lt in Hpos. now rewrite Hpos.
Qed.

Lemma unref_step h c w :
  heap w !! h = Some c -> 1 < ref_count (priv c) <= G_MAXINT ->
  g_event_context_unref (Some h) w
  = Ret tt (with_count w h c (ref_count (priv c) - 1)).
Proof.
  intros Hh Hrc. unfold g_event_context_unref, bind, load. rewrite Hh.
  assert (H0 : (0 <? ref_count (priv c)) = true) by (apply Z.ltb_lt; lia).
  rewrite H0. cbn.
  rewrite wrap_gint_small by (unfold G_MININT, G_MAXINT in *; lia).
  assert (H1 : (ref_count (priv c) - 1 =? 0) = false)
    by (apply Z.eqb_neq; lia).
  now rewrite H1.
Qed.

Lemma with_count_lookup h c w k :
  heap (with_count w h c k) !! h = Some (set_ref_count c k).
Proof. apply lookup_insert_eq. Qed.

Lemma with_count_again h c w a b :
  with_count (with_count w h c a) h (set_ref_count c a) b
  = with_count w h c b.
Proof.
  unfold with_count. cbn. f_equal.
  now rewrite insert_insert_eq, set_ref_count_twice.
Qed.

Lemma calls_ref_with_count h c w : forall (n : N) (k : Z),
  0 < k -> k + Z.of_N n <= G_MAXINT ->
  calls n (g_event_context_ref (Some h)) (with_count w h c k)
  = Ret tt (with_count w h c (k + Z.of_N n)).
Proof.
  induction n as [|n IH] using N.peano_ind; intros k Hk Hmax.
  - cbn. now rewrite Z.add_0_r.
  - rewrite calls_succ, IH by lia.
    rewrite (ref_step h _ _ (with_count_lookup h c w _)) by (cbn; lia).
    cbn [set_ref_count priv ref_count].
    rewrite with_count_again.
    rewrite wrap_gint_small by (unfold G_MININT; lia).
    do 2 f_equal. lia.
Qed.

Lemma calls_unref_with_count h c w : forall (n : N) (k : Z),
  Z.of_N n < k <= G_MAXINT ->
  calls n (g_event_context_unref (Some h)) (with_count w h c k)
  = Ret tt (with_count w h c (k - Z.of_N n)).
Proof.
  induction n as [|n IH] using N.peano_ind; intros k Hk.
  - cbn. now rewrite Z.sub_0_r.
  - rewrite calls_succ, IH by lia.
    rewrite (unref_step h _ _ (with_count_lookup h c w _)) by (cbn; lia).
    cbn [set_ref_count priv ref_count].
    rewrite with_count_again.
    do 2 f_equal. lia.
Qed.

(** X1.  References and releases balance on every live context: when the
    count stays within a [gint], [n] calls of [g_event_context_ref] raise it
    by [n], and [n] calls of [g_event_context_unref] after them give back
    the world as it was: the same heap, no [finalize], no message. *)
Theorem refs_then_unrefs_restore (h : addr) (c : GEventContext) (n : N)
    (w : world) :
  heap w !! h = Some c -> 0 < ref_count (priv c) ->
  ref_count (priv c) + Z.of_N n <= G_MAXINT ->
  exists w1,
    calls n (g_event_context_ref (Some h)) w = Ret tt w1 /\
    ref_count_of w1 h = Some (ref_count (priv c) + Z.of_N n) /\
    calls n (g_event_context_unref (Some h)) w1 = Ret tt w.
Proof.
  intros Hh Hpos Hmax.
  exists (with_count w h c (ref_count (priv c) + Z.of_N n)).
  split; [|split].
  - rewrite <- (with_count_same h c w Hh) at 1.
    now apply calls_ref_with_count.
  - unfold ref_count_of. now rewrite with_count_lookup.
  - rewrite calls_unref_with_count by lia.
    f_equal. rewrite <- (with_count_same h c w Hh) at 2.
    f_equal. lia.
Qed.

Lemma refs_then_unrefs_restore_witness :
  exists w1,
    calls 3 (g_event_context_ref (Some 1%nat))
      (mkWorld {[1%nat := mkContext 7%nat (mkPrivate 32 2)]} 2%nat None false
               3 [] [])
    = Ret tt w1 /\
    ref_count_of w1 1%nat = Some (2 + Z.of_N 3) /\
    calls 3 (g_event_context_unref (Some 1%nat)) w1
    = Ret tt (mkWorld {[1%nat := mkContext 7%nat (mkPrivate 32 2)]} 2%nat
                      None false 3 [] []).
Proof.
  apply (refs_then_unrefs_restore 1%nat (mkContext 7%nat (mkPrivate 32 2)) 3
           (mkWorld {[1%nat := mkContext 7%nat (mkPrivate 32 2)]} 2%nat None
                    false 3 [] [])).
  - reflexivity.
  - cbn. lia.
  - cbn. unfold G_MAXINT. lia.
Defined.

Lemma calls_stay {A} (m : M A) (a : A) (w : world) :
  m w = Ret a w -> forall n, calls n m w = Ret tt w.
Proof.
  intros Hm. induction n as [|n IH] using N.peano_ind; [reflexivity|].
  now rewrite calls_succ, IH, Hm.
Qed.

(** X2.  The default context is made by the first call of
    [g_event_context_default] that [epoll_create] lets succeed, as a new
    epoll context with count 1 and without any message; every later call
    returns that context and changes nothing, whatever the kernel would
    answer to another [epoll_create]. *)
Theorem default_context_made_once (w : world) :
  initialised w = false -> 0 <= sys_epoll_create w ->
  exists w1,
    g_event_context_default w = Ret (Some (next_addr w)) w1 /\
    heap w1 = <[next_addr w := mkContext g_epoll_context_funcs
                                 (mkPrivate sizeof_GEpollContext 1)]> (heap w) /\
    trace w1 = trace w /\
    forall epoll_fd n,
      calls n g_event_context_default (with_epoll_create w1 epoll_fd)
      = Ret tt (with_epoll_create w1 epoll_fd) /\
      g_event_context_default (with_epoll_create w1 epoll_fd)
      = Ret (Some (next_addr w)) (with_epoll_create w1 epoll_fd).
Proof.
  intros Hi Hok. eexists. split; [now apply default_first|].
  split; [reflexivity|]. split; [reflexivity|].
  intros epoll_fd n.
  assert (Hagain : forall w', initialised w' = true ->
            g_event_context_default w' = Ret (default_event_context w') w')
    by (intros w'; apply default_again).
  split.
  - eapply calls_stay. now apply Hagain.
  - now rewrite Hagain.
Qed.

Lemma default_context_made_once_witness :
  exists w1,
    g_event_context_default (initial_world 3) = Ret (Some 1%nat) w1 /\
    heap w1 = <[1%nat := mkContext g_epoll_context_funcs
                           (mkPrivate sizeof_GEpollContext 1)]> ∅ /\
    trace w1 = [] /\
    forall epoll_fd n,
      calls n g_event_context_default (with_epoll_create w1 epoll_fd)
      = Ret tt (with_epoll_create w1 epoll_fd) /\
      g_event_context_default (with_epoll_create w1 epoll_fd)
      = Ret (Some 1%nat) (with_epoll_create w1 epoll_fd).
Proof.
  apply (default_context_made_once (initial_world 3)).
  - reflexivity.
  - cbn. lia.
Defined.

(** X3.  A first call of [g_event_context_default] that [epoll_create]
    fails is final: it reports the failure once, frees the context it has
    made but not the private block of that context, which stays allocated
    with its count of 1, and returns NULL; from then on the default context
    is NULL even when the kernel would let a later [epoll_create] succeed;
    after it [add_poll] and [remove_poll] with no handle go through NULL. *)
Theorem failed_default_context_stays_null (w : world) :
  initialised w = false -> sys_epoll_create w < 0 ->
  exists w1,
    g_event_context_default w = Ret None w1 /\
    trace w1 = trace w ++ [EvCritical "epoll_create failed"] /\
    heap w1 = delete (next_addr w) (heap w) /\
    leaked w1 = leaked w ++ [mkPrivate sizeof_GEpollContext 1] /\
    forall epoll_fd,
      let w2 := with_epoll_create w1 epoll_fd in
      g_event_context_default w2 = Ret None w2 /\
      forall fd,
        _g_event_context_add_poll None fd w2 = Fault /\
        _g_event_context_remove_poll None fd w2 = Fault.
Proof.
  intros Hi Hfail.
  assert (Hrun : exists w1,
            g_event_context_default w = Ret None w1 /\
            trace w1 = trace w ++ [EvCritical "epoll_create failed"] /\
            heap w1 = delete (next_addr w) (heap w) /\
            leaked w1 = leaked w ++ [mkPrivate sizeof_GEpollContext 1] /\
            initialised w1 = true /\ default_event_context w1 = None).
  { unfold g_event_context_default, bind, g_once_init_enter.
    rewrite Hi. cbn.
    unfold g_event_context_new, _g_epoll_event_context_new, bind. cbn.
    apply Z.ltb_lt in Hfail. rewrite Hfail. cbn.
    unfold free_context_alone. cbn. rewrite lookup_insert_eq. cbn.
    eexists. split; [reflexivity|]. cbn.
    split; [reflexivity|]. split; [apply delete_insert_eq|]. now split. }
  destruct Hrun as (w1 & Hrun & Ht & Hh & Hl & Hi1 & Hd1).
  exists w1. split; [exact Hrun|]. split; [exact Ht|]. split; [exact Hh|].
  split; [exact Hl|].
  intros epoll_fd w2.
  assert (Hdef : g_event_context_default w2 = Ret None w2).
  { rewrite default_again by exact Hi1. cbn. now rewrite Hd1. }
  split; [exact Hdef|]. intros fd. split.
  - now rewrite add_poll_null, Hdef.
  - now rewrite remove_poll_null, Hdef.
Qed.

Lemma failed_default_context_stays_null_witness :
  exists w1,
    g_event_context_default (initial_world (-1)) = Ret None w1 /\
    trace w1 = [] ++ [EvCritical "epoll_create failed"] /\
    heap w1 = delete 1%nat ∅ /\
    leaked w1 = [] ++ [mkPrivate sizeof_GEpollContext 1] /\
    forall epoll_fd,
      let w2 := with_epoll_create w1 epoll_fd in
      g_event_context_default w2 = Ret None w2 /\
      forall fd,
        _g_event_context_add_poll None fd w2 = Fault /\
        _g_event_context_remove_poll None fd w2 = Fault.
Proof.
  apply (failed_default_context_stays_null (initial_world (-1))).
  - reflexivity.
  - cbn. lia.
Defined.

End GEventMoreFacts.

(** ** More on the translation of masks *)

Module GEpollMaskMoreFacts.
Import GTypes GTypesFacts GMain GEpoll GEpollMaskFacts.

Lemma flag_positions `{K : Platform} :
  single_bit_flags ->
  exists gi go gp ge gh ei eo ep ee eh,
    flags_at [gi; go; gp; ge; gh] [ei; eo; ep; ee; eh].
Proof.
  intros (g & e & Hflags).
  assert (Hlen : length g = 5%nat /\ length e = 5%nat).
  { destruct Hflags as (Hg & He & _).
    apply (f_equal (@length Z)) in Hg, He.
    rewrite length_map in Hg, He. cbn in Hg, He. lia. }
  destruct Hlen as [Hlg Hle].
  destruct g as [|gi [|go [|gp [|ge [|gh [|]]]]]]; try discriminate.
  destruct e as [|ei [|eo [|ep [|ee [|eh [|]]]]]]; try discriminate.
  now exists gi, go, gp, ge, gh, ei, eo, ep, ee, eh.
Qed.

Lemma linux_flags : @single_bit_flags linux.
Proof.
  exists [0; 2; 1; 3; 4], [0; 2; 1; 3; 4].
  split; [reflexivity|]. split; [reflexivity|].
  split; [repeat constructor; lia|]. split; [repeat constructor; lia|].
  split; repeat constructor; cbn; lia.
Qed.

(** X4.  An epoll mask translated to a portable mask and back keeps
    exactly its [EPOLLIN], [EPOLLOUT] and [EPOLLPRI]: what the backend asks
    the kernel for is what the kernel's answer is read for. *)
Theorem epoll_mask_comes_back (K : Platform) (epoll_events : Z) :
  single_bit_flags ->
  g_io_condition_to_epoll_events
    (g_io_condition_from_epoll_events epoll_events)
  = Z.land epoll_events (Z.lor (Z.lor EPOLLIN EPOLLOUT) EPOLLPRI).
Proof.
  intros Hflags.
  destruct (flag_positions Hflags)
    as (gi & go & gp & ge & gh & ei & eo & ep & ee & eh & Hat).
  destruct (flags_values gi go gp ge gh ei eo ep ee eh Hat) as
    ((HGI & HGO & HGP & HGE & HGH) & (HEI & HEO & HEP & HEE & HEH)).
  destruct (flags_ranges gi go gp ge gh ei eo ep ee eh Hat) as
    ((Rgi & Rgo & Rgp & Rge & Rgh) & (Rei & Reo & Rep & Ree & Reh)).
  destruct (flags_distinct gi go gp ge gh ei eo ep ee eh Hat) as
    ((D1 & D2 & D3 & D4 & D5 & D6 & D7 & D8 & D9 & D10) &
     (E1 & E2 & E3 & E4 & E5 & E6 & E7 & E8 & E9 & E10)).
  apply Z.bits_inj'. intros n Hn.
  rewrite (to_epoll_bits gi go gp ge gh ei eo ep ee eh Hat) by exact Hn.
  rewrite !(from_epoll_bits gi go gp ge gh ei eo ep ee eh Hat) by lia.
  rewrite HEI, HEO, HEP, Z.land_spec, !Z.lor_spec, !testbit_pow2 by lia.
  destruct (Z.eq_dec n ei) as [->|N1];
    [|destruct (Z.eq_dec n eo) as [->|N2];
      [|destruct (Z.eq_dec n ep) as [->|N3]]];
    decide_bits.
Qed.

Lemma epoll_mask_comes_back_witness :
  @g_io_condition_to_epoll_events linux
    (@g_io_condition_from_epoll_events linux 29)
  = Z.land 29 (Z.lor (Z.lor (@EPOLLIN linux) (@EPOLLOUT linux))
                     (@EPOLLPRI linux)).
Proof.
  apply (epoll_mask_comes_back linux 29). exact linux_flags.
Defined.

(** X5.  Both translations distribute over the union of masks: the mask
    of several interests together is the union of their masks. *)
Theorem translations_distribute_over_union (K : Platform) (a b : Z) :
  single_bit_flags ->
  g_io_condition_to_epoll_events (Z.lor a b)
  = Z.lor (g_io_condition_to_epoll_events a)
          (g_io_condition_to_epoll_events b) /\
  g_io_condition_from_epoll_events (Z.lor a b)
  = Z.lor (g_io_condition_from_epoll_events a)
          (g_io_condition_from_epoll_events b).
Proof.
  intros Hflags.
  destruct (flag_positions Hflags)
    as (gi & go & gp & ge & gh & ei & eo & ep & ee & eh & Hat).
  split; apply Z.bits_inj'; intros n Hn; rewrite Z.lor_spec.
  - rewrite !(to_epoll_bits gi go gp ge gh ei eo ep ee eh Hat) by exact Hn.
    rewrite !Z.lor_spec.
    destruct (n =? ei), (n =? eo), (n =? ep); simplify_bool;
      try reflexivity;
      repeat match goal with
             | |- context [Z.testbit ?x ?k] =>
                 destruct (Z.testbit x k); simplify_bool
             end; reflexivity.
  - rewrite !(from_epoll_bits gi go gp ge gh ei eo ep ee eh Hat) by exact Hn.
    rewrite !Z.lor_spec.
    destruct (n =? gi), (n =? go), (n =? gp), (n =? ge), (n =? gh);
      simplify_bool; try reflexivity;
      repeat match goal with
             | |- context [Z.testbit ?x ?k] =>
                 destruct (Z.testbit x k); simplify_bool
             end; reflexivity.
Qed.

Lemma translations_distribute_over_union_witness :
  @g_io_condition_to_epoll_events linux (Z.lor 1 6)
  = Z.lor (@g_io_condition_to_epoll_events linux 1)
          (@g_io_condition_to_epoll_events linux 6) /\
  @g_io_condition_from_epoll_events linux (Z.lor 1 6)
  = Z.lor (@g_io_condition_from_epoll_events linux 1)
          (@g_io_condition_from_epoll_events linux 6).
Proof.
  apply (translations_distribute_over_union linux 1 6). exact linux_flags.
Defined.

End GEpollMaskMoreFacts.

(** ** The epoll event context of [gevent-epoll.c] *)

Module GEpollEventFacts.
Import GTypes GTypesFacts GMain GEpoll GEpollMaskFacts GEpollMaskMoreFacts.
Import GEpollEvent.

Lemma wrap_guint_twice (x : Z) : wrap_guint (wrap_guint x) = wrap_guint x.
Proof. unfold wrap_guint. apply Z.mod_mod. lia. Qed.

Lemma wrapped_bits (x n : Z) :
  wrap_guint x = x -> Z.testbit x n = (n <? 32) && Z.testbit x n.
Proof. intros Hx. rewrite <- Hx at 1. apply testbit_wrap_guint. Qed.

Lemma lor_wrapped (x y : Z) :
  wrap_guint x = x -> wrap_guint y = y -> wrap_guint (Z.lor x y) = Z.lor x y.
Proof.
  intros Hx Hy. apply Z.bits_inj'. intros n Hn.
  rewrite testbit_wrap_guint, Z.lor_spec.
  rewrite (wrapped_bits x n Hx), (wrapped_bits y n Hy).
  now destruct (n <? 32).
Qed.

Lemma to_epoll_wrapped `{K : Platform} (io_cond : Z) :
  wrap_guint (g_io_condition_to_epoll_events io_cond)
  = g_io_condition_to_epoll_events io_cond.
Proof. unfold g_io_condition_to_epoll_events. apply wrap_guint_twice. Qed.

Lemma or_flag_wrapped (events g_events flag epoll_flag : Z) :
  wrap_guint events = events ->
  wrap_guint (if negb (Z.land g_events flag =? 0)
              then wrap_guint (Z.lor events epoll_flag) else events)
  = (if negb (Z.land g_events flag =? 0)
     then wrap_guint (Z.lor events epoll_flag) else events).
Proof.
  intros He. destruct (negb _); [apply wrap_guint_twice | exact He].
Qed.

Lemma or_flag_bits (events g_events pg pe n : Z) :
  0 <= pg -> 0 <= pe < 32 -> 0 <= n -> wrap_guint events = events ->
  Z.testbit (if negb (Z.land g_events (2 ^ pg) =? 0)
             then wrap_guint (Z.lor events (2 ^ pe)) else events) n
  = Z.testbit events n || (Z.testbit g_events pg && (pe =? n)).
Proof.
  intros Hpg Hpe Hn He. rewrite land_pow2_eqb_0 by exact Hpg.
  destruct (Z.testbit g_events pg); cbn [negb andb];
    [|now rewrite orb_false_r].
  rewrite testbit_wrap_guint, Z.lor_spec, testbit_pow2 by lia.
  rewrite (wrapped_bits events n He).
  destruct (Z.eqb_spec pe n) as [->|Hne].
  - assert (Hlt : (n <? 32) = true) by (apply Z.ltb_lt; lia).
    rewrite Hlt. reflexivity.
  - now destruct (n <? 32), (Z.testbit events n).
Qed.

Section Masks.
Context `{K : Platform}.
Variables gi go gp ge gh ei eo ep ee eh : Z.
Hypothesis Hflags : flags_at [gi; go; gp; ge; gh] [ei; eo; ep; ee; eh].

(** One turn of the loop of [get_epoll_event_mask] adds the epoll mask of
    the element's interest. *)
Lemma mask_step (events g_events : Z) :
  wrap_guint events = events ->
  (if (G_IO_IN =? EPOLLIN) && (G_IO_OUT =? EPOLLOUT)
      && (G_IO_PRI =? EPOLLPRI)
   then
     wrap_guint
       (Z.lor events
          (Z.land g_events (Z.lor (Z.lor G_IO_IN G_IO_OUT) G_IO_PRI)))
   else
     let events :=
       if negb (Z.land g_events G_IO_IN =? 0)
       then wrap_guint (Z.lor events EPOLLIN) else events in
     let events :=
       if negb (Z.land g_events G_IO_OUT =? 0)
       then wrap_guint (Z.lor events EPOLLOUT) else events in
     let events :=
       if negb (Z.land g_events G_IO_PRI =? 0)
       then wrap_guint (Z.lor events EPOLLPRI) else events in
     events)
  = Z.lor events (g_io_condition_to_epoll_events g_events).
Proof.
  intros He.
  destruct (flags_values gi go gp ge gh ei eo ep ee eh Hflags) as
    ((HGI & HGO & HGP & HGE & HGH) & (HEI & HEO & HEP & HEE & HEH)).
  destruct (flags_ranges gi go gp ge gh ei eo ep ee eh Hflags) as
    ((Rgi & Rgo & Rgp & Rge & Rgh) & (Rei & Reo & Rep & Ree & Reh)).
  destruct (flags_distinct gi go gp ge gh ei eo ep ee eh Hflags) as
    ((D1 & D2 & D3 & D4 & D5 & D6 & D7 & D8 & D9 & D10) &
     (E1 & E2 & E3 & E4 & E5 & E6 & E7 & E8 & E9 & E10)).
  apply Z.bits_inj'. intros n Hn.
  rewrite Z.lor_spec.
  rewrite (to_epoll_bits gi go gp ge gh ei eo ep ee eh Hflags) by exact Hn.
  rewrite HGI, HGO, HGP, HEI, HEO, HEP.
  rewrite !pow2_eqb by lia.
  destruct ((gi =? ei) && (go =? eo) && (gp =? ep)) eqn:Hsame.
  - apply andb_prop in Hsame as [Hsame H3].
    apply andb_prop in Hsame as [H1 H2].
    apply Z.eqb_eq in H1, H2, H3. subst ei eo ep.
    rewrite testbit_wrap_guint, !Z.lor_spec, Z.land_spec, !Z.lor_spec,
      !testbit_pow2 by lia.
    rewrite (wrapped_bits events n He).
    destruct (Z.eq_dec n gi) as [->|N1];
      [|destruct (Z.eq_dec n go) as [->|N2];
        [|destruct (Z.eq_dec n gp) as [->|N3]]].
    + replace (gi <? 32) with true by (symmetry; apply Z.ltb_lt; lia).
      decide_bits.
    + replace (go <? 32) with true by (symmetry; apply Z.ltb_lt; lia).
      decide_bits.
    + replace (gp <? 32) with true by (symmetry; apply Z.ltb_lt; lia).
      decide_bits.
    + decide_bits.
  - clear Hsame. cbv zeta.
    rewrite !or_flag_bits
      by first [ exact Hn
               | repeat apply or_flag_wrapped; exact He
               | lia ].
    rewrite (Z.eqb_sym ei n), (Z.eqb_sym eo n), (Z.eqb_sym ep n).
    destruct (n =? ei), (n =? eo), (n =? ep), (Z.testbit events n),
      (Z.testbit g_events gi), (Z.testbit g_events go),
      (Z.testbit g_events gp); reflexivity.
Qed.

Lemma mask_from_is_union (mem : memory) : forall fds events,
  readable mem fds -> wrap_guint events = events ->
  get_epoll_event_mask_from mem fds events
  = Some (Z.lor events (union_of_interests mem fds)).
Proof.
  induction fds as [|data next IH]; intros events Hread He.
  - cbn. now rewrite Z.lor_0_r.
  - apply List.Forall_cons_iff in Hread as [[pollfd Hdata] Hnext].
    cbn [get_epoll_event_mask_from union_of_interests]. rewrite Hdata.
    cbv zeta. rewrite mask_step by exact He.
    rewrite IH; [now rewrite Z.lor_assoc | exact Hnext |].
    apply lor_wrapped; [exact He | apply to_epoll_wrapped].
Qed.

End Masks.

Lemma mask_is_union `{K : Platform} (mem : memory) (fds : list addr) :
  single_bit_flags -> readable mem fds ->
  get_epoll_event_mask mem fds = Some (union_of_interests mem fds).
Proof.
  intros Hflags Hread.
  destruct (flag_positions Hflags)
    as (gi & go & gp & ge & gh & ei & eo & ep & ee & eh & Hat).
  unfold get_epoll_event_mask.
  now rewrite (mask_from_is_union gi go gp ge gh ei eo ep ee eh Hat).
Qed.

(** A memory with two [GPollFD]s for descriptor 5, one that wants [G_IO_IN]
    and one that wants [G_IO_OUT], as Linux numbers them. *)
Lemma two_records_readable :
  readable (<[1%nat := mkPollFD 5 1 0]> (<[2%nat := mkPollFD 5 4 0]> ∅))
           [2%nat; 1%nat].
Proof. repeat constructor; eexists; reflexivity. Qed.

(** X6.  [get_epoll_event_mask] and [g_io_condition_to_epoll_events] of
    [gmain-epoll.c] agree: the mask of a list of [GPollFD]s is the union of
    the epoll masks of their interests, in either branch of the [#if]. *)
Theorem get_epoll_event_mask_is_union (K : Platform) (mem : memory)
    (fds : list addr) :
  single_bit_flags -> readable mem fds ->
  get_epoll_event_mask mem fds = Some (union_of_interests mem fds).
Proof. apply mask_is_union. Qed.

Lemma get_epoll_event_mask_is_union_witness :
  @get_epoll_event_mask linux
    (<[1%nat := mkPollFD 5 1 0]> (<[2%nat := mkPollFD 5 4 0]> ∅))
    [2%nat; 1%nat]
  = Some (@union_of_interests linux
            (<[1%nat := mkPollFD 5 1 0]> (<[2%nat := mkPollFD 5 4 0]> ∅))
            [2%nat; 1%nat]).
Proof.
  apply (get_epoll_event_mask_is_union linux).
  - exact linux_flags.
  - exact two_records_readable.
Defined.


Lemma lookup_no_record (context : GEpollContext) (key : Z) :
  no_empty_list context ->
  g_hash_table_lookup (poll_records context) key = [] ->
  poll_records context !! key = None.
Proof.
  intros Hne Hl. unfold g_hash_table_lookup in Hl.
  destruct (poll_records context !! key) as [l|] eqn:Hk; [|reflexivity].
  cbn in Hl. subst l. now destruct (Hne key).
Qed.

Lemma lookup_records (context : GEpollContext) (key : Z) (p : addr)
    (l : list addr) :
  g_hash_table_lookup (poll_records context) key = p :: l ->
  poll_records context !! key = Some (p :: l).
Proof.
  unfold g_hash_table_lookup.
  destruct (poll_records context !! key) as [l'|]; cbn; congruence.
Qed.

Lemma lookup_inserted (table : gmap Z (list addr)) (key : Z)
    (l : list addr) :
  g_hash_table_lookup (<[key := l]> table) key = l.
Proof. unfold g_hash_table_lookup. now rewrite lookup_insert_eq. Qed.

Lemma g_slist_remove_head (p : addr) (l : list addr) :
  g_slist_remove (p :: l) p = l.
Proof. cbn. now rewrite Nat.eqb_refl. Qed.

Lemma g_slist_remove_absent (p : addr) (l : list addr) :
  ~ In p l -> g_slist_remove l p = l.
Proof.
  induction l as [|q l IH]; intros Hin; [reflexivity|]. cbn.
  destruct (Nat.eqb_spec q p) as [->|Hne]; [destruct Hin; now left|].
  rewrite IH; [reflexivity|]. intros H. apply Hin. now right.
Qed.

Lemma g_slist_remove_readable (mem : memory) (p : addr) (l : list addr) :
  readable mem l -> readable mem (g_slist_remove l p).
Proof.
  unfold readable. induction l as [|q l IH]; intros Hl; [constructor|].
  apply List.Forall_cons_iff in Hl as [Hq Hl]. cbn.
  destruct (Nat.eqb q p); [exact Hl|]. constructor; [exact Hq|now apply IH].
Qed.

(** X7.  Registering a [GPollFD] and removing it again gives back the
    table as it was.  On the way the kernel is told, first, the union of
    the interests of the new record and the records the descriptor had, by
    [EPOLL_CTL_ADD] if it had none and by [EPOLL_CTL_MOD] otherwise; then
    [EPOLL_CTL_DEL] if none is left and otherwise, by [EPOLL_CTL_MOD], the
    union of the interests that are left. *)
Theorem add_then_remove_poll_restores (K : Platform) (debug : bool)
    (mem : memory) (context : GEpollContext) (fd : addr) (pollfd : GPollFD)
    (added removed : ctl_answer) :
  single_bit_flags -> no_empty_list context ->
  mem !! fd = Some pollfd -> 0 <= GMain.fd pollfd ->
  readable mem
    (g_hash_table_lookup (poll_records context) (GMain.fd pollfd)) ->
  let key := GMain.fd pollfd in
  let old := g_hash_table_lookup (poll_records context) key in
  let mask :=
    g_io_condition_to_epoll_events (wrap_gushort (GMain.events pollfd)) in
  exists between,
    g_epoll_context_add_poll debug mem context fd added
    = Some (between,
            EpollCtl (match old with
                      | [] => EPOLL_CTL_ADD
                      | _ :: _ => EPOLL_CTL_MOD
                      end)
                     key
                     (Some (Z.lor mask (union_of_interests mem old),
                            fd :: old))
            :: epoll_ctl_checked debug added) /\
    poll_records between !! key = Some (fd :: old) /\
    g_epoll_context_remove_poll debug mem between fd removed
    = Some (context,
            match old with
            | [] => EpollCtl EPOLL_CTL_DEL key None
            | _ :: _ =>
                EpollCtl EPOLL_CTL_MOD key
                         (Some (union_of_interests mem old, old))
            end
            :: epoll_ctl_checked debug removed).
Proof.
  intros Hflags Hne Hfd Hpos Hread key old mask.
  change (readable mem old) in Hread.
  assert (Hold : g_hash_table_lookup (poll_records context) key = old)
    by reflexivity.
  clearbody old.
  assert (Hread' : readable mem (fd :: old)).
  { constructor; [now exists pollfd | exact Hread]. }
  eexists. split; [|split].
  - unfold g_epoll_context_add_poll. rewrite Hfd.
    apply Z.geb_le in Hpos. rewrite Hpos. cbv zeta.
    fold key. rewrite Hold.
    rewrite (mask_is_union mem (fd :: old) Hflags Hread').
    cbn [union_of_interests]. rewrite Hfd. reflexivity.
  - cbn. apply lookup_insert_eq.
  - unfold g_epoll_context_remove_poll. rewrite Hfd. cbv zeta.
    fold key. cbn [poll_records epoll_fd].
    rewrite !lookup_inserted, !g_slist_remove_head.
    destruct context as [efd table]. cbn [poll_records epoll_fd] in *.
    destruct old as [|p l].
    + rewrite delete_insert_id; [reflexivity|].
      now apply (lookup_no_record (mkContext efd table)).
    + rewrite (mask_is_union mem (p :: l) Hflags Hread).
      rewrite insert_insert_eq, insert_id; [reflexivity|].
      now apply (lookup_records (mkContext efd table)).
Qed.

Lemma empty_table_no_empty_list (efd : Z) : no_empty_list (mkContext efd ∅).
Proof. intros key. cbn. now rewrite lookup_empty. Qed.

Lemma add_then_remove_poll_restores_witness :
  exists between,
    @g_epoll_context_add_poll linux true {[1%nat := mkPollFD 5 1 0]}
      (mkContext 7 ∅) 1%nat (mkCtlAnswer 0 0)
    = Some (between,
            [EpollCtl EPOLL_CTL_ADD 5 (Some (1, [1%nat]))]) /\
    poll_records between !! 5 = Some [1%nat] /\
    @g_epoll_context_remove_poll linux true {[1%nat := mkPollFD 5 1 0]}
      between 1%nat (mkCtlAnswer 0 0)
    = Some (mkContext 7 ∅, [EpollCtl EPOLL_CTL_DEL 5 None]).
Proof.
  assert (Hfd : ({[1%nat := mkPollFD 5 1 0]} : memory) !! 1%nat
                = Some (mkPollFD 5 1 0)) by reflexivity.
  assert (Hpos : 0 <= GMain.fd (mkPollFD 5 1 0)) by (cbn; lia).
  assert (Hread : readable {[1%nat := mkPollFD 5 1 0]}
                    (g_hash_table_lookup (poll_records (mkContext 7 ∅))
                       (GMain.fd (mkPollFD 5 1 0)))) by constructor.
  exact (add_then_remove_poll_restores linux true {[1%nat := mkPollFD 5 1 0]}
           (mkContext 7 ∅) 1%nat (mkPollFD 5 1 0) (mkCtlAnswer 0 0)
           (mkCtlAnswer 0 0) linux_flags (empty_table_no_empty_list 7)
           Hfd Hpos Hread).
Defined.

(** X8.  The table never holds a descriptor with no record: a context with
    that property keeps it through [add_poll] and [remove_poll], so the
    NULL that [g_hash_table_lookup] answers means that the descriptor has
    no record. *)
Theorem poll_records_have_no_empty_list (K : Platform) (debug : bool)
    (mem : memory) (context after : GEpollContext) (fd : addr)
    (answer : ctl_answer) (calls : list call) :
  no_empty_list context ->
  g_epoll_context_add_poll debug mem context fd answer = Some (after, calls)
  \/ g_epoll_context_remove_poll debug mem context fd answer
     = Some (after, calls) ->
  no_empty_list after.
Proof.
  intros Hne [Hrun|Hrun].
  - unfold g_epoll_context_add_poll in Hrun.
    destruct (mem !! fd) as [pollfd|]; [|discriminate].
    destruct (GMain.fd pollfd >=? 0).
    + cbv zeta in Hrun.
      destruct (get_epoll_event_mask mem _); [|discriminate].
      injection Hrun as <- _. intros key. cbn.
      destruct (Z.eq_dec key (GMain.fd pollfd)) as [->|Hk].
      * rewrite lookup_insert_eq. discriminate.
      * rewrite lookup_insert_ne by congruence. apply Hne.
    + injection Hrun as <- _. exact Hne.
  - unfold g_epoll_context_remove_poll in Hrun.
    destruct (mem !! fd) as [pollfd|]; [|discriminate].
    cbv zeta in Hrun.
    destruct (g_slist_remove _ fd) as [|p l] eqn:Hrest.
    + injection Hrun as <- _. intros key. cbn.
      destruct (Z.eq_dec key (GMain.fd pollfd)) as [->|Hk].
      * rewrite lookup_delete_eq. discriminate.
      * rewrite lookup_delete_ne by congruence. apply Hne.
    + destruct (get_epoll_event_mask mem _); [|discriminate].
      injection Hrun as <- _. intros key. cbn.
      destruct (Z.eq_dec key (GMain.fd pollfd)) as [->|Hk].
      * rewrite lookup_insert_eq. discriminate.
      * rewrite lookup_insert_ne by congruence. apply Hne.
Qed.

Lemma poll_records_have_no_empty_list_witness :
  no_empty_list
    (mkContext 7 (<[5 := [1%nat]]> ∅)).
Proof.
  apply (poll_records_have_no_empty_list linux true
           {[1%nat := mkPollFD 5 1 0]} (mkContext 7 ∅)
           (mkContext 7 (<[5 := [1%nat]]> ∅)) 1%nat (mkCtlAnswer 0 0)
           [EpollCtl EPOLL_CTL_ADD 5 (Some (1, [1%nat]))]).
  - apply empty_table_no_empty_list.
  - left. reflexivity.
Defined.

(** X9.  [remove_poll] does not check that the [GPollFD] was registered.
    For one that is not among the records of its descriptor the table stays
    as it is and the kernel is still called: with [EPOLL_CTL_DEL] if the
    descriptor has no record at all, and otherwise with [EPOLL_CTL_MOD] and
    the union of the interests of the records it has. *)
Theorem remove_poll_of_unregistered (K : Platform) (debug : bool)
    (mem : memory) (context : GEpollContext) (fd : addr) (pollfd : GPollFD)
    (answer : ctl_answer) :
  single_bit_flags -> no_empty_list context ->
  mem !! fd = Some pollfd ->
  readable mem
    (g_hash_table_lookup (poll_records context) (GMain.fd pollfd)) ->
  ~ In fd (g_hash_table_lookup (poll_records context) (GMain.fd pollfd)) ->
  let key := GMain.fd pollfd in
  let old := g_hash_table_lookup (poll_records context) key in
  g_epoll_context_remove_poll debug mem context fd answer
  = Some (context,
          match old with
          | [] => EpollCtl EPOLL_CTL_DEL key None
          | _ :: _ =>
              EpollCtl EPOLL_CTL_MOD key
                       (Some (union_of_interests mem old, old))
          end
          :: epoll_ctl_checked debug answer).
Proof.
  intros Hflags Hne Hfd Hread Hnot key old.
  change (readable mem old) in Hread. change (~ In fd old) in Hnot.
  assert (Hold : g_hash_table_lookup (poll_records context) key = old)
    by reflexivity.
  clearbody old.
  unfold g_epoll_context_remove_poll. rewrite Hfd. cbv zeta.
  fold key. rewrite Hold.
  rewrite (g_slist_remove_absent fd old Hnot).
  destruct context as [efd table]. cbn [poll_records epoll_fd] in *.
  destruct old as [|p l].
  - rewrite delete_id; [reflexivity|].
    now apply (lookup_no_record (mkContext efd table)).
  - rewrite (mask_is_union mem (p :: l) Hflags Hread).
    rewrite insert_id; [reflexivity|].
    now apply (lookup_records (mkContext efd table)).
Qed.

Lemma remove_poll_of_unregistered_witness :
  @g_epoll_context_remove_poll linux false {[1%nat := mkPollFD 5 1 0]}
    (mkContext 7 ∅) 1%nat (mkCtlAnswer (-1) 2)
  = Some (mkContext 7 ∅, [EpollCtl EPOLL_CTL_DEL 5 None]).
Proof.
  assert (Hfd : ({[1%nat := mkPollFD 5 1 0]} : memory) !! 1%nat
                = Some (mkPollFD 5 1 0)) by reflexivity.
  assert (Hread : readable {[1%nat := mkPollFD 5 1 0]}
                    (g_hash_table_lookup (poll_records (mkContext 7 ∅))
                       (GMain.fd (mkPollFD 5 1 0)))) by constructor.
  assert (Hnot : ~ In 1%nat
                    (g_hash_table_lookup (poll_records (mkContext 7 ∅))
                       (GMain.fd (mkPollFD 5 1 0)))) by (intros []).
  exact (remove_poll_of_unregistered linux false {[1%nat := mkPollFD 5 1 0]}
           (mkContext 7 ∅) 1%nat (mkPollFD 5 1 0) (mkCtlAnswer (-1) 2)
           linux_flags (empty_table_no_empty_list 7) Hfd Hread Hnot).
Defined.

End GEpollEventFacts.

(** ** Changes to the descriptors of [gmain-poll.c] *)

Module GPollChangesFacts.
Import GTypes GTypesFacts GMain GPollRecords GPollRecordsFacts GPollChanges.

Lemma unlink_first (the_fd : Z) (r : GPollRec) (after : list GPollRec) :
  forall before,
  fd r = the_fd -> Forall (fun x => fd x <> the_fd) before ->
  unlink (before ++ r :: after) the_fd = Some (before ++ after).
Proof.
  induction before as [|b before IH]; intros Hr Hb; cbn.
  - apply Z.eqb_eq in Hr. now rewrite Hr.
  - apply Forall_cons in Hb as [Hne Hb]. apply Z.eqb_neq in Hne.
    rewrite Hne. now rewrite IH.
Qed.

Lemma update_first (the_fd events priority : Z) (r : GPollRec)
    (after : list GPollRec) : forall before,
  fd r = the_fd -> Forall (fun x => fd x <> the_fd) before ->
  update (before ++ r :: after) the_fd events priority
  = Some (before ++ mkPollRec the_fd priority events :: after).
Proof.
  induction before as [|b before IH]; intros Hr Hb; cbn.
  - rewrite <- Hr at 1. rewrite Z.eqb_refl. now rewrite Hr.
  - apply Forall_cons in Hb as [Hne Hb]. apply Z.eqb_neq in Hne.
    rewrite Hne. now rewrite IH.
Qed.

Lemma ascending_without (before after : list GPollRec) (r : GPollRec) :
  ascending (before ++ r :: after) -> ascending (before ++ after).
Proof.
  intros H. apply ascending_app in H as (Hb & Hra & Hall).
  apply ascending_app. split; [exact Hb|]. split.
  - unfold ascending in *. now inversion Hra.
  - eapply Forall_impl; [exact Hall|]. cbn. intros a Ha.
    now apply Forall_cons in Ha as [_ Ha].
Qed.

(** X10.  [remove_fd] takes out the first record of the descriptor and
    nothing else, in both revisions: the records before and after it stay
    in their order, so the list stays sorted; the count goes down by one;
    the baseline poller reports nothing, and the poll context sets
    [poll_changed] and wakes the scheduler after it has let go of the
    lock. *)
Theorem remove_fd_takes_first_record
    (baseline : GBaselinePoller.GBaselinePollerData)
    (context : GPollContext.GPollLoopBackend) (the_fd : Z)
    (before after : list GPollRec) (r : GPollRec) :
  fd r = the_fd -> Forall (fun x => fd x <> the_fd) before ->
  GBaselinePoller.poll_records baseline = before ++ r :: after ->
  GPollContext.poll_records context = before ++ r :: after ->
  GBaselinePoller.g_baseline_poller_remove_fd baseline the_fd
  = (GBaselinePoller.mkBackend
       (before ++ after)
       (wrap_guint (GBaselinePoller.n_poll_records baseline - 1))
       (GBaselinePoller.cached_poll_array baseline)
       (GBaselinePoller.cached_poll_array_size baseline)
       (GBaselinePoller.poll_func baseline), []) /\
  GPollContext.g_poll_context_remove_fd the_fd context
  = (true,
     GPollContext.mkBackend
       (before ++ after)
       (wrap_guint (GPollContext.n_poll_records context - 1))
       (GPollContext.cached_poll_array context)
       (GPollContext.cached_poll_array_size context)
       true (GPollContext.poll_func context),
     [(EvLock, before ++ r :: after); (EvUnlock, before ++ after);
      (EvWakeup, before ++ after)]) /\
  (ascending (before ++ r :: after) -> ascending (before ++ after)).
Proof.
  intros Hr Hb Hbase Hctx. split; [|split].
  - unfold GBaselinePoller.g_baseline_poller_remove_fd.
    now rewrite Hbase, (unlink_first the_fd r after before Hr Hb).
  - unfold GPollContext.g_poll_context_remove_fd, GPollContext.bind,
      GPollContext.get, GPollContext.call. cbn.
    rewrite Hctx, (unlink_first the_fd r after before Hr Hb). reflexivity.
  - apply ascending_without.
Qed.

Lemma remove_fd_takes_first_record_witness :
  GBaselinePoller.g_baseline_poller_remove_fd
    (GBaselinePoller.mkBackend
       [mkPollRec 3 0 1; mkPollRec 4 0 1; mkPollRec 4 2 4] 3 [] 0
       GBaselinePoller.nothing_ready) 4
  = (GBaselinePoller.mkBackend [mkPollRec 3 0 1; mkPollRec 4 2 4] 2 [] 0
       GBaselinePoller.nothing_ready, []).
Proof.
  apply (remove_fd_takes_first_record
           (GBaselinePoller.mkBackend
              [mkPollRec 3 0 1; mkPollRec 4 0 1; mkPollRec 4 2 4] 3 [] 0
              GBaselinePoller.nothing_ready)
           (GPollContext.mkBackend
              [mkPollRec 3 0 1; mkPollRec 4 0 1; mkPollRec 4 2 4] 3 [] 0
              false GBaselinePoller.nothing_ready)
           4 [mkPollRec 3 0 1] [mkPollRec 4 2 4] (mkPollRec 4 0 1)).
  - reflexivity.
  - repeat constructor. cbn. lia.
  - reflexivity.
  - reflexivity.
Defined.

(** X11.  [modify_fd] rewrites the first record of the descriptor where it
    stands, in both revisions: it does not move the record to the place of
    its new priority, so a sorted list stays sorted exactly when the new
    priority fits between the records before and after it. *)
Theorem modify_fd_rewrites_in_place
    (baseline : GBaselinePoller.GBaselinePollerData)
    (context : GPollContext.GPollLoopBackend)
    (the_fd events priority : Z)
    (before after : list GPollRec) (r : GPollRec) :
  fd r = the_fd -> Forall (fun x => fd x <> the_fd) before ->
  GBaselinePoller.poll_records baseline = before ++ r :: after ->
  GPollContext.poll_records context = before ++ r :: after ->
  ascending (before ++ r :: after) ->
  let records := before ++ mkPollRec the_fd priority events :: after in
  GBaselinePoller.g_baseline_poller_modify_fd baseline the_fd events priority
  = (GBaselinePoller.mkBackend
       records (GBaselinePoller.n_poll_records baseline)
       (GBaselinePoller.cached_poll_array baseline)
       (GBaselinePoller.cached_poll_array_size baseline)
       (GBaselinePoller.poll_func baseline), []) /\
  GPollContext.g_poll_context_modify_fd the_fd events priority context
  = (true,
     GPollContext.mkBackend
       records (GPollContext.n_poll_records context)
       (GPollContext.cached_poll_array context)
       (GPollContext.cached_poll_array_size context)
       true (GPollContext.poll_func context),
     [(EvLock, before ++ r :: after); (EvUnlock, records);
      (EvWakeup, records)]) /\
  (ascending records <->
   Forall (fun x => GPollRecords.priority x <= priority) before /\
   Forall (fun x => priority <= GPollRecords.priority x) after).
Proof.
  intros Hr Hb Hbase Hctx Hasc records. split; [|split].
  - unfold GBaselinePoller.g_baseline_poller_modify_fd.
    now rewrite Hbase, (update_first the_fd events priority r after before).
  - unfold GPollContext.g_poll_context_modify_fd, GPollContext.bind,
      GPollContext.get, GPollContext.call. cbn.
    rewrite Hctx, (update_first the_fd events priority r after before)
      by assumption.
    reflexivity.
  - apply ascending_app in Hasc as (Hasc_b & Hasc_ra & Hall).
    assert (Hasc_a : ascending after)
      by (unfold ascending in *; now inversion Hasc_ra).
    assert (Hba : Forall (fun a => Forall (fun b => GPollRecords.priority a
                                            <= GPollRecords.priority b)
                                     after) before).
    { eapply Forall_impl; [exact Hall|]. cbn. intros a Ha.
      now apply Forall_cons in Ha as [_ Ha]. }
    unfold records. rewrite ascending_app. split.
    + intros (_ & Hnew & Hall').
      split.
      * eapply Forall_impl; [exact Hall'|]. cbn. intros a Ha.
        now apply Forall_cons in Ha as [Ha _].
      * unfold ascending in Hnew. now inversion Hnew.
    + intros [Hle_b Hle_a]. split; [exact Hasc_b|]. split.
      * constructor; [exact Hasc_a | exact Hle_a].
      * apply Forall_forall. intros a Ha. constructor.
        -- cbn. now apply (proj1 (Forall_forall _ _) Hle_b).
        -- now apply (proj1 (Forall_forall _ _) Hba).
Qed.

Lemma modify_fd_rewrites_in_place_witness :
  GBaselinePoller.g_baseline_poller_modify_fd
    (GBaselinePoller.mkBackend
       [mkPollRec 3 0 1; mkPollRec 4 1 1; mkPollRec 5 2 4] 3 [] 0
       GBaselinePoller.nothing_ready) 4 1 7
  = (GBaselinePoller.mkBackend
       [mkPollRec 3 0 1; mkPollRec 4 7 1; mkPollRec 5 2 4] 3 [] 0
       GBaselinePoller.nothing_ready, []) /\
  ~ ascending [mkPollRec 3 0 1; mkPollRec 4 7 1; mkPollRec 5 2 4].
Proof.
  destruct (modify_fd_rewrites_in_place
              (GBaselinePoller.mkBackend
                 [mkPollRec 3 0 1; mkPollRec 4 1 1; mkPollRec 5 2 4] 3 [] 0
                 GBaselinePoller.nothing_ready)
              (GPollContext.mkBackend
                 [mkPollRec 3 0 1; mkPollRec 4 1 1; mkPollRec 5 2 4] 3 [] 0
                 false GBaselinePoller.nothing_ready)
              4 1 7 [mkPollRec 3 0 1] [mkPollRec 5 2 4] (mkPollRec 4 1 1))
    as (Hbase & _ & Hsorted).
  - reflexivity.
  - repeat constructor. cbn. lia.
  - reflexivity.
  - reflexivity.
  - repeat constructor; cbn; lia.
  - split; [exact Hbase|]. intros Hasc. apply Hsorted in Hasc as [_ Hafter].
    apply Forall_cons in Hafter as [Hle _]. cbn in Hle. lia.
Defined.


Lemma length_link (records : list GPollRec) (newrec : GPollRec) :
  length (link records newrec) = S (length records).
Proof.
  destruct (link_spec records newrec) as (before & after & -> & -> & _).
  rewrite !length_app. cbn. lia.
Qed.

Lemma length_unlink (the_fd : Z) : forall records records',
  unlink records the_fd = Some records' ->
  length records = S (length records').
Proof.
  induction records as [|r rest IH]; intros records' H; [discriminate|].
  cbn in H. destruct (fd r =? the_fd).
  - now injection H as <-.
  - destruct (unlink rest the_fd) as [rest'|]; [|discriminate].
    injection H as <-. cbn. now rewrite (IH rest').
Qed.

Lemma length_update (the_fd events priority : Z) : forall records records',
  update records the_fd events priority = Some records' ->
  length records' = length records.
Proof.
  induction records as [|r rest IH]; intros records' H; [discriminate|].
  cbn in H. destruct (fd r =? the_fd).
  - now injection H as <-.
  - destruct (update rest the_fd events priority) as [rest'|];
      [|discriminate].
    injection H as <-. cbn. now rewrite (IH rest').
Qed.

Lemma wrap_guint_succ (n : nat) :
  wrap_guint (wrap_guint (Z.of_nat n) + 1) = wrap_guint (Z.of_nat (S n)).
Proof.
  unfold wrap_guint. rewrite Z.add_mod_idemp_l by lia. f_equal. lia.
Qed.

Lemma wrap_guint_pred (n : nat) :
  wrap_guint (wrap_guint (Z.of_nat (S n)) - 1) = wrap_guint (Z.of_nat n).
Proof.
  unfold wrap_guint.
  replace (Z.of_nat (S n) mod 4294967296 - 1)
    with (Z.of_nat (S n) mod 4294967296 + (-1)) by lia.
  rewrite Z.add_mod_idemp_l by lia. f_equal. lia.
Qed.

Lemma change_in_step (c : change) baseline context :
  in_step baseline context ->
  in_step (fst (baseline_change baseline c))
          (snd (fst (context_change c context))).
Proof.
  intros (Hrec & Hnb & Hnc). destruct c as [fd ev pr|fd ev pr|fd].
  - cbn. unfold in_step. cbn. rewrite Hrec, Hnb, Hnc, length_link.
    now rewrite wrap_guint_succ.
  - cbn -[update]. unfold GBaselinePoller.g_baseline_poller_modify_fd,
      GPollContext.g_poll_context_modify_fd, GPollContext.bind,
      GPollContext.get, GPollContext.call. cbn -[update]. rewrite Hrec.
    destruct (update (GBaselinePoller.poll_records baseline) fd ev pr)
      as [records'|] eqn:Hu; unfold in_step; cbn.
    + rewrite (length_update fd ev pr _ _ Hu). auto.
    + auto.
  - cbn -[unlink]. unfold GBaselinePoller.g_baseline_poller_remove_fd,
      GPollContext.g_poll_context_remove_fd, GPollContext.bind,
      GPollContext.get, GPollContext.call. cbn -[unlink]. rewrite Hrec.
    destruct (unlink (GBaselinePoller.poll_records baseline) fd)
      as [records'|] eqn:Hu; unfold in_step; cbn.
    + rewrite Hnb, Hnc, (length_unlink fd _ _ Hu), wrap_guint_pred. auto.
    + auto.
Qed.

Lemma changes_in_step (changes : list change) : forall baseline context,
  in_step baseline context ->
  in_step (baseline_changes baseline changes)
          (snd (fst (context_changes changes context))).
Proof.
  induction changes as [|c rest IH]; intros baseline context Hstep;
    [exact Hstep|].
  cbn [baseline_changes fold_left context_changes].
  unfold GPollContext.bind.
  pose proof (change_in_step c baseline context Hstep) as Hnext.
  destruct (context_change c context) as [[answer context1] t1].
  specialize (IH _ _ Hnext). cbn [fst snd] in IH.
  change (fold_left (fun b c0 => fst (baseline_change b c0)) rest
            (fst (baseline_change baseline c)))
    with (baseline_changes (fst (baseline_change baseline c)) rest).
  destruct (context_changes rest context1) as [[u context2] t2].
  exact IH.
Qed.

(** X12.  Whatever descriptors are added, modified and removed, starting
    from a new backend, the two revisions hold the same records in the same
    order, and [n_poll_records] is the number of the records (as a
    [guint]): a removal or a modification that finds no record leaves the
    count alone. *)
Theorem changes_keep_the_count (func : GPollFunc) (changes : list change) :
  let baseline :=
    baseline_changes (GBaselinePoller._g_baseline_poller_new func) changes in
  let context :=
    snd (fst (context_changes changes
                (GPollContext.g_poll_context_create func))) in
  GPollContext.poll_records context = GBaselinePoller.poll_records baseline /\
  GBaselinePoller.n_poll_records baseline
  = wrap_guint (Z.of_nat (length (GBaselinePoller.poll_records baseline))) /\
  GPollContext.n_poll_records context
  = wrap_guint (Z.of_nat (length (GBaselinePoller.poll_records baseline))).
Proof.
  apply (changes_in_step changes). unfold in_step. cbn. auto.
Qed.

Lemma change_ascending (c : change) baseline context :
  is_modify c = false ->
  ascending (GBaselinePoller.poll_records baseline) ->
  GPollContext.poll_records context = GBaselinePoller.poll_records baseline ->
  ascending (GBaselinePoller.poll_records (fst (baseline_change baseline c))).
Proof.
  intros Hc Hasc Hrec. destruct c as [fd ev pr|fd ev pr|fd];
    [| discriminate |].
  - cbn. now apply link_ascending.
  - cbn -[unlink]. unfold GBaselinePoller.g_baseline_poller_remove_fd.
    pose proof (GPollFacts.unlink_spec fd (GBaselinePoller.poll_records baseline)) as H.
    destruct (unlink (GBaselinePoller.poll_records baseline) fd)
      as [records'|]; cbn; [|exact Hasc].
    destruct H as (before & r & after & Hrecs & _ & _ & ->).
    rewrite Hrecs in Hasc. now apply ascending_without in Hasc.
Qed.

(** X13.  Additions and removals, in any order and number, keep the
    records of both revisions sorted by priority. *)
Theorem adds_and_removes_keep_order (func : GPollFunc)
    (changes : list change) :
  forallb (fun c => negb (is_modify c)) changes = true ->
  ascending
    (GBaselinePoller.poll_records
       (baseline_changes (GBaselinePoller._g_baseline_poller_new func)
                         changes)) /\
  ascending
    (GPollContext.poll_records
       (snd (fst (context_changes changes
                    (GPollContext.g_poll_context_create func))))).
Proof.
  intros Hno.
  assert (Hgen : forall baseline context,
            in_step baseline context ->
            ascending (GBaselinePoller.poll_records baseline) ->
            ascending (GBaselinePoller.poll_records
                         (baseline_changes baseline changes))).
  { induction changes as [|c rest IH]; intros baseline context Hstep Hasc;
      [exact Hasc|].
    cbn in Hno. apply andb_prop in Hno as [Hc Hrest].
    apply negb_true_iff in Hc.
    cbn [baseline_changes fold_left].
    apply (IH Hrest _ (snd (fst (context_change c context)))).
    - now apply change_in_step.
    - apply (change_ascending c baseline context Hc Hasc).
      now destruct Hstep. }
  assert (Hstart : in_step (GBaselinePoller._g_baseline_poller_new func)
                           (GPollContext.g_poll_context_create func))
    by (unfold in_step; cbn; auto).
  assert (Hbase := Hgen _ _ Hstart ltac:(constructor)).
  split; [exact Hbase|].
  destruct (changes_in_step changes _ _ Hstart) as (-> & _).
  exact Hbase.
Qed.

Lemma adds_and_removes_keep_order_witness :
  ascending
    (GBaselinePoller.poll_records
       (baseline_changes
          (GBaselinePoller._g_baseline_poller_new
             GBaselinePoller.nothing_ready)
          [AddFd 3 1 5; AddFd 4 1 1; RemoveFd 3; AddFd 5 4 0])) /\
  ascending
    (GPollContext.poll_records
       (snd (fst (context_changes
                    [AddFd 3 1 5; AddFd 4 1 1; RemoveFd 3; AddFd 5 4 0]
                    (GPollContext.g_poll_context_create
                       GBaselinePoller.nothing_ready))))).
Proof.
  apply (adds_and_removes_keep_order GBaselinePoller.nothing_ready
           [AddFd 3 1 5; AddFd 4 1 1; RemoveFd 3; AddFd 5 4 0]).
  reflexivity.
Defined.

End GPollChangesFacts.

(** ** The iterations of [gmain-poll.c] *)

Module GPollIterateFacts.
Import GTypes GTypesFacts GMain GPollRecords GPollRecordsFacts GPollIterate.

Lemma length_g_new (junk : allocator) (k : nat) (n : Z) :
  length (g_new junk k n) = Z.to_nat n.
Proof. unfold g_new. now rewrite length_map, length_seq. Qed.

Lemma length_g_renew (junk : allocator) (k : nat) (mem : list GPollFD)
    (n : Z) :
  length (g_renew junk k mem n) = Z.to_nat n.
Proof.
  unfold g_renew. rewrite length_app, length_take, length_map, length_seq.
  lia.
Qed.

(** A query of sorted records into an array with room for [n_fds]
    slots. *)
Lemma query_holds (records : list GPollRec) (max_priority : Z)
    (fds : list GPollFD) (n_fds : Z) :
  ascending records ->
  Z.of_nat (length records) <= G_MAXINT ->
  n_fds <= Z.of_nat (length fds) ->
  exists fds',
    query_loop records max_priority fds n_fds 0
    = Some (fds', Z.of_nat (length (asked max_priority records))) /\
    length fds' = length fds /\
    (Z.of_nat (length (asked max_priority records)) <= n_fds ->
     holds_asked max_priority records fds').
Proof.
  intros Hasc Hlen Hroom.
  destruct (query_loop_fills records max_priority fds n_fds Hasc Hlen Hroom)
    as (fds' & Hrun & Hlen' & Hslots & _).
  exists fds'. split; [exact Hrun|]. split; [exact Hlen'|].
  intros Hfit. split.
  - unfold asked in *. lia.
  - intros i r Hi Hr. unfold asked in *.
    rewrite (Hslots i r Hi).
    + apply Z.eqb_neq in Hr. now rewrite Hr.
    + apply lookup_lt_Some in Hi. lia.
Qed.

Lemma length_asked (max_priority : Z) (records : list GPollRec) :
  (length (asked max_priority records) <= length records)%nat.
Proof. apply List.filter_length_le. Qed.

(** The loop of [g_baseline_poller_iterate] comes to its end after one
    query if the array has room and after two if it has not. *)
Lemma baseline_query_fits (junk : allocator) (k : nat)
    (backend : GBaselinePoller.GBaselinePollerData) (max_priority : Z)
    (fuel : nat) :
  baseline_at_rest backend ->
  let records := GBaselinePoller.poll_records backend in
  let n_asked := length (asked max_priority records) in
  let size := length (GBaselinePoller.cached_poll_array backend) in
  exists fds,
    g_baseline_poller_iterate_query (S (S fuel)) junk k backend max_priority
      (Z.of_nat size)
    = Some (GBaselinePoller.mkBackend
              records (GBaselinePoller.n_poll_records backend) fds
              (Z.of_nat (Nat.max size n_asked))
              (GBaselinePoller.poll_func backend),
            Z.of_nat n_asked) /\
    length fds = Nat.max size n_asked /\
    holds_asked max_priority records fds.
Proof.
  intros (Hasc & Hlen & Hn & Hsize & Hmax) records n_asked size.
  destruct (query_holds records max_priority
              (GBaselinePoller.cached_poll_array backend) (Z.of_nat size)
              Hasc Hlen ltac:(lia))
    as (fds1 & Hrun1 & Hlen1 & Hholds1).
  pose proof (length_asked max_priority records) as Hle.
  cbn [g_baseline_poller_iterate_query].
  unfold GBaselinePoller.g_baseline_poller_query at 1.
  fold records. rewrite Hrun1. fold n_asked.
  destruct (Z.gtb_spec (Z.of_nat n_asked) (Z.of_nat size)) as [Hgrow|Hfit].
  - cbn [GBaselinePoller.g_baseline_poller_query
           GBaselinePoller.poll_records GBaselinePoller.cached_poll_array
           GBaselinePoller.n_poll_records GBaselinePoller.poll_func
           GBaselinePoller.cached_poll_array_size].
    unfold GBaselinePoller.g_baseline_poller_query.
    cbn [GBaselinePoller.poll_records].
    destruct (query_holds records max_priority
                (g_renew junk k fds1 (Z.of_nat n_asked)) (Z.of_nat n_asked)
                Hasc Hlen)
      as (fds2 & Hrun2 & Hlen2 & Hholds2).
    { rewrite length_g_renew. lia. }
    fold records. rewrite Hrun2. fold n_asked.
    rewrite Z.gtb_ltb, Z.ltb_irrefl.
    rewrite length_g_renew in Hlen2.
    exists fds2. split; [|split].
    + rewrite wrap_guint_small
        by (unfold G_MAXUINT, G_MAXINT in *; unfold records in *; lia).
      replace (Nat.max size n_asked) with n_asked by lia. reflexivity.
    + lia.
    + apply Hholds2. lia.
  - exists fds1. split; [|split].
    + rewrite Hsize. fold size.
      replace (Nat.max size n_asked) with size by lia. reflexivity.
    + fold size in Hlen1. lia.
    + apply Hholds1. lia.
Qed.

(** X14.  One iteration of the baseline poller, on sorted and counted
    records: the loop around the query stops after at most two queries and
    enlarges the cached array at most once, to the number of the records
    within the scheduler's maximum priority when it was smaller; the poll
    function is then asked about exactly that many slots, one for each
    record within the priority whether it has an interest or not, and each
    of these records that has an interest finds its descriptor and its
    interest in its slot.  The records are not touched. *)
Theorem baseline_iterate_polls_the_asked (K : Platform) (fuel : nat)
    (sched : scheduler) (junk : allocator)
    (backend : GBaselinePoller.GBaselinePollerData) :
  (2 <= fuel)%nat -> baseline_at_rest backend ->
  let records := GBaselinePoller.poll_records backend in
  let max_priority := sched_max_priority sched in
  let n_asked := length (asked max_priority records) in
  let size :=
    match GBaselinePoller.cached_poll_array backend with
    | [] => length records
    | _ :: _ => length (GBaselinePoller.cached_poll_array backend)
    end in
  exists fds,
    length fds = Nat.max size n_asked /\
    holds_asked max_priority records fds /\
    let polled :=
      GBaselinePoller.g_baseline_poller_poll backend
        (sched_poll_timeout sched) max_priority fds (Z.of_nat n_asked) in
    g_baseline_poller_iterate fuel sched junk backend
    = Some (GBaselinePoller.mkBackend
              records (GBaselinePoller.n_poll_records backend) (fst polled)
              (Z.of_nat (length fds)) (GBaselinePoller.poll_func backend),
            [PreparePoll] ++ map Backend (snd polled)
            ++ [ProcessPoll max_priority (fst polled) (Z.of_nat n_asked)]).
Proof.
  intros Hfuel Hrest records max_priority n_asked size.
  subst max_priority.
  destruct fuel as [|[|fuel]]; [lia | lia |].
  pose proof Hrest as (Hasc & Hlen & Hn & Hsize & Hmax).
  unfold g_baseline_poller_iterate.
  set (start :=
         match GBaselinePoller.cached_poll_array backend with
         | [] => _
         | _ :: _ => backend
         end).
  assert (Hstart : baseline_at_rest start /\
                   GBaselinePoller.poll_records start = records /\
                   GBaselinePoller.n_poll_records start
                   = GBaselinePoller.n_poll_records backend /\
                   GBaselinePoller.poll_func start
                   = GBaselinePoller.poll_func backend /\
                   length (GBaselinePoller.cached_poll_array start) = size).
  { unfold start, size.
    destruct (GBaselinePoller.cached_poll_array backend) as [|p l] eqn:Harr.
    - unfold baseline_at_rest. cbn. rewrite length_g_new, Hn.
      fold records. rewrite !Nat2Z.id. repeat split; auto.
    - rewrite <- Harr in *. repeat split; auto. }
  destruct Hstart as (Hrest' & Hrecs & Hn' & Hfunc & Hsize').
  pose proof Hrest' as (_ & _ & _ & Hsize0 & Hmax0).
  rewrite Hsize0, wrap_gint_small
    by (unfold G_MININT, G_MAXINT in *; lia).
  destruct (baseline_query_fits junk 1 start (sched_max_priority sched) fuel
              Hrest')
    as (fds & Hrun & Hlenf & Hholds).
  rewrite Hrun. clear Hrun. rewrite Hrecs, Hsize' in *.
  exists fds. split; [exact Hlenf|]. split; [exact Hholds|].
  cbv zeta.
  cbn [GBaselinePoller.poll_records GBaselinePoller.cached_poll_array
         GBaselinePoller.n_poll_records GBaselinePoller.poll_func
         GBaselinePoller.cached_poll_array_size].
  fold records. fold n_asked. rewrite Hn', Hfunc, Hlenf.
  reflexivity.
Qed.

Lemma baseline_iterate_polls_the_asked_witness :
  exists fds,
    length fds = 2%nat /\
    holds_asked 3 [mkPollRec 11 1 1; mkPollRec 12 3 4; mkPollRec 10 5 1] fds /\
    @g_baseline_poller_iterate linux 2 (mkScheduler 3 0 (fun _ _ _ => false))
      (fun _ _ => mkPollFD 9 9 9)
      (GBaselinePoller.mkBackend
         [mkPollRec 11 1 1; mkPollRec 12 3 4; mkPollRec 10 5 1] 3
         [mkPollFD 0 0 0] 1 GBaselinePoller.nothing_ready)
    = Some (GBaselinePoller.mkBackend
              [mkPollRec 11 1 1; mkPollRec 12 3 4; mkPollRec 10 5 1] 3
              fds 2 GBaselinePoller.nothing_ready,
            [PreparePoll; Backend (EvPoll 2 0); ProcessPoll 3 fds 2]).
Proof.
  assert (Hrest : baseline_at_rest
            (GBaselinePoller.mkBackend
               [mkPollRec 11 1 1; mkPollRec 12 3 4; mkPollRec 10 5 1] 3
               [mkPollFD 0 0 0] 1 GBaselinePoller.nothing_ready)).
  { unfold baseline_at_rest, G_MAXINT. cbn.
    repeat split; try lia; repeat constructor; cbn; lia. }
  destruct (baseline_iterate_polls_the_asked linux 2
              (mkScheduler 3 0 (fun _ _ _ => false))
              (fun _ _ => mkPollFD 9 9 9) _ ltac:(lia) Hrest)
    as (fds & Hlen & Hholds & Hrun).
  exists fds. split; [exact Hlen|]. split; [exact Hholds|].
  rewrite Hrun. cbn in Hlen. cbn. rewrite Hlen. reflexivity.
Defined.

End GPollIterateFacts.

Module GPollContextIterateFacts.
Import GTypes GTypesFacts GMain GPollRecords GPollRecordsFacts GPollChanges.
Import GPollIterate GPollIterateFacts GPollContext GPollContextIterate.

Lemma context_query_run (backend : GPollLoopBackend) (max_priority : Z)
    (fds : list GPollFD) (n_fds : Z) (filled : list GPollFD * Z) :
  query_loop (poll_records backend) max_priority fds n_fds 0 = Some filled ->
  g_poll_context_query max_priority fds n_fds backend
  = (Some filled,
     mkBackend (poll_records backend) (n_poll_records backend)
               (cached_poll_array backend) (cached_poll_array_size backend)
               false (poll_func backend), []).
Proof.
  intros Hrun. unfold g_poll_context_query, bind, get. now rewrite Hrun.
Qed.

(** The loop of [g_poll_context_iterate] comes to its end after one query
    if the array has room and after two if it has not. *)
Lemma context_query_fits (junk : allocator) (k : nat)
    (backend : GPollLoopBackend) (max_priority : Z) (fuel : nat) :
  context_at_rest backend ->
  let records := poll_records backend in
  let n_asked := length (asked max_priority records) in
  let size := length (cached_poll_array backend) in
  exists fds,
    g_poll_context_iterate_query (S (S fuel)) junk k max_priority
      (Z.of_nat size) backend
    = (Some (Z.of_nat n_asked),
       mkBackend records (n_poll_records backend) fds
                 (Z.of_nat (Nat.max size n_asked)) false (poll_func backend),
       []) /\
    length fds = Nat.max size n_asked /\
    holds_asked max_priority records fds.
Proof.
  intros (Hasc & Hlen & Hn & Hsize & Hmax) records n_asked size.
  destruct (query_holds records max_priority (cached_poll_array backend)
              (Z.of_nat size) Hasc Hlen ltac:(lia))
    as (fds1 & Hrun1 & Hlen1 & Hholds1).
  pose proof (length_asked max_priority records) as Hle.
  fold n_asked in Hrun1, Hholds1.
  cbn [g_poll_context_iterate_query].
  unfold bind at 1. unfold get at 1. unfold bind at 1.
  rewrite (context_query_run backend max_priority _ _ _ Hrun1).
  destruct (Z.gtb_spec (Z.of_nat n_asked) (Z.of_nat size)) as [Hgrow|Hfit].
  - unfold bind at 1. unfold set_cached_poll_array at 1.
    cbn [poll_records n_poll_records cached_poll_array poll_changed
           poll_func cached_poll_array_size].
    unfold bind at 1. unfold get at 1. unfold bind at 1.
    destruct (query_holds records max_priority
                (g_new junk k (Z.of_nat n_asked)) (Z.of_nat n_asked)
                Hasc Hlen)
      as (fds2 & Hrun2 & Hlen2 & Hholds2).
    { rewrite length_g_new. lia. }
    fold n_asked in Hrun2, Hholds2.
    match goal with
    | |- context [g_poll_context_query ?mp ?fds ?n ?b] =>
        rewrite (context_query_run b mp fds n _ Hrun2)
    end.
    rewrite Z.gtb_ltb, Z.ltb_irrefl.
    unfold bind, set_cached_poll_array, ret.
    cbn [poll_records n_poll_records cached_poll_array poll_changed
           poll_func cached_poll_array_size app].
    rewrite length_g_new in Hlen2.
    exists fds2. split; [|split].
    + rewrite wrap_guint_small
        by (unfold G_MAXUINT, G_MAXINT in *; unfold records in *; lia).
      replace (Nat.max size n_asked) with n_asked by lia. reflexivity.
    + lia.
    + apply Hholds2. lia.
  - unfold bind, set_cached_poll_array, ret.
    cbn [poll_records n_poll_records cached_poll_array poll_changed
           poll_func cached_poll_array_size app].
    exists fds1. split; [|split].
    + rewrite Hsize. fold size.
      replace (Nat.max size n_asked) with size by lia. reflexivity.
    + fold size in Hlen1. lia.
    + apply Hholds1. lia.
Qed.


Lemma context_poll_run `{K : Platform} (timeout priority : Z)
    (fds : list GPollFD) (n_fds : Z) (backend : GPollLoopBackend) :
  exists t,
    g_poll_context_poll timeout priority fds n_fds backend
    = (if negb (n_fds =? 0) || negb (timeout =? 0)
       then poll_fds (poll_func backend fds n_fds timeout)
       else fds,
       backend, t) /\
    List.filter is_check (calls_of t) = [] /\
    (In (EvPoll n_fds timeout) (calls_of t) \/ (n_fds = 0 /\ timeout = 0)).
Proof.
  unfold g_poll_context_poll.
  destruct (Z.eqb_spec n_fds 0) as [Hn|Hn];
    destruct (Z.eqb_spec timeout 0) as [Ht|Ht]; cbn [negb orb];
    try (eexists; split; [reflexivity|]; split; [reflexivity|]; now right);
    unfold bind, call, get, ret;
    destruct (_ && _); cbn;
    (eexists; split; [reflexivity|]; split; [reflexivity|]; left; cbn; auto).
Qed.

Lemma context_change_run (c : change) (backend : GPollLoopBackend) :
  exists answer records n t,
    context_change c backend
    = (answer,
       mkBackend records n (cached_poll_array backend)
                 (cached_poll_array_size backend) true (poll_func backend),
       t) /\
    List.filter is_check (calls_of t) = [].
Proof.
  destruct c as [fd ev pr|fd ev pr|fd]; cbn -[update unlink].
  - do 4 eexists. split; reflexivity.
  - unfold g_poll_context_modify_fd, bind, call, get, ret.
    cbn -[update]. destruct (update _ _ _ _); cbn;
      do 4 eexists; split; reflexivity.
  - unfold g_poll_context_remove_fd, bind, call, get, ret.
    cbn -[unlink]. destruct (unlink _ _); cbn;
      do 4 eexists; split; reflexivity.
Qed.

Lemma context_changes_run (changes : list change) :
  forall backend : GPollLoopBackend,
  exists records n t,
    context_changes changes backend
    = (tt,
       mkBackend records n (cached_poll_array backend)
                 (cached_poll_array_size backend)
                 (match changes with
                  | [] => poll_changed backend
                  | _ :: _ => true
                  end)
                 (poll_func backend),
       t) /\
    List.filter is_check (calls_of t) = [].
Proof.
  induction changes as [|c rest IH]; intros backend.
  - exists (poll_records backend), (n_poll_records backend), [].
    split; [|reflexivity]. now destruct backend.
  - cbn [context_changes]. unfold bind.
    destruct (context_change_run c backend)
      as (answer & records1 & n1 & t1 & Hrun1 & Ht1).
    rewrite Hrun1.
    destruct (IH (mkBackend records1 n1 (cached_poll_array backend)
                            (cached_poll_array_size backend) true
                            (poll_func backend)))
      as (records2 & n2 & t2 & Hrun2 & Ht2).
    rewrite Hrun2. cbn [cached_poll_array cached_poll_array_size poll_func
                          poll_changed].
    exists records2, n2, (t1 ++ t2). split.
    + now destruct rest.
    + unfold calls_of in *. now rewrite map_app, List.filter_app, Ht1, Ht2.
Qed.


Lemma context_change_records (c : change) (b b' : GPollLoopBackend) :
  poll_records b = poll_records b' ->
  n_poll_records b = n_poll_records b' ->
  poll_records (snd (fst (context_change c b)))
  = poll_records (snd (fst (context_change c b'))) /\
  n_poll_records (snd (fst (context_change c b)))
  = n_poll_records (snd (fst (context_change c b'))).
Proof.
  intros Hrec Hn. destruct c as [fd ev pr|fd ev pr|fd]; cbn -[update unlink].
  - now rewrite Hrec, Hn.
  - unfold g_poll_context_modify_fd, bind, call, get, ret.
    cbn -[update]. rewrite Hrec. destruct (update _ _ _ _); cbn; auto.
  - unfold g_poll_context_remove_fd, bind, call, get, ret.
    cbn -[unlink]. rewrite Hrec, Hn. destruct (unlink _ _); cbn; auto.
Qed.

Lemma context_changes_records (changes : list change) :
  forall b b' : GPollLoopBackend,
  poll_records b = poll_records b' ->
  n_poll_records b = n_poll_records b' ->
  poll_records (snd (fst (context_changes changes b)))
  = poll_records (snd (fst (context_changes changes b'))).
Proof.
  induction changes as [|c rest IH]; intros b b' Hrec Hn; [exact Hrec|].
  cbn [context_changes]. unfold bind.
  destruct (context_change_records c b b' Hrec Hn) as [Hrec1 Hn1].
  destruct (context_change c b) as [[a1 b1] t1].
  destruct (context_change c b') as [[a1' b1'] t1'].
  cbn [fst snd] in Hrec1, Hn1.
  specialize (IH b1 b1' Hrec1 Hn1).
  destruct (context_changes rest b1) as [[u2 b2] t2].
  destruct (context_changes rest b1') as [[u2' b2'] t2'].
  exact IH.
Qed.

(** X15.  One iteration of the poll context, on sorted and counted
    records, while other threads make the changes [meanwhile] as this one
    waits in the poll function.  The poll function is asked about the
    records within the scheduler's maximum priority, as in the baseline
    poller.  If no change was made, the iteration hands the array to
    [g_main_context_check] and answers what that answers; after any
    change it answers [FALSE] and leaves the check out, for the main loop
    to run again.  The changes are in the backend afterwards. *)
Theorem context_iterate_gives_way_to_changes (K : Platform) (fuel : nat)
    (sched : scheduler) (junk : allocator) (meanwhile : list change)
    (block : bool) (backend : GPollLoopBackend) :
  (2 <= fuel)%nat -> context_at_rest backend ->
  let records := poll_records backend in
  let max_priority := sched_max_priority sched in
  let n_asked := Z.of_nat (length (asked max_priority records)) in
  let timeout := if block then sched_poll_timeout sched else 0 in
  exists fds,
    holds_asked max_priority records fds /\
    let polled :=
      fst (fst (g_poll_context_poll timeout max_priority fds n_asked
                                    backend)) in
    let '(ready, after, t) :=
      g_poll_context_iterate fuel sched junk meanwhile block backend in
    ready = Some (match meanwhile with
                  | [] => sched_check sched max_priority polled n_asked
                  | _ :: _ => false
                  end) /\
    List.filter is_check (calls_of t)
    = match meanwhile with
      | [] => [EvCheck max_priority polled n_asked]
      | _ :: _ => []
      end /\
    (In (EvPoll n_asked timeout) (calls_of t)
     \/ (n_asked = 0 /\ timeout = 0)) /\
    poll_records after
    = poll_records (snd (fst (context_changes meanwhile backend))).
Proof.
  intros Hfuel Hrest records max_priority n_asked timeout.
  subst max_priority.
  destruct fuel as [|[|fuel]]; [lia | lia |].
  pose proof Hrest as (Hasc & Hlen & Hn & Hsize & Hmax).
  unfold g_poll_context_iterate.
  unfold bind at 1. unfold call at 1.
  unfold bind at 1. unfold get at 1.
  unfold bind at 1.
  set (start :=
         mkBackend records (n_poll_records backend)
           (match cached_poll_array backend with
            | [] => g_new junk 0 (n_poll_records backend)
            | _ :: _ => cached_poll_array backend
            end)
           (match cached_poll_array backend with
            | [] => n_poll_records backend
            | _ :: _ => cached_poll_array_size backend
            end)
           (poll_changed backend) (poll_func backend)).
  assert (Hfirst :
            match cached_poll_array backend with
            | [] =>
                set_cached_poll_array
                  (g_new junk 0 (n_poll_records backend))
                  (n_poll_records backend)
            | _ :: _ => ret tt
            end backend = (tt, start, [])).
  { unfold start, records.
    destruct (cached_poll_array backend) eqn:Harr; [reflexivity|].
    unfold ret. rewrite <- Harr. now destruct backend. }
  rewrite Hfirst. clear Hfirst.
  assert (Hstart : context_at_rest start).
  { unfold start, context_at_rest.
    cbn [poll_records n_poll_records cached_poll_array
           cached_poll_array_size].
    destruct (cached_poll_array backend) eqn:Harr.
    - rewrite length_g_new, Hn. fold records. rewrite !Nat2Z.id.
      repeat split; auto.
    - repeat split; auto. }
  unfold bind at 1. unfold call at 1.
  unfold bind at 1. unfold get at 1.
  unfold bind at 1. unfold call at 1.
  unfold bind at 1.
  pose proof Hstart as (_ & _ & _ & Hsize0 & Hmax0).
  rewrite Hsize0, wrap_gint_small
    by (unfold G_MININT, G_MAXINT in *; lia).
  destruct (context_query_fits junk 1 start (sched_max_priority sched) fuel
              Hstart)
    as (fds & Hrun & Hlenf & Hholds).
  rewrite Hrun. clear Hrun.
  change (poll_records start) with records in *.
  fold n_asked.
  exists fds. split; [exact Hholds|]. cbv zeta.
  unfold bind at 1. unfold get at 1.
  unfold bind at 1.
  set (queried := mkBackend records _ fds _ false _).
  destruct (context_poll_run timeout (sched_max_priority sched) fds n_asked
              queried) as (t_poll & Hpoll & Hnocheck & Hpolled).
  fold timeout. change (cached_poll_array queried) with fds.
  rewrite Hpoll.
  destruct (context_poll_run timeout (sched_max_priority sched) fds n_asked
              backend) as (t_poll' & Hpoll' & _).
  rewrite Hpoll'. cbn [fst snd].
  change (poll_func queried) with (poll_func backend).
  set (polled := if negb (n_asked =? 0) || negb (timeout =? 0)
                 then poll_fds (poll_func backend fds n_asked timeout)
                 else fds).
  unfold bind at 1. unfold set_cached_poll_array at 1.
  unfold bind at 1.
  set (waited := mkBackend (poll_records queried) _ polled _ _ _).
  destruct (context_changes_run meanwhile waited)
    as (records' & n' & t_changes & Hchanges & Hnocheck').
  rewrite Hchanges.
  assert (Hrecords :
            records'
            = poll_records (snd (fst (context_changes meanwhile backend)))).
  { rewrite <- (context_changes_records meanwhile waited backend);
      [now rewrite Hchanges | reflexivity | reflexivity]. }
  unfold bind at 1. unfold call at 1.
  unfold bind at 1. unfold get at 1.
  unfold bind at 1. unfold call at 1.
  cbn [poll_changed poll_records].
  unfold calls_of in *.
  destruct meanwhile as [|c rest].
  - cbn [poll_changed waited queried]. unfold bind, call, ret.
    cbn [poll_records fst snd app].
    split; [reflexivity|]. split; [|split].
    + cbn [map fst]. cbn [List.filter is_check].
      rewrite !map_app, !List.filter_app, Hnocheck, Hnocheck'. reflexivity.
    + destruct Hpolled as [Hin|Hzero]; [left|now right].
      cbn [map fst]. do 3 right. rewrite map_app. apply in_or_app. now left.
    + exact Hrecords.
  - unfold ret. cbn [poll_records fst snd app].
    split; [reflexivity|]. split; [|split].
    + cbn [map fst]. cbn [List.filter is_check].
      rewrite !map_app, !List.filter_app, Hnocheck, Hnocheck'. reflexivity.
    + destruct Hpolled as [Hin|Hzero]; [left|now right].
      cbn [map fst]. do 3 right. rewrite map_app. apply in_or_app. now left.
    + exact Hrecords.
Qed.


Lemma context_iterate_gives_way_to_changes_witness :
  fst (fst (@g_poll_context_iterate linux 2
              (mkScheduler 3 0 (fun _ _ _ => true))
              (fun _ _ => mkPollFD 9 9 9) [AddFd 7 1 0] true
              (mkBackend [mkPollRec 11 1 1; mkPollRec 10 5 1] 2 [] 0 false
                         GBaselinePoller.nothing_ready)))
  = Some false.
Proof.
  assert (Hrest : context_at_rest
            (mkBackend [mkPollRec 11 1 1; mkPollRec 10 5 1] 2 [] 0 false
                       GBaselinePoller.nothing_ready)).
  { unfold context_at_rest, G_MAXINT. cbn.
    repeat split; try lia; repeat constructor; cbn; lia. }
  destruct (context_iterate_gives_way_to_changes linux 2
              (mkScheduler 3 0 (fun _ _ _ => true))
              (fun _ _ => mkPollFD 9 9 9) [AddFd 7 1 0] true _
              ltac:(lia) Hrest)
    as (fds & _ & Hrun).
  cbv zeta in Hrun.
  destruct (g_poll_context_iterate _ _ _ _ _ _) as [[ready after] t].
  now destruct Hrun as (-> & _).
Defined.

End GPollContextIterateFacts.

(** ** A wait that fails *)

Module GFailedWaitFacts.
Import GTypes GTypesFacts GMain GPollRecords GPollRecordsFacts GPollChanges.
Import GPollIterate GPollIterateFacts GPollContext GPollContextIterate.
Import GPollContextIterateFacts GEpoll GFailedWait.







End GFailedWaitFacts.

(** ** More on the epoll backends *)

Module GEpollMoreFacts.
Import GTypes GTypesFacts GMain GEpoll GEpollArrays.

Lemma g_renew_returns_in_range (granted : bool) (n : Z) :
  0 <= n <= G_MAXUINT ->
  g_renew_returns granted n sizeof_epoll_event = granted.
Proof.
  intros Hn. unfold g_renew_returns, sizeof_epoll_event, G_MAXSIZE.
  unfold G_MAXUINT in Hn.
  replace (n * 12 <=? 18446744073709551615) with true
    by (symmetry; apply Z.leb_le; lia).
  reflexivity.
Qed.

(** X16.  [epoll_wait] is never asked for zero events: with a count of
    registrations that fits a [gint], each of the three revisions asks for
    as many events as descriptors are registered, and for one if none is;
    the output buffer has at least that size afterwards and never
    shrinks; nothing else changes, and what [epoll_wait] answers is
    passed on.  The one way not to come to [epoll_wait] is that the output
    buffer has to grow and the allocator does not give the memory. *)
Theorem wait_asks_for_at_least_one
    (context : GEpollContext.GEpollLoopBackend)
    (table : GEpollContextMT.GEpollLoopBackend)
    (timeout : Z) (granted : bool) (answer : wait_answer) :
  0 <= GEpollContext.n_poll_records context <= G_MAXINT ->
  0 <= GEpollContextMT.n_poll_records table <= G_MAXINT ->
  let asked := Z.max 1 (GEpollContext.n_poll_records context) in
  let asked_table := Z.max 1 (GEpollContextMT.n_poll_records table) in
  g_epoll_context_poll context timeout granted answer
  = (if (GEpollContext.epoll_output_size context <? asked) && negb granted
     then Aborts []
     else
       Returns
         (wait_retval answer,
          GEpollContext.mkBackend
            (GEpollContext.epoll_fd context)
            (GEpollContext.n_poll_records context)
            (Z.max (GEpollContext.epoll_output_size context) asked)
            (GEpollContext.fds_ready context)
            (GEpollContext.n_compat_fds context),
          [EvEpollWait asked timeout])) /\
  g_epoller_poll (as_poller context) timeout granted answer
  = (if (GEpollContext.epoll_output_size context <? asked) && negb granted
     then Aborts []
     else
       Returns
         (wait_retval answer,
          GEpoller.mkBackend
            (GEpollContext.epoll_fd context)
            (GEpollContext.n_poll_records context)
            (Z.max (GEpollContext.epoll_output_size context) asked)
            (GEpollContext.fds_ready context)
            (GEpollContext.n_compat_fds context),
          [EvEpollWait asked timeout])) /\
  GEpollContextMT.g_epoll_context_poll table timeout granted answer
  = (if (GEpollContextMT.epoll_output_size table <? asked_table)
        && negb granted
     then Aborts []
     else
       Returns
         (wait_retval answer,
          GEpollContextMT.mkBackend
            (GEpollContextMT.epoll_fd table)
            (GEpollContextMT.n_poll_records table)
            (Z.max (GEpollContextMT.epoll_output_size table) asked_table)
            (GEpollContextMT.fds_ready table)
            (GEpollContextMT.compat_fds table),
          [EvEpollWait asked_table timeout])).
Proof.
  intros Hn Hnt asked asked_table.
  split; [|split].
  - unfold g_epoll_context_poll. destruct context as [efd n size fds nc].
    cbn [GEpollContext.n_poll_records GEpollContext.epoll_output_size
           GEpollContext.epoll_fd GEpollContext.fds_ready
           GEpollContext.n_compat_fds] in *.
    assert (Hasked : (if n =? 0 then wrap_guint (n + 1) else n) = asked).
    { subst asked. unfold G_MAXINT in Hn.
      destruct (Z.eqb_spec n 0) as [->|Hne]; [reflexivity | lia]. }
    rewrite Hasked.
    assert (Hrange : 1 <= asked <= G_MAXINT)
      by (subst asked; unfold G_MAXINT in *; lia).
    rewrite g_renew_returns_in_range by (unfold G_MAXUINT, G_MAXINT in *; lia).
    rewrite wrap_gint_small by (unfold G_MININT, G_MAXINT in *; lia).
    destruct (Z.ltb_spec size asked);
      [rewrite Z.max_r by lia | rewrite Z.max_l by lia];
      destruct granted; reflexivity.
  - unfold g_epoller_poll, as_poller. destruct context as [efd n size fds nc].
    cbn [GEpollContext.n_poll_records GEpollContext.epoll_output_size
           GEpollContext.epoll_fd GEpollContext.fds_ready
           GEpollContext.n_compat_fds GEpoller.n_poll_records
           GEpoller.epoll_output_size GEpoller.epoll_fd GEpoller.fds_ready
           GEpoller.n_compat_fds] in *.
    assert (Hasked : (if n =? 0 then wrap_guint (n + 1) else n) = asked).
    { subst asked. unfold G_MAXINT in Hn.
      destruct (Z.eqb_spec n 0) as [->|Hne]; [reflexivity | lia]. }
    rewrite Hasked.
    assert (Hrange : 1 <= asked <= G_MAXINT)
      by (subst asked; unfold G_MAXINT in *; lia).
    rewrite g_renew_returns_in_range by (unfold G_MAXUINT, G_MAXINT in *; lia).
    rewrite wrap_gint_small by (unfold G_MININT, G_MAXINT in *; lia).
    destruct (Z.ltb_spec size asked);
      [rewrite Z.max_r by lia | rewrite Z.max_l by lia];
      destruct granted; reflexivity.
  - unfold GEpollContextMT.g_epoll_context_poll, GEpollContextMT.poll_nfds.
    destruct table as [efd n size fds compat].
    cbn [GEpollContextMT.n_poll_records GEpollContextMT.epoll_output_size
           GEpollContextMT.epoll_fd GEpollContextMT.fds_ready
           GEpollContextMT.compat_fds] in *.
    rewrite (wrap_gint_small n) by (unfold G_MININT, G_MAXINT in *; lia).
    assert (Hsz : wrap_gsize n = n)
      by (unfold wrap_gsize; apply Z.mod_small; unfold G_MAXINT in *; lia).
    rewrite Hsz.
    assert (Hasked : (if n =? 0 then n + 1 else n) = asked_table).
    { subst asked_table. unfold G_MAXINT in Hnt.
      destruct (Z.eqb_spec n 0) as [->|Hne]; [reflexivity | lia]. }
    rewrite Hasked.
    assert (Hrange : 1 <= asked_table <= G_MAXINT)
      by (subst asked_table; unfold G_MAXINT in *; lia).
    rewrite g_renew_returns_in_range by (unfold G_MAXUINT, G_MAXINT in *; lia).
    rewrite wrap_gint_small by (unfold G_MININT, G_MAXINT in *; lia).
    destruct (Z.ltb_spec size asked_table);
      [rewrite Z.max_r by lia | rewrite Z.max_l by lia];
      destruct granted; reflexivity.
Qed.

Lemma wait_asks_for_at_least_one_witness :
  g_epoll_context_poll (GEpollContext.mkBackend 7 0 0 [] 0) 5 true
    (mkWaitAnswer 0 0 [])
  = Returns (0, GEpollContext.mkBackend 7 0 1 [] 0, [EvEpollWait 1 5]).
Proof.
  apply (wait_asks_for_at_least_one
           (GEpollContext.mkBackend 7 0 0 [] 0)
           (GEpollContextMT.mkBackend 7 0 0 [] ∅) 5 true
           (mkWaitAnswer 0 0 [])).
  - cbn. unfold G_MAXINT. lia.
  - cbn. unfold G_MAXINT. lia.
Defined.


Lemma wrap_guint_back (n : Z) :
  0 <= n <= G_MAXUINT -> wrap_guint (wrap_guint (n + 1) - 1) = n.
Proof.
  unfold G_MAXUINT, wrap_guint. intros Hn.
  replace ((n + 1) mod 4294967296 - 1)
    with ((n + 1) mod 4294967296 + (-1)) by lia.
  rewrite Z.add_mod_idemp_l by lia.
  replace (n + 1 + -1) with n by lia. apply Z.mod_small. lia.
Qed.

Lemma as_poller_compat_set (context : GEpollContext.GEpollLoopBackend) :
  GEpoller.compat_set (as_poller context) = GEpollContext.compat_set context.
Proof. reflexivity. Qed.

Lemma context_remove_fd_kernel `{K : Platform}
    (backend : GEpollContext.GEpollLoopBackend) (fd : Z)
    (answer : ctl_answer) :
  compat_index (GEpollContext.compat_set backend) fd = None ->
  GEpollContext.g_epoll_context_remove_fd backend fd answer
  = (ctl_retval answer =? 0,
     GEpollContext.mkBackend
       (GEpollContext.epoll_fd backend)
       (wrap_guint (GEpollContext.n_poll_records backend - 1))
       (GEpollContext.epoll_output_size backend)
       (GEpollContext.fds_ready backend)
       (GEpollContext.n_compat_fds backend),
     EvEpollCtl EPOLL_CTL_DEL fd 0
     :: (if ctl_retval answer =? 0 then [] else del_warning answer)).
Proof.
  intros Hnot. unfold GEpollContext.g_epoll_context_remove_fd, del_warning.
  rewrite Hnot. now destruct (ctl_retval answer =? 0).
Qed.

Lemma poller_remove_fd_kernel `{K : Platform}
    (backend : GEpoller.GEpollerData) (fd : Z) (answer : ctl_answer) :
  compat_index (GEpoller.compat_set backend) fd = None ->
  GEpoller.g_epoller_remove_fd backend fd answer
  = (GEpoller.mkBackend
       (GEpoller.epoll_fd backend)
       (wrap_guint (GEpoller.n_poll_records backend - 1))
       (GEpoller.epoll_output_size backend) (GEpoller.fds_ready backend)
       (GEpoller.n_compat_fds backend),
     EvEpollCtl EPOLL_CTL_DEL fd 0
     :: (if ctl_retval answer =? 0 then [] else del_warning answer)).
Proof.
  intros Hnot. unfold GEpoller.g_epoller_remove_fd, del_warning.
  rewrite Hnot. now destruct (ctl_retval answer =? 0).
Qed.

Lemma table_remove_fd_kernel `{K : Platform}
    (backend : GEpollContextMT.GEpollLoopBackend) (fd : Z)
    (answer : ctl_answer) :
  GEpollContextMT.compat_fds backend !! fd = None ->
  GEpollContextMT.g_epoll_context_remove_fd backend fd answer
  = (ctl_retval answer =? 0,
     GEpollContextMT.mkBackend
       (GEpollContextMT.epoll_fd backend)
       (wrap_guint (GEpollContextMT.n_poll_records backend - 1))
       (GEpollContextMT.epoll_output_size backend)
       (GEpollContextMT.fds_ready backend)
       (GEpollContextMT.compat_fds backend),
     [EvLock; EvUnlock; EvEpollCtl EPOLL_CTL_DEL fd 0]
     ++ (if ctl_retval answer =? 0 then [] else del_warning answer)).
Proof.
  intros Hnot.
  assert (Hnot' : ~ is_Some (GEpollContextMT.compat_fds backend !! fd)).
  { rewrite Hnot. intros [x Hx]. discriminate. }
  unfold GEpollContextMT.g_epoll_context_remove_fd, del_warning.
  rewrite (bool_decide_eq_false_2 _ Hnot'), delete_id by exact Hnot.
  cbn [GEpollContextMT.compat_fds GEpollContextMT.n_poll_records
         GEpollContextMT.epoll_fd GEpollContextMT.epoll_output_size
         GEpollContextMT.fds_ready].
  now destruct (ctl_retval answer =? 0).
Qed.

Lemma filter_kernel_del_warning `{K : Platform} (answer : ctl_answer)
    (ok : bool) :
  List.filter GEpollContextMT.is_kernel_call
    (if ok then [] else del_warning answer) = [].
Proof. unfold del_warning. destruct ok; [reflexivity|]. now destruct (_ && _). Qed.

(** X17.  A descriptor that the kernel accepts and that is removed again
    leaves every revision of the backend as it was: [add_fd] counts it in
    [n_poll_records] and [remove_fd] counts it out, the compatibility set
    is not touched, and the kernel is called once to add and once to
    delete.  [remove_fd] answers whether the kernel's removal
    succeeded. *)
Theorem kernel_registration_round_trip (K : Platform)
    (context : GEpollContext.GEpollLoopBackend)
    (table : GEpollContextMT.GEpollLoopBackend)
    (fd events priority : Z) (removed : ctl_answer) :
  0 <= GEpollContext.n_poll_records context <= G_MAXUINT ->
  0 <= GEpollContextMT.n_poll_records table <= G_MAXUINT ->
  compat_index (GEpollContext.compat_set context) fd = None ->
  GEpollContextMT.compat_fds table !! fd = None ->
  let added_context :=
    snd (fst (GEpollContext.g_epoll_context_add_fd context fd events
                priority succeeded)) in
  let added_poller :=
    fst (GEpoller.g_epoller_add_fd (as_poller context) fd events priority
           succeeded) in
  let added_table :=
    snd (fst (GEpollContextMT.g_epoll_context_add_fd table fd events
                priority succeeded)) in
  (fst (GEpollContext.g_epoll_context_remove_fd added_context fd removed)
   = (ctl_retval removed =? 0, context) /\
   fst (GEpoller.g_epoller_remove_fd added_poller fd removed)
   = as_poller context /\
   fst (GEpollContextMT.g_epoll_context_remove_fd added_table fd removed)
   = (ctl_retval removed =? 0, table)) /\
  (List.filter GEpollContextMT.is_kernel_call
     (snd (GEpollContext.g_epoll_context_add_fd context fd events priority
             succeeded)
      ++ snd (GEpollContext.g_epoll_context_remove_fd added_context fd
                removed))
   = [EvEpollCtl EPOLL_CTL_ADD fd (g_io_condition_to_epoll_events events);
      EvEpollCtl EPOLL_CTL_DEL fd 0] /\
   List.filter GEpollContextMT.is_kernel_call
     (snd (GEpollContextMT.g_epoll_context_add_fd table fd events priority
             succeeded)
      ++ snd (GEpollContextMT.g_epoll_context_remove_fd added_table fd
                removed))
   = [EvEpollCtl EPOLL_CTL_ADD fd (g_io_condition_to_epoll_events events);
      EvEpollCtl EPOLL_CTL_DEL fd 0]).
Proof.
  intros Hn Hnt Hnot Hnott added_context added_poller added_table.
  assert (Hadded : GEpollContext.compat_set added_context
                   = GEpollContext.compat_set context) by reflexivity.
  assert (Hadded' : GEpoller.compat_set added_poller
                    = GEpollContext.compat_set context) by reflexivity.
  assert (Haddedt : GEpollContextMT.compat_fds added_table
                    = GEpollContextMT.compat_fds table) by reflexivity.
  rewrite (context_remove_fd_kernel added_context fd removed)
    by (now rewrite Hadded).
  rewrite (poller_remove_fd_kernel added_poller fd removed)
    by (now rewrite Hadded').
  rewrite (table_remove_fd_kernel added_table fd removed)
    by (now rewrite Haddedt).
  subst added_context added_poller added_table.
  unfold GEpollContext.g_epoll_context_add_fd, GEpoller.g_epoller_add_fd,
    GEpollContextMT.g_epoll_context_add_fd, succeeded, as_poller.
  cbn [ctl_retval Z.eqb negb fst snd
         GEpollContext.n_poll_records GEpollContext.epoll_fd
         GEpollContext.epoll_output_size GEpollContext.fds_ready
         GEpollContext.n_compat_fds
         GEpoller.n_poll_records GEpoller.epoll_fd
         GEpoller.epoll_output_size GEpoller.fds_ready
         GEpoller.n_compat_fds
         GEpollContextMT.compat_fds GEpollContextMT.n_poll_records
         GEpollContextMT.epoll_fd GEpollContextMT.epoll_output_size
         GEpollContextMT.fds_ready].
  rewrite !wrap_guint_back by assumption.
  split; [split; [|split]|split].
  - now destruct context.
  - reflexivity.
  - now destruct table.
  - cbn [app List.filter GEpollContextMT.is_kernel_call].
    now rewrite filter_kernel_del_warning.
  - cbn [app List.filter GEpollContextMT.is_kernel_call].
    now rewrite filter_kernel_del_warning.
Qed.


Lemma kernel_registration_round_trip_witness :
  fst (@GEpollContext.g_epoll_context_remove_fd linux
         (snd (fst (@GEpollContext.g_epoll_context_add_fd linux
                      (GEpollContext.mkBackend 7 2 0 [] 0) 5 1 0
                      succeeded)))
         5 (mkCtlAnswer (-1) 9))
  = (false, GEpollContext.mkBackend 7 2 0 [] 0).
Proof.
  destruct (kernel_registration_round_trip linux
              (GEpollContext.mkBackend 7 2 0 [] 0)
              (GEpollContextMT.mkBackend 7 2 0 [] ∅) 5 1 0
              (mkCtlAnswer (-1) 9))
    as ((Hcontext & _) & _).
  - cbn. unfold G_MAXUINT. lia.
  - cbn. unfold G_MAXUINT. lia.
  - reflexivity.
  - reflexivity.
  - exact Hcontext.
Defined.

(** X18.  [remove_fd] takes a descriptor that is not in the compatibility
    set off [n_poll_records] before it asks the kernel, and whatever the
    kernel answers.  On a backend without registrations the count wraps to
    [G_MAXUINT].  The next wait of the two revisions with the array then
    asks [g_renew] for [G_MAXUINT] events, and if the allocator gives them
    it asks [epoll_wait] for -1 events; the next wait of the revision with
    the hash table reads the count as -1 and asks [g_renew] for
    [G_MAXSIZE] events, which ends the process before [epoll_wait]. *)
Theorem removal_without_registration_miscounts (K : Platform)
    (context : GEpollContext.GEpollLoopBackend)
    (table : GEpollContextMT.GEpollLoopBackend)
    (fd timeout : Z) (removed : ctl_answer) (granted : bool)
    (answer : wait_answer) :
  GEpollContext.n_poll_records context = 0 ->
  GEpollContextMT.n_poll_records table = 0 ->
  compat_index (GEpollContext.compat_set context) fd = None ->
  GEpollContextMT.compat_fds table !! fd = None ->
  GEpollContext.epoll_output_size context < G_MAXUINT ->
  GEpollContextMT.epoll_output_size table < G_MAXSIZE ->
  let after_context :=
    snd (fst (GEpollContext.g_epoll_context_remove_fd context fd removed)) in
  let after_poller :=
    fst (GEpoller.g_epoller_remove_fd (as_poller context) fd removed) in
  let after_table :=
    snd (fst (GEpollContextMT.g_epoll_context_remove_fd table fd
                removed)) in
  (GEpollContext.n_poll_records after_context = G_MAXUINT /\
   g_epoll_context_poll after_context timeout granted answer
   = if granted
     then Returns (wait_retval answer,
                   GEpollContext.mkBackend
                     (GEpollContext.epoll_fd context) G_MAXUINT G_MAXUINT
                     (GEpollContext.fds_ready context)
                     (GEpollContext.n_compat_fds context),
                   [EvEpollWait (-1) timeout])
     else Aborts []) /\
  (GEpoller.n_poll_records after_poller = G_MAXUINT /\
   g_epoller_poll after_poller timeout granted answer
   = if granted
     then Returns (wait_retval answer,
                   GEpoller.mkBackend
                     (GEpollContext.epoll_fd context) G_MAXUINT G_MAXUINT
                     (GEpollContext.fds_ready context)
                     (GEpollContext.n_compat_fds context),
                   [EvEpollWait (-1) timeout])
     else Aborts []) /\
  (GEpollContextMT.n_poll_records after_table = G_MAXUINT /\
   GEpollContextMT.poll_nfds after_table = G_MAXSIZE /\
   GEpollContextMT.g_epoll_context_poll after_table timeout granted answer
   = Aborts []).
Proof.
  intros Hn Hnt Hnot Hnott Hsize Hsizet after_context after_poller
    after_table.
  subst after_context after_poller after_table.
  rewrite (context_remove_fd_kernel context fd removed Hnot).
  rewrite (poller_remove_fd_kernel (as_poller context) fd removed Hnot).
  rewrite (table_remove_fd_kernel table fd removed Hnott).
  unfold g_epoll_context_poll, g_epoller_poll,
    GEpollContextMT.g_epoll_context_poll, GEpollContextMT.poll_nfds,
    as_poller.
  cbn [fst snd
         GEpollContext.n_poll_records GEpollContext.epoll_fd
         GEpollContext.epoll_output_size GEpollContext.fds_ready
         GEpollContext.n_compat_fds
         GEpoller.n_poll_records GEpoller.epoll_fd
         GEpoller.epoll_output_size GEpoller.fds_ready
         GEpoller.n_compat_fds
         GEpollContextMT.compat_fds GEpollContextMT.n_poll_records
         GEpollContextMT.epoll_fd GEpollContextMT.epoll_output_size
         GEpollContextMT.fds_ready].
  rewrite Hn, Hnt.
  change (wrap_guint (0 - 1)) with 4294967295.
  change (wrap_gsize (wrap_gint 4294967295)) with 18446744073709551615.
  change (4294967295 =? 0) with false.
  change (18446744073709551615 =? 0) with false.
  cbv iota.
  apply Z.ltb_lt in Hsize, Hsizet.
  unfold G_MAXUINT, G_MAXSIZE in *. rewrite Hsize, Hsizet.
  change (g_renew_returns granted 4294967295 sizeof_epoll_event)
    with granted.
  change (g_renew_returns granted 18446744073709551615 sizeof_epoll_event)
    with false.
  repeat split.
Qed.

Lemma removal_without_registration_miscounts_witness :
  GEpollContextMT.g_epoll_context_poll
    (snd (fst (@GEpollContextMT.g_epoll_context_remove_fd linux
                 (GEpollContextMT.mkBackend 7 0 0 [] ∅) 5
                 (mkCtlAnswer (-1) 2))))
    0 true (mkWaitAnswer (-1) 22 [])
  = Aborts [].
Proof.
  destruct (removal_without_registration_miscounts linux
              (GEpollContext.mkBackend 7 0 0 [] 0)
              (GEpollContextMT.mkBackend 7 0 0 [] ∅) 5 0
              (mkCtlAnswer (-1) 2) true (mkWaitAnswer (-1) 22 []))
    as (_ & _ & _ & _ & Hwait).
  - reflexivity.
  - reflexivity.
  - reflexivity.
  - reflexivity.
  - reflexivity.
  - reflexivity.
  - exact Hwait.
Defined.

(** X19.  A descriptor that the kernel turns down with [EPERM] lives in
    the hash table of the third revision only: [add_fd] puts it there,
    [modify_fd] changes its interest there and [remove_fd] takes it out
    again, leaving the backend as it was; all three answer [TRUE], and the
    kernel is called for the attempt to add and not again. *)
Theorem table_compat_round_trip (K : Platform)
    (table : GEpollContextMT.GEpollLoopBackend)
    (fd events new_events priority : Z)
    (added modified removed : ctl_answer) :
  ctl_retval added <> 0 -> ctl_errno added = EPERM ->
  GEpollContextMT.compat_fds table !! fd = None ->
  let '(was_added, table1, calls1) :=
    GEpollContextMT.g_epoll_context_add_fd table fd events priority added in
  let '(was_modified, table2, calls2) :=
    GEpollContextMT.g_epoll_context_modify_fd table1 fd new_events priority
                                              modified in
  let '(was_removed, table3, calls3) :=
    GEpollContextMT.g_epoll_context_remove_fd table2 fd removed in
  (was_added = true /\ was_modified = true /\ was_removed = true) /\
  GEpollContextMT.compat_fds table1 = <[fd := events]>
                                        (GEpollContextMT.compat_fds table) /\
  GEpollContextMT.compat_fds table2 = <[fd := new_events]>
                                        (GEpollContextMT.compat_fds table) /\
  table3 = table /\
  List.filter GEpollContextMT.is_kernel_call (calls1 ++ calls2 ++ calls3)
  = [EvEpollCtl EPOLL_CTL_ADD fd (g_io_condition_to_epoll_events events)].
Proof.
  intros Hfail Heperm Hnot.
  unfold GEpollContextMT.g_epoll_context_add_fd.
  apply Z.eqb_neq in Hfail. rewrite Hfail.
  apply Z.eqb_eq in Heperm. rewrite Heperm. cbn [negb].
  unfold GEpollContextMT.g_epoll_context_modify_fd.
  cbn [GEpollContextMT.compat_fds].
  rewrite bool_decide_eq_true_2
    by (rewrite lookup_insert_eq; now eexists).
  unfold GEpollContextMT.g_epoll_context_remove_fd.
  cbn [GEpollContextMT.compat_fds GEpollContextMT.n_poll_records
         GEpollContextMT.epoll_fd GEpollContextMT.epoll_output_size
         GEpollContextMT.fds_ready].
  rewrite bool_decide_eq_true_2
    by (rewrite lookup_insert_eq; now eexists).
  rewrite insert_insert_eq, delete_insert_id by exact Hnot.
  repeat split. now destruct table.
Qed.

Lemma table_compat_round_trip_witness :
  snd (fst (@GEpollContextMT.g_epoll_context_remove_fd linux
              (snd (fst (@GEpollContextMT.g_epoll_context_modify_fd linux
                           (snd (fst (@GEpollContextMT.g_epoll_context_add_fd
                                        linux
                                        (GEpollContextMT.mkBackend 7 0 0 [] ∅)
                                        5 1 0 (mkCtlAnswer (-1) 1))))
                           5 4 0 succeeded)))
              5 succeeded))
  = GEpollContextMT.mkBackend 7 0 0 [] ∅.
Proof.
  pose proof (table_compat_round_trip linux
                (GEpollContextMT.mkBackend 7 0 0 [] ∅) 5 1 4 0
                (mkCtlAnswer (-1) 1) succeeded succeeded) as H.
  cbv zeta in H.
  destruct (@GEpollContextMT.g_epoll_context_add_fd linux _ 5 1 0 _)
    as [[a1 t1] c1].
  cbn [fst snd].
  destruct (@GEpollContextMT.g_epoll_context_modify_fd linux t1 5 4 0 _)
    as [[a2 t2] c2].
  cbn [fst snd].
  destruct (@GEpollContextMT.g_epoll_context_remove_fd linux t2 5 _)
    as [[a3 t3] c3].
  cbn [fst snd].
  destruct H as (_ & _ & _ & Hback & _).
  - cbn. lia.
  - reflexivity.
  - reflexivity.
  - exact Hback.
Defined.


(** *** The compatibility set in the array *)

Lemma compat_index_found (the_fd : Z) : forall (compat : list GPollFD) i,
  compat_index compat the_fd = Some i ->
  exists p,
    compat !! i = Some p /\ fd p = the_fd /\
    forall (j : nat) q, (j < i)%nat -> compat !! j = Some q -> fd q <> the_fd.
Proof.
  induction compat as [|p compat IH]; intros i Hi; [discriminate|].
  cbn in Hi. destruct (Z.eqb_spec (fd p) the_fd) as [Heq|Hne].
  - injection Hi as <-. exists p. repeat split; auto. intros j q Hj. lia.
  - destruct (compat_index compat the_fd) as [i'|]; [|discriminate].
    injection Hi as <-. destruct (IH i' eq_refl) as (q & Hq & Hfd & Hbefore).
    exists q. repeat split; auto.
    intros [|j] r Hj Hr; cbn in Hr.
    + now injection Hr as <-.
    + apply (Hbefore j); [lia | exact Hr].
Qed.

Lemma alter_found {A} (f : A -> A) (l : list A) (i : nat) (x : A) :
  l !! i = Some x -> alter f i l = <[i := f x]> l.
Proof.
  intros Hi. apply list_eq. intros j.
  destruct (Nat.eq_dec i j) as [<-|Hne].
  - rewrite list_lookup_alter_eq, Hi, list_lookup_insert_eq;
      [reflexivity | now apply lookup_lt_Some in Hi].
  - now rewrite list_lookup_alter_ne, list_lookup_insert_ne.
Qed.

(** X20.  In the revisions with the array, [modify_fd] of a descriptor of
    the compatibility set rewrites the interest in the first slot that has
    the descriptor: the descriptor of that slot, its [revents] and all other
    slots stay, the counts stay; the kernel is not called, and nothing is
    reported. *)
Theorem array_modify_fd_is_local (K : Platform)
    (context : GEpollContext.GEpollLoopBackend)
    (the_fd new_events priority : Z) (answer : ctl_answer) (i : nat) :
  compat_index (GEpollContext.compat_set context) the_fd = Some i ->
  exists p,
    GEpollContext.compat_set context !! i = Some p /\ fd p = the_fd /\
    (forall (j : nat) q,
       (j < i)%nat -> GEpollContext.compat_set context !! j = Some q ->
       fd q <> the_fd) /\
    let after :=
      GEpollContext.mkBackend
        (GEpollContext.epoll_fd context)
        (GEpollContext.n_poll_records context)
        (GEpollContext.epoll_output_size context)
        (<[i := mkPollFD the_fd new_events (revents p)]>
           (GEpollContext.fds_ready context))
        (GEpollContext.n_compat_fds context) in
    GEpollContext.g_epoll_context_modify_fd context the_fd new_events
                                            priority answer
    = (true, after, []) /\
    GEpoller.g_epoller_modify_fd (as_poller context) the_fd new_events
                                 priority answer
    = (as_poller after, []) /\
    GEpollContext.compat_set after
    = <[i := mkPollFD the_fd new_events (revents p)]>
        (GEpollContext.compat_set context).
Proof.
  intros Hi.
  destruct (compat_index_found the_fd _ i Hi) as (p & Hp & Hfd & Hbefore).
  exists p. split; [exact Hp|]. split; [exact Hfd|]. split; [exact Hbefore|].
  unfold GEpollContext.compat_set in Hp.
  apply lookup_take_Some in Hp as [Hp Hlt].
  cbv zeta. split; [|split].
  - unfold GEpollContext.g_epoll_context_modify_fd. rewrite Hi.
    rewrite (alter_found _ _ i p Hp). cbn [fd revents]. now rewrite Hfd.
  - unfold GEpoller.g_epoller_modify_fd. rewrite as_poller_compat_set, Hi.
    unfold as_poller.
    cbn [GEpoller.fds_ready GEpoller.epoll_fd GEpoller.n_poll_records
           GEpoller.epoll_output_size GEpoller.n_compat_fds
           GEpollContext.fds_ready GEpollContext.epoll_fd
           GEpollContext.n_poll_records GEpollContext.epoll_output_size
           GEpollContext.n_compat_fds].
    rewrite (alter_found _ _ i p Hp). cbn [fd revents]. now rewrite Hfd.
  - unfold GEpollContext.compat_set.
    cbn [GEpollContext.fds_ready GEpollContext.n_compat_fds].
    now rewrite take_insert_lt.
Qed.

Lemma array_modify_fd_is_local_witness :
  @GEpollContext.g_epoll_context_modify_fd linux
    GEpollContext.three_compat_fds 4 1 0 succeeded
  = (true,
     GEpollContext.mkBackend 7 0 0
       [mkPollFD 3 1 0; mkPollFD 4 1 0; mkPollFD 5 1 0] 3,
     []).
Proof.
  destruct (array_modify_fd_is_local linux GEpollContext.three_compat_fds
              4 1 0 succeeded 1)
    as (p & Hp & _ & _ & Hrun & _).
  - reflexivity.
  - injection Hp as <-. exact Hrun.
Defined.

(** *** Arrays as bytes *)

Lemma length_le_bytes (n : nat) : forall z, length (le_bytes n z) = n.
Proof. induction n as [|n IH]; intros z; cbn; [|rewrite IH]; reflexivity. Qed.

Lemma le_value_le_bytes (n : nat) : forall z,
  le_value (le_bytes n z) = z mod 256 ^ Z.of_nat n.
Proof.
  induction n as [|n IH]; intros z.
  - cbn. now rewrite Z.mod_1_r.
  - cbn [le_bytes le_value]. rewrite IH.
    rewrite Nat2Z.inj_succ, Z.pow_succ_r by lia.
    rewrite Z.rem_mul_r by lia. reflexivity.
Qed.

Lemma GPollFD_round_trip (p : GPollFD) :
  representable p -> GPollFD_of_bytes (bytes_of_GPollFD p) = p.
Proof.
  intros (Hfd & Hev & Hrev). unfold G_MININT, G_MAXINT, G_MAXUSHORT in *.
  unfold GPollFD_of_bytes, bytes_of_GPollFD.
  rewrite take_app_length' by (now rewrite length_le_bytes).
  rewrite drop_app_length' by (now rewrite length_le_bytes).
  rewrite take_app_length' by (now rewrite length_le_bytes).
  replace (drop 6 (le_bytes 4 (fd p) ++ le_bytes 2 (events p)
                   ++ le_bytes 2 (revents p)))
    with (le_bytes 2 (revents p)).
  2:{ rewrite app_assoc. symmetry. apply drop_app_length'.
      now rewrite length_app, !length_le_bytes. }
  rewrite firstn_all2 by (now rewrite length_le_bytes).
  rewrite !le_value_le_bytes.
  change (256 ^ Z.of_nat 4) with 4294967296.
  change (256 ^ Z.of_nat 2) with 65536.
  destruct p as [f e r]. cbn [fd events revents] in *. f_equal.
  - unfold wrap_gint. rewrite Z.add_mod_idemp_l by lia.
    rewrite Z.mod_small by lia. lia.
  - apply Z.mod_small. lia.
  - apply Z.mod_small. lia.
Qed.

Lemma length_bytes_of_GPollFD (p : GPollFD) :
  length (bytes_of_GPollFD p) = sizeof_GPollFD.
Proof.
  unfold bytes_of_GPollFD. now rewrite !length_app, !length_le_bytes.
Qed.

Lemma array_round_trip (a : list GPollFD) :
  List.Forall representable a -> array_of_bytes (length a) (array_bytes a) = a.
Proof.
  induction a as [|p a IH]; intros Ha; [reflexivity|].
  apply List.Forall_cons_iff in Ha as [Hp Ha].
  cbn [length array_of_bytes array_bytes flat_map].
  rewrite take_app_length' by (now rewrite length_bytes_of_GPollFD).
  rewrite drop_app_length' by (now rewrite length_bytes_of_GPollFD).
  rewrite GPollFD_round_trip by exact Hp.
  f_equal. now apply IH.
Qed.

Lemma memmove_nothing (a : list GPollFD) (dest src : nat) :
  List.Forall representable a -> memmove_GPollFD a dest src 0 = a.
Proof.
  intros Ha. unfold memmove_GPollFD, memmove.
  rewrite Nat.add_0_r, take_0, app_nil_l, take_drop.
  now apply array_round_trip.
Qed.

(** X21.  In the revisions with the array, [remove_fd] is exact for the
    last entry of the compatibility set: the byte count that [memmove] is
    given is then 0, the array stays as it is, and the set loses its last
    entry and no other.  The kernel is not called. *)
Theorem array_remove_last_is_exact (K : Platform)
    (context : GEpollContext.GEpollLoopBackend) (the_fd : Z)
    (answer : ctl_answer) (i : nat) :
  compat_index (GEpollContext.compat_set context) the_fd = Some i ->
  GEpollContext.n_compat_fds context = Z.of_nat (S i) ->
  GEpollContext.n_compat_fds context <= G_MAXUINT ->
  List.Forall representable (GEpollContext.fds_ready context) ->
  let after :=
    GEpollContext.mkBackend
      (GEpollContext.epoll_fd context)
      (GEpollContext.n_poll_records context)
      (GEpollContext.epoll_output_size context)
      (GEpollContext.fds_ready context) (Z.of_nat i) in
  GEpollContext.g_epoll_context_remove_fd context the_fd answer
  = (true, after, []) /\
  GEpoller.g_epoller_remove_fd (as_poller context) the_fd answer
  = (as_poller after, []) /\
  GEpollContext.compat_set after = take i (GEpollContext.compat_set context).
Proof.
  intros Hi Hlast Hmax Hrep after. unfold G_MAXUINT in Hmax.
  assert (Hzero : Z.to_nat (wrap_guint (GEpollContext.n_compat_fds context
                                        - 1 - Z.of_nat i)) = 0%nat).
  { rewrite Hlast. replace (Z.of_nat (S i) - 1 - Z.of_nat i) with 0 by lia.
    reflexivity. }
  assert (Hless : wrap_guint (GEpollContext.n_compat_fds context - 1)
                  = Z.of_nat i).
  { rewrite Hlast. replace (Z.of_nat (S i) - 1) with (Z.of_nat i) by lia.
    apply wrap_guint_small. unfold G_MAXUINT. lia. }
  split; [|split].
  - unfold GEpollContext.g_epoll_context_remove_fd.
    rewrite Hi, Hzero, Hless, memmove_nothing by exact Hrep. reflexivity.
  - unfold GEpoller.g_epoller_remove_fd.
    rewrite as_poller_compat_set, Hi. unfold as_poller.
    cbn [GEpoller.fds_ready GEpoller.epoll_fd GEpoller.n_poll_records
           GEpoller.epoll_output_size GEpoller.n_compat_fds].
    rewrite Hzero, Hless, memmove_nothing by exact Hrep. reflexivity.
  - unfold after, GEpollContext.compat_set.
    cbn [GEpollContext.fds_ready GEpollContext.n_compat_fds].
    rewrite Hlast, !Nat2Z.id, take_take. f_equal. lia.
Qed.

Lemma array_remove_last_is_exact_witness :
  @GEpollContext.g_epoll_context_remove_fd linux
    GEpollContext.three_compat_fds 5 succeeded
  = (true,
     GEpollContext.mkBackend 7 0 0
       [mkPollFD 3 1 0; mkPollFD 4 4 0; mkPollFD 5 1 0] 2,
     []).
Proof.
  apply (array_remove_last_is_exact linux GEpollContext.three_compat_fds 5
           succeeded 2).
  - reflexivity.
  - reflexivity.
  - cbn. unfold G_MAXUINT. lia.
  - repeat constructor; cbn; unfold G_MININT, G_MAXINT, G_MAXUSHORT; lia.
Defined.


(** *** The compatibility set in the hash table *)

Lemma length_grow (fds_ready : list GPollFD) (needed : Z) :
  length (grow fds_ready needed)
  = Nat.max (length fds_ready) (Z.to_nat needed).
Proof. unfold grow. rewrite length_app, repeat_length. lia. Qed.

Lemma ensure_ready_size_run (table : GEpollContextMT.GEpollLoopBackend)
    (needed : Z) :
  GEpollContextMT.g_epoll_context_ensure_ready_size table needed
  = GEpollContextMT.mkBackend
      (GEpollContextMT.epoll_fd table)
      (GEpollContextMT.n_poll_records table)
      (GEpollContextMT.epoll_output_size table)
      (if needed >? Z.of_nat (length (GEpollContextMT.fds_ready table))
       then grow (GEpollContextMT.fds_ready table) needed
       else GEpollContextMT.fds_ready table)
      (GEpollContextMT.compat_fds table).
Proof.
  unfold GEpollContextMT.g_epoll_context_ensure_ready_size,
    GEpollContextMT.fds_ready_size.
  destruct (needed >? _); [reflexivity | now destruct table].
Qed.

Lemma length_ensured (fds_ready : list GPollFD) (needed : Z) :
  length (if needed >? Z.of_nat (length fds_ready)
          then grow fds_ready needed else fds_ready)
  = Nat.max (length fds_ready) (Z.to_nat needed).
Proof.
  destruct (Z.gtb_spec needed (Z.of_nat (length fds_ready)));
    [rewrite length_grow|]; lia.
Qed.

Lemma query_compat_fds_run (table : GEpollContextMT.GEpollLoopBackend) :
  Z.of_nat (size (GEpollContextMT.compat_fds table)) <= G_MAXUINT ->
  exists fds_ready,
    GEpollContextMT.g_epoll_context_query_compat_fds table
    = (Z.of_nat (size (GEpollContextMT.compat_fds table)),
       GEpollContextMT.mkBackend
         (GEpollContextMT.epoll_fd table)
         (GEpollContextMT.n_poll_records table)
         (GEpollContextMT.epoll_output_size table)
         fds_ready (GEpollContextMT.compat_fds table),
       [EvLock; EvUnlock]) /\
    take (size (GEpollContextMT.compat_fds table)) fds_ready
    = map (fun kv => mkPollFD (fst kv) (snd kv) 0)
          (map_to_list (GEpollContextMT.compat_fds table)) /\
    length fds_ready
    = Nat.max (length (GEpollContextMT.fds_ready table))
              (size (GEpollContextMT.compat_fds table)).
Proof.
  intros Hmax. unfold GEpollContextMT.g_epoll_context_query_compat_fds.
  rewrite wrap_guint_small by lia.
  destruct table as [efd n osize fds compat].
  cbn [GEpollContextMT.compat_fds GEpollContextMT.epoll_fd
         GEpollContextMT.n_poll_records GEpollContextMT.epoll_output_size
         GEpollContextMT.fds_ready] in *.
  pose proof (length_map_to_list compat) as Hlen.
  destruct (Z.eqb_spec (Z.of_nat (size compat)) 0) as [Hzero|Hsome];
    cbn [negb].
  - exists fds. split; [reflexivity|].
    assert (Hsize : size compat = 0%nat) by lia.
    rewrite Hsize. rewrite Hsize in Hlen.
    destruct (map_to_list compat); [|discriminate]. split; [reflexivity|].
    lia.
  - rewrite ensure_ready_size_run.
    cbn [GEpollContextMT.compat_fds GEpollContextMT.epoll_fd
           GEpollContextMT.n_poll_records GEpollContextMT.epoll_output_size
           GEpollContextMT.fds_ready].
    eexists. split; [reflexivity|].
    unfold GEpollContextMT.store_compat_fds.
    split.
    + apply take_app_length'. now rewrite length_map.
    + rewrite length_app, length_map, length_drop, Hlen, length_ensured.
      lia.
Qed.

(** X22.  [g_epoll_context_query_compat_fds] lists the hash table at the
    head of [fds_ready]: it answers the number of the compatibility
    descriptors, and the slots below that number hold exactly the
    descriptors of the table, each once, with its interest and with no
    event; the array is made long enough for them, and the table and the
    counts stay as they are. *)
Theorem query_compat_fds_lists_the_table
    (table : GEpollContextMT.GEpollLoopBackend) :
  Z.of_nat (size (GEpollContextMT.compat_fds table)) <= G_MAXUINT ->
  let '(n_compat_fds, after, calls) :=
    GEpollContextMT.g_epoll_context_query_compat_fds table in
  let listed :=
    take (Z.to_nat n_compat_fds) (GEpollContextMT.fds_ready after) in
  n_compat_fds = Z.of_nat (size (GEpollContextMT.compat_fds table)) /\
  length listed = size (GEpollContextMT.compat_fds table) /\
  (forall fd events,
     GEpollContextMT.compat_fds table !! fd = Some events <->
     In (mkPollFD fd events 0) listed) /\
  List.NoDup (map GMain.fd listed) /\
  GEpollContextMT.compat_fds after = GEpollContextMT.compat_fds table /\
  GEpollContextMT.n_poll_records after
  = GEpollContextMT.n_poll_records table /\
  calls = [EvLock; EvUnlock].
Proof.
  intros Hmax.
  destruct (query_compat_fds_run table Hmax) as (fds & -> & Htake & Hlen).
  cbv zeta. cbn [GEpollContextMT.fds_ready GEpollContextMT.compat_fds
                   GEpollContextMT.n_poll_records].
  rewrite Nat2Z.id, Htake.
  split; [reflexivity|]. split; [|split; [|split]]; [| | |auto].
  - now rewrite length_map, length_map_to_list.
  - intros fd events. rewrite <- elem_of_map_to_list.
    rewrite <- list_elem_of_In.
    change (map ?f ?l) with (f <$> l). rewrite list_elem_of_fmap. split.
    + intros Hin. now exists (fd, events).
    + intros ([k v] & Heq & Hin). cbn in Heq. now injection Heq as -> ->.
  - rewrite map_map. cbn [GMain.fd]. apply NoDup_ListNoDup.
    apply (NoDup_fst_map_to_list (GEpollContextMT.compat_fds table)).
Qed.

Lemma query_compat_fds_lists_the_table_witness :
  let '(n_compat_fds, after, calls) :=
    GEpollContextMT.g_epoll_context_query_compat_fds
      (GEpollContextMT.mkBackend 7 0 0 [] {[5 := 1]}) in
  n_compat_fds = 1 /\
  (forall fd events,
     ({[5 := 1]} : gmap Z Z) !! fd = Some events <->
     In (mkPollFD fd events 0)
        (take (Z.to_nat n_compat_fds) (GEpollContextMT.fds_ready after))) /\
  calls = [EvLock; EvUnlock].
Proof.
  assert (Hmax : Z.of_nat (size (GEpollContextMT.compat_fds
                                   (GEpollContextMT.mkBackend 7 0 0 []
                                      {[5 := 1]}))) <= G_MAXUINT).
  { cbn. rewrite map_size_singleton. unfold G_MAXUINT. lia. }
  pose proof (query_compat_fds_lists_the_table _ Hmax) as H.
  destruct (GEpollContextMT.g_epoll_context_query_compat_fds _)
    as [[n_compat_fds after] calls].
  destruct H as (Hn & _ & Hin & _ & _ & _ & Hcalls).
  split; [|split]; [|exact Hin|exact Hcalls].
  rewrite Hn. cbn. now rewrite map_size_singleton.
Defined.


(** *** An iteration of the revision with the hash table *)







End GEpollMoreFacts.

(** ** The basic event context from creation to finalization *)

Module GEventBasicFacts.
Import GTypes GTypesFacts GEvent GEventFacts.

(** X24.  The life of a context of the basic [gevent.c]: a context made
    by [g_event_context_new] takes [add_poll], which locks it, calls the
    [add_poll] of its function table and unlocks it; the one
    [g_event_context_unref] that its creator owes calls [finalize] and
    frees it; and a later [add_poll] or [remove_poll] through the stale
    handle goes through freed memory. *)
Theorem basic_context_lifecycle (fs : GEventContextFuncs) (size : Z)
    (p : addr) (w : world) :
  exists h w1 w2 w3,
    GEventBasic.g_event_context_new fs size w = Ret (Some h) w1 /\
    GEventBasic._g_event_context_add_poll (Some h) (Some p) w1 = Ret tt w2 /\
    trace w2 = trace w ++ [EvLock h; EvAddPoll fs h p; EvUnlock h] /\
    g_event_context_unref (Some h) w2 = Ret tt w3 /\
    trace w3 = trace w2 ++ [EvFinalize fs h] /\
    GEventBasic._g_event_context_add_poll (Some h) (Some p) w3 = Fault /\
    GEventBasic._g_event_context_remove_poll (Some h) (Some p) w3 = Fault.
Proof.
  destruct (new_custom_fresh fs size w) as (w1 & Hnew & Hh1 & Ht1).
  set (w2 := mkWorld (heap w1) (next_addr w1) (default_event_context w1)
                     (initialised w1) (sys_epoll_create w1)
                     (trace w1 ++ [EvLock (next_addr w);
                                   EvAddPoll fs (next_addr w) p;
                                   EvUnlock (next_addr w)])
                     (leaked w1)).
  assert (Hadd : GEventBasic._g_event_context_add_poll
                   (Some (next_addr w)) (Some p) w1 = Ret tt w2).
  { unfold GEventBasic._g_event_context_add_poll,
      g_event_context_add_poll_unlocked, bind, load, log.
    rewrite Hh1. cbn. rewrite Hh1. cbn. unfold w2.
    now rewrite <- !app_assoc. }
  assert (Hh2 : heap w2 !! next_addr w
                = Some (mkContext fs (mkPrivate size 1))) by exact Hh1.
  destruct (unref_last (next_addr w) _ w2 Hh2 eq_refl)
    as (w3 & Hunref & Hh3 & Ht3).
  exists (next_addr w), w1, w2, w3.
  split; [exact Hnew|]. split; [exact Hadd|].
  split; [cbn; now rewrite Ht1|]. split; [exact Hunref|].
  split; [exact Ht3|].
  unfold GEventBasic._g_event_context_add_poll,
    GEventBasic._g_event_context_remove_poll, bind, load.
  now rewrite Hh3.
Qed.

End GEventBasicFacts.

(** ** The poll function of [gmain-poll.c] *)

Module GPollFuncsFacts.
Import GTypes GTypesFacts GMain GPollRecords GPollFuncs.

(** X25.  The poll function that is installed is the one that is asked:
    after [_g_main_compat_set_poll_func], which locks and unlocks and keeps
    the records, [g_poll_context_poll] asks the function given, and
    [g_poll] if NULL was given; after [_g_baseline_poller_set_poll_func],
    [g_baseline_poller_poll] asks the function given, which is also what
    [_g_baseline_poller_get_poll_func] answers. *)
Theorem installed_poll_func_is_asked (K : Platform) (g_poll : GPollFunc)
    (func : option GPollFunc) (f : GPollFunc)
    (baseline : GBaselinePoller.GBaselinePollerData)
    (context : GPollContext.GPollLoopBackend)
    (timeout priority : Z) (fds : list GPollFD) (n_fds : Z) :
  n_fds <> 0 \/ timeout <> 0 ->
  let asked := match func with Some f => f | None => g_poll end in
  (let '(_, installed, calls) :=
     _g_main_compat_set_poll_func g_poll func context in
   GPollContext.calls_of calls = [EvLock; EvUnlock] /\
   GPollContext.poll_records installed = GPollContext.poll_records context /\
   fst (fst (GPollContext.g_poll_context_poll timeout priority fds n_fds
                                              installed))
   = poll_fds (asked fds n_fds timeout)) /\
  (let installed := _g_baseline_poller_set_poll_func baseline f in
   _g_baseline_poller_get_poll_func installed = f /\
   GBaselinePoller.poll_records installed
   = GBaselinePoller.poll_records baseline /\
   fst (GBaselinePoller.g_baseline_poller_poll installed timeout priority
                                               fds n_fds)
   = poll_fds (f fds n_fds timeout)).
Proof.
  intros Hcall asked.
  assert (Hcond : negb (n_fds =? 0) || negb (timeout =? 0) = true).
  { destruct Hcall as [H|H]; apply Z.eqb_neq in H; rewrite H;
      [reflexivity | apply orb_true_r]. }
  split.
  - unfold _g_main_compat_set_poll_func, set_poll_func, GPollContext.bind,
      GPollContext.call. cbn [fst snd app GPollContext.poll_records].
    split; [reflexivity|]. split; [reflexivity|].
    unfold GPollContext.g_poll_context_poll. rewrite Hcond.
    unfold GPollContext.bind, GPollContext.call, GPollContext.get,
      GPollContext.ret.
    cbn [GPollContext.poll_func GPollContext.poll_records].
    fold asked. now destruct (_ && _).
  - cbv zeta. split; [reflexivity|]. split; [reflexivity|].
    unfold GBaselinePoller.g_baseline_poller_poll. now rewrite Hcond.
Qed.

Lemma installed_poll_func_is_asked_witness :
  fst (fst (@GPollContext.g_poll_context_poll linux 0 0 [mkPollFD 5 1 0] 1
              (snd (fst (_g_main_compat_set_poll_func
                           GBaselinePoller.nothing_ready None
                           (GPollContext.g_poll_context_create
                              interrupted))))))
  = [mkPollFD 5 1 0].
Proof.
  destruct (installed_poll_func_is_asked linux GBaselinePoller.nothing_ready
              None interrupted
              (GBaselinePoller._g_baseline_poller_new interrupted)
              (GPollContext.g_poll_context_create interrupted)
              0 0 [mkPollFD 5 1 0] 1)
    as ((_ & _ & Hasked) & _).
  - left. lia.
  - exact Hasked.
Defined.

End GPollFuncsFacts.

(** ** The life of a [GEpollerData] *)

Module GEpollerLifeFacts.
Import GTypes GTypesFacts GMain GEpoll GEpollerLife.

(** What two backends have to have in common for the next [add_fd], and
    the room that the counts have left. *)
Lemma add_fd_alike `{K : Platform} (a b : GEpoller.GEpollerData)
    (fd events priority : Z) (answer : ctl_answer) :
  alike a b ->
  compat_in_range (GEpoller.n_compat_fds a) (GEpoller.fds_ready a) ->
  compat_in_range (GEpoller.n_compat_fds b) (GEpoller.fds_ready b) ->
  let a' := fst (GEpoller.g_epoller_add_fd a fd events priority answer) in
  let b' := fst (GEpoller.g_epoller_add_fd b fd events priority answer) in
  alike a' b' /\
  GEpoller.n_compat_fds a <= GEpoller.n_compat_fds a'
  <= GEpoller.n_compat_fds a + 1 /\
  0 <= GEpoller.n_compat_fds a'
  <= Z.of_nat (length (GEpoller.fds_ready a')) /\
  0 <= GEpoller.n_compat_fds b'
  <= Z.of_nat (length (GEpoller.fds_ready b')).
Proof.
  intros (Hset & Hnc & Hn) Ha Hb a' b'. subst a' b'.
  pose proof Ha as [Hra Hma]. pose proof Hb as [Hrb Hmb].
  unfold GEpoller.g_epoller_add_fd.
  destruct (negb (ctl_retval answer =? 0)); cbn [fst];
    [destruct (ctl_errno answer =? EPERM); cbn [fst]|].
  - unfold alike, GEpoller.compat_set, GEpoller.g_epoller_ensure_ready_size,
      GEpoller.fds_ready_size.
    cbn [GEpoller.n_compat_fds GEpoller.fds_ready GEpoller.n_poll_records].
    assert (Hwa : wrap_guint (GEpoller.n_compat_fds a + 1)
                  = GEpoller.n_compat_fds a + 1)
      by (apply wrap_guint_small; unfold G_MAXUINT in *; lia).
    assert (Hwb : wrap_guint (GEpoller.n_compat_fds b + 1)
                  = GEpoller.n_compat_fds b + 1)
      by (apply wrap_guint_small; unfold G_MAXUINT in *; lia).
    pose proof (GEpollFacts.store_next_compat (GEpoller.fds_ready a)
                  (GEpoller.n_compat_fds a) (mkPollFD fd events 0) Ha)
      as Hsa.
    pose proof (GEpollFacts.store_next_compat (GEpoller.fds_ready b)
                  (GEpoller.n_compat_fds b) (mkPollFD fd events 0) Hb)
      as Hsb.
    destruct (Z.gtb_spec (wrap_guint (GEpoller.n_compat_fds a + 1))
                (Z.of_nat (length (GEpoller.fds_ready a)))) as [Hga|Hga];
      destruct (Z.gtb_spec (wrap_guint (GEpoller.n_compat_fds b + 1))
                  (Z.of_nat (length (GEpoller.fds_ready b)))) as [Hgb|Hgb];
      cbn [GEpoller.n_compat_fds GEpoller.fds_ready GEpoller.n_poll_records];
      rewrite Hsa, Hsb;
      fold (GEpoller.compat_set a); fold (GEpoller.compat_set b);
      rewrite Hset, Hnc, Hn, ?Hwa, ?Hwb;
      (split; [auto|]);
      rewrite ?length_insert, ?GEpollMoreFacts.length_grow, ?Hwa, ?Hwb;
      lia.
  - unfold alike. repeat split; auto; lia.
  - unfold alike, GEpoller.compat_set.
    cbn [GEpoller.n_compat_fds GEpoller.fds_ready GEpoller.n_poll_records].
    fold (GEpoller.compat_set a). fold (GEpoller.compat_set b).
    rewrite Hset, Hnc, Hn. repeat split; auto; lia.
Qed.


Lemma add_fds_alike `{K : Platform} (adds : list (Z * Z * Z * ctl_answer)) :
  forall a b : GEpoller.GEpollerData,
  alike a b ->
  0 <= GEpoller.n_compat_fds a <= Z.of_nat (length (GEpoller.fds_ready a)) ->
  0 <= GEpoller.n_compat_fds b <= Z.of_nat (length (GEpoller.fds_ready b)) ->
  GEpoller.n_compat_fds a + Z.of_nat (length adds) < G_MAXUINT ->
  alike (add_fds a adds) (add_fds b adds).
Proof.
  induction adds as [|[[[fd events] priority] answer] rest IH];
    intros a b Halike Ha Hb Hroom; [exact Halike|].
  cbn [add_fds fold_left fst snd].
  cbn [length] in Hroom.
  pose proof Halike as (_ & Hnc & _).
  destruct (add_fd_alike a b fd events priority answer Halike)
    as (Halike' & Hstep & Ha' & Hb').
  { split; [exact Ha | lia]. }
  { split; [exact Hb | lia]. }
  apply IH; auto. lia.
Qed.

(** X26.  A reset poller is like a new one: [g_epoller_reset] empties the
    compatibility set and the count of registrations, and gives the
    registrations up by closing the epoll descriptor and making another,
    which it does only if there were registrations; whatever descriptors
    are added afterwards, with whatever answers of the kernel, the
    compatibility set and the counts are those of a new poller after the
    same additions. *)
Theorem reset_is_like_new (K : Platform) (backend : GEpoller.GEpollerData)
    (epoll_fd : Z) (adds : list (Z * Z * Z * ctl_answer)) :
  0 <= epoll_fd -> Z.of_nat (length adds) < G_MAXUINT ->
  exists fresh,
    _g_epoller_new epoll_fd = (Some fresh, []) /\
    g_epoller_reset backend epoll_fd
    = (GEpoller.mkBackend
         (if GEpoller.n_poll_records backend =? 0
          then GEpoller.epoll_fd backend else epoll_fd)
         0 (GEpoller.epoll_output_size backend)
         (GEpoller.fds_ready backend) 0,
       if GEpoller.n_poll_records backend =? 0
       then [] else [Close (GEpoller.epoll_fd backend)]) /\
    alike (add_fds (fst (g_epoller_reset backend epoll_fd)) adds)
          (add_fds fresh adds).
Proof.
  intros Hfd Hadds.
  assert (Hcreate : g_epoll_create epoll_fd = (epoll_fd, [])).
  { unfold g_epoll_create. apply Z.ltb_ge in Hfd. now rewrite Hfd. }
  assert (Hreset :
            g_epoller_reset backend epoll_fd
            = (GEpoller.mkBackend
                 (if GEpoller.n_poll_records backend =? 0
                  then GEpoller.epoll_fd backend else epoll_fd)
                 0 (GEpoller.epoll_output_size backend)
                 (GEpoller.fds_ready backend) 0,
               if GEpoller.n_poll_records backend =? 0
               then [] else [Close (GEpoller.epoll_fd backend)])).
  { unfold g_epoller_reset. rewrite Hcreate.
    destruct (Z.eqb_spec (GEpoller.n_poll_records backend) 0) as [Hz|Hnz];
      cbn [negb]; [now rewrite Hz | reflexivity]. }
  exists (GEpoller.mkBackend epoll_fd 0 0 [] 0).
  split; [|split; [exact Hreset|]].
  - unfold _g_epoller_new. rewrite Hcreate.
    apply Z.ltb_ge in Hfd. now rewrite Hfd.
  - rewrite Hreset. cbn [fst]. apply add_fds_alike.
    + unfold alike, GEpoller.compat_set. cbn. auto.
    + cbn. lia.
    + cbn. lia.
    + cbn. lia.
Qed.

Lemma reset_is_like_new_witness :
  GEpoller.compat_set
    (@add_fds linux
       (fst (g_epoller_reset GEpoller.three_compat_fds 8))
       [(6, 1, 0, mkCtlAnswer (-1) 1)])
  = GEpoller.compat_set
      (@add_fds linux (GEpoller.mkBackend 8 0 0 [] 0)
         [(6, 1, 0, mkCtlAnswer (-1) 1)]).
Proof.
  destruct (reset_is_like_new linux GEpoller.three_compat_fds 8
              [(6, 1, 0, mkCtlAnswer (-1) 1)])
    as (fresh & Hnew & _ & Halike & _).
  - lia.
  - cbn. unfold G_MAXUINT. lia.
  - injection Hnew as <-. exact Halike.
Defined.

End GEpollerLifeFacts.
